(** * NBA-TOTAL: the statistics and strategy core, embedded in Rocq

    The TypeScript sources [utils] (match processing, matchup analysis,
    per-match insights), [types.ts] and [components/BettingSimulator.tsx] (the
    backtest engine) are translated function by function.  An ECMAScript [number] is
    an IEEE 754 binary64 value, so it is modelled by Rocq's primitive
    [float]: [NaN], the infinities, signed zeros and rounding are the ones
    the program runs with.  A relational comparison [a > b] of the source is
    written [b <? a]. *)

From Stdlib Require Import ZArith Floats List String Ascii Bool Lia Permutation.
Import ListNotations.

Set Warnings "-inexact-float".

Local Open Scope string_scope.
Local Open Scope float_scope.

(** ** ECMAScript primitives used by the sources *)

(** A string is held as the bytes of its UTF-8 encoding, the form in which
    the data files store it and in which a string literal of this file is
    read: an ASCII character is one byte, and the other characters take two
    to four bytes, each of them 128 or above (a surrogate without its partner
    takes the three bytes the encoding would give its code).  Equality of
    strings is equality of their bytes. *)

Module JS.

(** [ToBoolean] on a number: [0], [-0] and [NaN] are falsy. *)
Definition truthy (x : float) : bool := negb (is_nan x || (x =? 0)).

(** [x || d] on numbers. *)
Definition or_else (x d : float) : float := if truthy x then x else d.

(** The number value of a mathematical integer (round to nearest, ties to
    even; overflow gives an infinity). *)
Definition of_Z (z : Z) : float := SF2Prim (binary_normalize prec emax z 0 false).

(** [arr.length] as a number. *)
Definition length_number {A : Type} (l : list A) : float :=
  of_Z (Z.of_nat (List.length l)).


(** [StrWhiteSpaceChar], the white space and the line terminators of the
    language.  Those of one byte are TAB, LF, VT, FF, CR and SP. *)
Definition is_white_space (c : ascii) : bool :=
  let n := N_of_ascii c in
  ((9 <=? n) && (n <=? 13) || (n =? 32))%N.

(** U+00A0, the no-break space, is the two bytes [C2 A0]. *)
Definition is_white_space2 (c1 c2 : ascii) : bool :=
  ((N_of_ascii c1 =? 194) && (N_of_ascii c2 =? 160))%N.

(** The others take three bytes: U+1680 is [E1 9A 80]; U+2000 to U+200A
    are [E2 80 80] to [E2 80 8A]; U+2028, U+2029 and U+202F are [E2 80 A8],
    [E2 80 A9] and [E2 80 AF]; U+205F is [E2 81 9F]; U+3000 is [E3 80 80];
    U+FEFF is [EF BB BF]. *)
Definition is_white_space3 (c1 c2 c3 : ascii) : bool :=
  let n1 := N_of_ascii c1 in
  let n2 := N_of_ascii c2 in
  let n3 := N_of_ascii c3 in
  ((n1 =? 225) && (n2 =? 154) && (n3 =? 128)
   || (n1 =? 226) && (n2 =? 128)
      && ((128 <=? n3) && (n3 <=? 138) || (n3 =? 168) || (n3 =? 169) || (n3 =? 175))
   || (n1 =? 226) && (n2 =? 129) && (n3 =? 159)
   || (n1 =? 227) && (n2 =? 128) && (n3 =? 128)
   || (n1 =? 239) && (n2 =? 187) && (n3 =? 191))%N.

(** The string without its leading white space. *)
Fixpoint trim_start (s : string) : string :=
  match s with
  | EmptyString => EmptyString
  | String c1 s1 =>
      if is_white_space c1 then trim_start s1
      else
        match s1 with
        | EmptyString => s
        | String c2 s2 =>
            if is_white_space2 c1 c2 then trim_start s2
            else
              match s2 with
              | EmptyString => s
              | String c3 s3 => if is_white_space3 c1 c2 c3 then trim_start s3 else s
              end
        end
  end.

Definition digit_value (c : ascii) : option Z :=
  let n := N_of_ascii c in
  if ((48 <=? n) && (n <=? 57))%N then Some (Z.of_N n - 48)%Z else None.

(** The value of the longest prefix of decimal digits, [None] when that
    prefix is empty. *)
Fixpoint leading_digits (s : string) (acc : option Z) : option Z :=
  match s with
  | String c s' =>
      match digit_value c with
      | Some d =>
          leading_digits s'
            (Some (10 * match acc with Some a => a | None => 0 end + d)%Z)
      | None => acc
      end
  | EmptyString => acc
  end.

(** [parseInt(s, 10)]: leading white space is skipped, one sign is read,
    then the longest run of decimal digits; no digit at all gives [NaN].  The
    digits are taken exactly, also beyond the twentieth, where an engine may
    approximate. *)
Definition parseInt (s : string) : float :=
  let s1 := trim_start s in
  let '(neg, s2) :=
    match s1 with
    | String "-"%char r => (true, r)
    | String "+"%char r => (false, r)
    | _ => (false, s1)
    end in
  match leading_digits s2 None with
  | None => nan
  | Some z => if neg then - of_Z z else of_Z z
  end.

(** [s.split(sep)] for a one-character separator. *)
Fixpoint split (sep : ascii) (s : string) : list string :=
  match s with
  | EmptyString => [EmptyString]
  | String c s' =>
      if Ascii.eqb c sep then EmptyString :: split sep s'
      else match split sep s' with
           | h :: t => String c h :: t
           | [] => [String c EmptyString]
           end
  end.

(** [arr.join(sep)]. *)
Definition join (sep : string) (l : list string) : string := String.concat sep l.

(** A plain object used as a dictionary: its own properties, in the order
    in which they were created.  Keys are distinct; [get] reads the own
    property of a key. *)
Definition object (V : Type) : Type := list (string * V).

Fixpoint get {V : Type} (o : object V) (k : string) : option V :=
  match o with
  | [] => None
  | (k', v) :: o' => if String.eqb k' k then Some v else get o' k
  end.

(** A plain object inherits from [Object.prototype], so [o[k]] finds a value,
    a function or the prototype itself, under each of these names also when
    [o] has no such property of its own.  These are the members of
    [Object.prototype] in the engines the program runs on. *)
Definition prototype_members : list string :=
  ["constructor"; "hasOwnProperty"; "isPrototypeOf"; "propertyIsEnumerable";
   "toLocaleString"; "toString"; "valueOf"; "__proto__"; "__defineGetter__";
   "__defineSetter__"; "__lookupGetter__"; "__lookupSetter__"].

Definition inherited (k : string) : bool := existsb (String.eqb k) prototype_members.

(** [o[k]] where the own values of [o] are objects: an own property, else an
    inherited member, which is seen as the object [member], else nothing
    ([undefined]). *)
Definition read {V : Type} (member : V) (o : object V) (k : string) : option V :=
  match get o k with
  | Some v => Some v
  | None => if inherited k then Some member else None
  end.

(** An array index: the canonical numeral of an integer below [2^32 - 1]. *)
Definition array_index (k : string) : option N :=
  match k with
  | EmptyString => None
  | String c rest =>
      if forallb (fun d => match digit_value d with Some _ => true | None => false end)
           (list_ascii_of_string k)
         && (negb (Ascii.eqb c "0") || String.eqb rest "")
      then
        match leading_digits k None with
        | Some z => if (z <? 4294967295)%Z then Some (Z.to_N z) else None
        | None => None
        end
      else None
  end.

(** The order in which the own properties are enumerated: those whose key is
    an array index first, by ascending index, then the others in the order
    of their creation.  [key] gives the key of an element. *)
Section Enumeration.
Context {A : Type} (key : A -> string).

Definition index_of (x : A) : N :=
  match array_index (key x) with Some i => i | None => 0%N end.

Definition has_index (x : A) : bool :=
  match array_index (key x) with Some _ => true | None => false end.

Fixpoint insert_by_index (x : A) (l : list A) : list A :=
  match l with
  | [] => [x]
  | y :: l' => if (index_of x <? index_of y)%N then x :: l else y :: insert_by_index x l'
  end.

Definition enumeration (l : list A) : list A :=
  app (fold_right insert_by_index [] (filter has_index l))
      (filter (fun x => negb (has_index x)) l).
End Enumeration.

(** [Object.entries(o)] and [Object.values(o)]. *)
Definition entries {V : Type} (o : object V) : list (string * V) := enumeration fst o.

Definition values {V : Type} (o : object V) : list V := map snd (entries o).

(** [o[k] = v]: an existing key keeps its place, a new one goes last. *)
Fixpoint set {V : Type} (o : object V) (k : string) (v : V) : object V :=
  match o with
  | [] => [(k, v)]
  | (k', v') :: o' =>
      if String.eqb k' k then (k', v) :: o' else (k', v') :: set o' k v
  end.

(** [arr.sort(cmp)]: a stable sort; a comparator result that is [NaN]
    counts as [0].  [insert x l] puts [x] in front of the first element it
    does not have to follow.  For a comparator that is not a consistent
    order the language leaves the arrangement to the engine; this is one such
    arrangement. *)
Section Sort.
Context {A : Type} (cmp : A -> A -> float).

Fixpoint insert (x : A) (l : list A) : list A :=
  match l with
  | [] => [x]
  | y :: l' => if 0 <? cmp x y then y :: insert x l' else x :: l
  end.

Definition sort (l : list A) : list A := fold_right insert [] l.
End Sort.

(** [arr.slice(0, n)]. *)
Definition slice0 {A : Type} (n : nat) (l : list A) : list A := firstn n l.

(** [arr[i]] read as a number: a missing element is [undefined], which
    arithmetic turns into [NaN]. *)
Definition index (l : list float) (i : nat) : float := nth i l nan.

(** [Math.pow(x, 2)], taken as the correctly rounded square. *)
Definition pow2 (x : float) : float := x * x.

End JS.

(** Host functions whose result depends on the engine or on formatting only:
    the time value of [new Date(s)], [x.toFixed(d)] and the string form of a
    number inside a template literal. *)
Class Host : Type := {
  Date_time : string -> float;
  toFixed : float -> nat -> string;
  numberToString : float -> string
}.

(** ** types.ts *)

Module Types.

(** One team's box-score line for one period.  Every value is a string in
    the data set and may be missing; only the fields the modelled functions
    read are kept. *)
Record QuarterStats : Type := {
  field_goals_attempted : option string;
  field_goals_made : option string;
  free_throws_attempted : option string;
  offensive_rebounds : option string;
  turnovers : option string
}.

Definition TeamQuarterStats : Type := JS.object QuarterStats.

Record QuarterScore : Type := {
  q_home_score : string;
  q_away_score : string
}.

Record LineOdds : Type := {
  total_line : float;
  over_odds : float;
  under_odds : float
}.

(** [date_text] is the field [date] of the raw record, a string. *)
Record MatchData : Type := {
  match_id : string;
  date_text : string;
  home_team : string;
  away_team : string;
  home_score : string;
  away_score : string;
  quarter_scores : JS.object QuarterScore;
  quarter_stats : JS.object TeamQuarterStats;
  line_odds : LineOdds
}.

Inductive Result : Type := OVER | UNDER | PUSH.

(** [date] holds the time value of the [Date] object ([getTime()]), which is
    [NaN] for an invalid date. *)
Record ProcessedMatch : Type := {
  id : string;
  date : float;
  homeTeam : string;
  awayTeam : string;
  homeScore : float;
  awayScore : float;
  totalScore : float;
  regulationTotal : float;
  line : float;
  overOdds : float;
  underOdds : float;
  result : Result;
  diff : float;
  pace : float;
  homeTS : float;
  awayTS : float;
  homeFG_Pct : float;
  awayFG_Pct : float;
  quarterlyTotals : list float;
  homeQScores : list float;
  awayQScores : list float;
  isOT : bool
}.

(** [gamesPlayed] is absent from the objects the simulator builds and casts
    to [TeamStats]. *)
Record TeamStats : Type := {
  name : string;
  gamesPlayed : option float;
  avgPointsFor : float;
  avgPointsAgainst : float;
  avgPace : float;
  avgTS : float;
  overRate : float;
  last10Avg : float;
  avgFGA : float;
  avgFG_Pct : float;
  avg3P_Pct : float;
  avgFouls : float;
  avgFTM : float;
  avgTurnovers : float;
  avgFTA : float;
  avgRebounds : float
}.

Inductive InsightType : Type := PACE | BRICK | FOUL | MISMATCH | DEFENSE.

Record MatchupInsight : Type := {
  type : InsightType;
  title : string;
  desc : string;
  color : string
}.

End Types.

(** ** utils: the module imported as [./utils] *)

Module Utils.
Import Types.

(** [p]: [parseInt(val || '0', 10)]; an absent or empty string is replaced
    by ['0'] before parsing. *)
Definition p (val : option string) : float :=
  JS.parseInt
    match val with
    | Some s => if String.eqb s "" then "0" else s
    | None => "0"
    end.

Definition calculatePossessions (stats : option QuarterStats) : float :=
  match stats with
  | None => 0
  | Some stats =>
      let fga := p (field_goals_attempted stats) in
      let fta := p (free_throws_attempted stats) in
      let orb := p (offensive_rebounds stats) in
      let tov := p (turnovers stats) in
      0.96 * (fga + (0.44 * fta) - orb + tov)
  end.

Definition calculateTS (points : float) (stats : option QuarterStats) : float :=
  match stats with
  | None => 0
  | Some stats =>
      if points =? 0 then 0
      else
        let fga := p (field_goals_attempted stats) in
        let fta := p (free_throws_attempted stats) in
        let denominator := 2 * (fga + (0.44 * fta)) in
        if denominator =? 0 then 0 else (points / denominator) * 100
  end.

(** What [map[name] || name] gives: a string, or, for a name that the table
    inherits from [Object.prototype], the member of that name, which is a
    function or an object and no string. *)
Inductive Normalized : Type :=
| Name (s : string)
| Member (k : string).

(** The table holds one entry of its own. *)
Definition normalizeTeamName (name : string) : Normalized :=
  match JS.get [("LA Clippers", "Los Angeles Clippers")] name with
  | Some n => Name n
  | None => if JS.inherited name then Member name else Name name
  end.

Definition periods : list string := ["Q1"; "Q2"; "Q3"; "Q4"].

(** The running sums of the [forEach] over [Object.values(quarter_stats)]. *)
Record GameSums : Type := {
  homePoss : float; awayPoss : float;
  homeFGA : float; homeFGM : float; homeFTA : float;
  awayFGA : float; awayFGM : float; awayFTA : float
}.

(** A box-score line without any of the fields: what the reads of a
    member of [Object.prototype] give. *)
Definition noStats : QuarterStats :=
  {| field_goals_attempted := None; field_goals_made := None;
     free_throws_attempted := None; offensive_rebounds := None; turnovers := None |}.

Definition addQuarter (m : MatchData) (s : GameSums) (qStats : TeamQuarterStats)
  : GameSums :=
  let s1 :=
    match JS.read noStats qStats (home_team m) with
    | Some h =>
        {| homePoss := homePoss s + calculatePossessions (Some h);
           awayPoss := awayPoss s;
           homeFGA := homeFGA s + p (field_goals_attempted h);
           homeFGM := homeFGM s + p (field_goals_made h);
           homeFTA := homeFTA s + p (free_throws_attempted h);
           awayFGA := awayFGA s; awayFGM := awayFGM s; awayFTA := awayFTA s |}
    | None => s
    end in
  match JS.read noStats qStats (away_team m) with
  | Some a =>
      {| homePoss := homePoss s1;
         awayPoss := awayPoss s1 + calculatePossessions (Some a);
         homeFGA := homeFGA s1; homeFGM := homeFGM s1; homeFTA := homeFTA s1;
         awayFGA := awayFGA s1 + p (field_goals_attempted a);
         awayFGM := awayFGM s1 + p (field_goals_made a);
         awayFTA := awayFTA s1 + p (free_throws_attempted a) |}
  | None => s1
  end.

Definition gameSums (m : MatchData) : GameSums :=
  fold_left (addQuarter m) (JS.values (quarter_stats m))
    {| homePoss := 0; awayPoss := 0; homeFGA := 0; homeFGM := 0; homeFTA := 0;
       awayFGA := 0; awayFGM := 0; awayFTA := 0 |}.

Definition homePeriodScore (m : MatchData) (q : string) : float :=
  match JS.get (quarter_scores m) q with
  | Some s => p (Some (q_home_score s))
  | None => 0
  end.

Definition awayPeriodScore (m : MatchData) (q : string) : float :=
  match JS.get (quarter_scores m) q with
  | Some s => p (Some (q_away_score s))
  | None => 0
  end.

(** The body of the [map] callback of [processMatches]. *)
Definition processMatch `{Host} (m : MatchData) : ProcessedMatch :=
  let homeScore := p (Some (home_score m)) in
  let awayScore := p (Some (away_score m)) in
  let totalScore := homeScore + awayScore in
  let line := total_line (line_odds m) in
  let result := PUSH in
  let result := if line <? totalScore then OVER else result in
  let result := if totalScore <? line then UNDER else result in
  let isOT :=
    match JS.get (quarter_scores m) "OT" with Some _ => true | None => false end in
  let homeRegScore := fold_left (fun acc q => acc + homePeriodScore m q) periods 0 in
  let awayRegScore := fold_left (fun acc q => acc + awayPeriodScore m q) periods 0 in
  let regulationTotal := homeRegScore + awayRegScore in
  let s := gameSums m in
  let pace := (homePoss s + awayPoss s) / 2 in
  let hTS := JS.or_else (homeScore / (2 * (homeFGA s + 0.44 * homeFTA s)) * 100) 0 in
  let aTS := JS.or_else (awayScore / (2 * (awayFGA s + 0.44 * awayFTA s)) * 100) 0 in
  let hFG_Pct := if 0 <? homeFGA s then (homeFGM s / homeFGA s) * 100 else 0 in
  let aFG_Pct := if 0 <? awayFGA s then (awayFGM s / awayFGA s) * 100 else 0 in
  let qTotals :=
    map (fun q =>
           match JS.get (quarter_scores m) q with
           | Some s => p (Some (q_home_score s)) + p (Some (q_away_score s))
           | None => 0
           end) periods in
  let homeQScores := map (homePeriodScore m) periods in
  let awayQScores := map (awayPeriodScore m) periods in
  {| id := match_id m;
     date :=
       Date_time
         (JS.join "-" (rev (JS.split "." (hd "" (JS.split " " (date_text m))))));
     homeTeam := home_team m;
     awayTeam := away_team m;
     homeScore := homeScore;
     awayScore := awayScore;
     totalScore := totalScore;
     regulationTotal := regulationTotal;
     line := line;
     overOdds := JS.or_else (over_odds (line_odds m)) 1.91;
     underOdds := JS.or_else (under_odds (line_odds m)) 1.91;
     result := result;
     diff := totalScore - line;
     pace := pace;
     homeTS := hTS;
     awayTS := aTS;
     homeFG_Pct := hFG_Pct;
     awayFG_Pct := aFG_Pct;
     quarterlyTotals := qTotals;
     homeQScores := homeQScores;
     awayQScores := awayQScores;
     isOT := isOT |}.

(** Newest first: the comparator is [b.date.getTime() - a.date.getTime()]. *)
Definition byDateDesc (a b : ProcessedMatch) : float := date b - date a.

Definition processMatches `{Host} (rawData : list MatchData) : list ProcessedMatch :=
  JS.sort byDateDesc (map processMatch rawData).

(** Automatic matchup analysis: each rule pushes its insight, in order. *)
Definition analyzeMatchup `{Host} (t1 t2 : TeamStats) : list MatchupInsight :=
  let insights : list MatchupInsight := [] in
  let combinedFGA := avgFGA t1 + avgFGA t2 in
  let insights :=
    if 175 <? combinedFGA then
      app insights
      [{| type := PACE;
          title := "Pace Clash: High Volume";
          desc := "Combined Avg FGA is " ++ toFixed combinedFGA 1 ++
                  ". Both teams play fast, increasing potential for Over.";
          color := "bg-yellow-500/20 text-yellow-400 border-yellow-500/30" |}]
    else insights in
  let insights :=
    if (avg3P_Pct t1 <? 33) && (avg3P_Pct t2 <? 33) then
      app insights
      [{| type := BRICK;
          title := "Brick City Warning";
          desc := "Both teams shoot < 33% from deep (" ++ toFixed (avg3P_Pct t1) 1 ++
                  "% & " ++ toFixed (avg3P_Pct t2) 1 ++
                  "%). Risk of scoring droughts.";
          color := "bg-cyan-500/20 text-cyan-400 border-cyan-500/30" |}]
    else insights in
  let combinedFouls := avgFouls t1 + avgFouls t2 in
  let combinedFTM := avgFTM t1 + avgFTM t2 in
  let insights :=
    if (40 <? combinedFouls) && (35 <? combinedFTM) then
      app insights
      [{| type := FOUL;
          title := "Whistle Heavy";
          desc := "High combined fouls (" ++ toFixed combinedFouls 0 ++
                  ") & FTM (" ++ toFixed combinedFTM 0 ++
                  "). Frequent stops & free points favor Over.";
          color := "bg-orange-500/20 text-orange-400 border-orange-500/30" |}]
    else insights in
  let insights :=
    if (115 <? avgPointsFor t1) && (115 <? avgPointsAgainst t2) then
      app insights
      [{| type := MISMATCH;
          title := name t1 ++ " Scoring Potential";
          desc := "Elite Offense vs Poor Defense. " ++ name t1 ++ " scores " ++
                  toFixed (avgPointsFor t1) 1 ++ " while " ++ name t2 ++
                  " allows " ++ toFixed (avgPointsAgainst t2) 1 ++ ".";
          color := "bg-red-500/20 text-red-400 border-red-500/30" |}]
    else insights in
  let insights :=
    if (115 <? avgPointsFor t2) && (115 <? avgPointsAgainst t1) then
      app insights
      [{| type := MISMATCH;
          title := name t2 ++ " Scoring Potential";
          desc := "Elite Offense vs Poor Defense. " ++ name t2 ++ " scores " ++
                  toFixed (avgPointsFor t2) 1 ++ " while " ++ name t1 ++
                  " allows " ++ toFixed (avgPointsAgainst t1) 1 ++ ".";
          color := "bg-red-500/20 text-red-400 border-red-500/30" |}]
    else insights in
  let insights :=
    if (avgPointsAgainst t1 <? 108) && (avgPointsAgainst t2 <? 108) then
      app insights
      [{| type := DEFENSE;
          title := "Defensive Battle";
          desc := "Both teams allow < 108 PPG. Expect tight contesting and lower total.";
          color := "bg-slate-500/20 text-slate-300 border-slate-500/30" |}]
    else insights in
  insights.

(** Statistical helpers. *)
Definition getMean (data : list float) : float :=
  fold_left (fun a b => a + b) data 0 / JS.length_number data.

Definition getSD (data : list float) : float :=
  let m := getMean data in
  sqrt (fold_left (fun sq n => sq + JS.pow2 (n - m)) data 0
        / (JS.length_number data - 1)).

Record MatchInsights : Type := {
  mean15 : float;
  sd15 : float;
  highScoringRate : float;
  q4Trend : string;
  q4TrendValue : float
}.

(** Matches of either team of [match], strictly before its date, newest
    first. *)
Definition relevantHistory (match_ : ProcessedMatch) (allMatches : list ProcessedMatch)
  : list ProcessedMatch :=
  JS.sort byDateDesc
    (filter
       (fun m =>
          (date m <? date match_) &&
          (String.eqb (homeTeam m) (homeTeam match_)
           || String.eqb (awayTeam m) (homeTeam match_)
           || String.eqb (homeTeam m) (awayTeam match_)
           || String.eqb (awayTeam m) (awayTeam match_)))
       allMatches).

(** The [forEach] over [last10]: the pair [(q4DiffAcc, gamesCounted)]. *)
Definition q4Step (acc : float * float) (m : ProcessedMatch) : float * float :=
  let '(q4DiffAcc, gamesCounted) := acc in
  if Nat.eqb (List.length (quarterlyTotals m)) 4 then
    let q123Avg :=
      (JS.index (quarterlyTotals m) 0 + JS.index (quarterlyTotals m) 1
       + JS.index (quarterlyTotals m) 2) / 3 in
    let q4 := JS.index (quarterlyTotals m) 3 in
    (q4DiffAcc + (q4 - q123Avg), gamesCounted + 1)
  else acc.

Definition q4Loop (last10 : list ProcessedMatch) : float * float :=
  fold_left q4Step last10 (0, 0).

Definition generateMatchInsights (match_ : ProcessedMatch)
    (allMatches : list ProcessedMatch) : MatchInsights :=
  let relevantHistory := relevantHistory match_ allMatches in
  let last15 := JS.slice0 15 relevantHistory in
  let totals15 := map totalScore last15 in
  let mean15 := if 0 <? JS.length_number totals15 then getMean totals15 else 0 in
  let sd15 := if 0 <? JS.length_number totals15 then getSD totals15 else 0 in
  let last10 := JS.slice0 10 relevantHistory in
  let highScoringGames :=
    JS.length_number (filter (fun m => 240 <? totalScore m) last10) in
  let highScoringRate :=
    if 0 <? JS.length_number last10
    then (highScoringGames / JS.length_number last10) * 100 else 0 in
  let q4DiffAcc := fst (q4Loop last10) in
  let gamesCounted := snd (q4Loop last10) in
  let q4TrendValue := if 0 <? gamesCounted then q4DiffAcc / gamesCounted else 0 in
  let q4Trend := "Neutral" in
  let q4Trend := if 2 <? q4TrendValue then "High Intensity (+)" else q4Trend in
  let q4Trend := if q4TrendValue <? -2 then "Fade (-)" else q4Trend in
  {| mean15 := mean15; sd15 := sd15; highScoringRate := highScoringRate;
     q4Trend := q4Trend; q4TrendValue := q4TrendValue |}.

End Utils.

(** ** components/BettingSimulator.tsx: the backtest engine *)

Module BettingSimulator.
Import Types.

Inductive Strategy : Type :=
| ALL_OVER | ALL_UNDER | LEAGUE_AVG_REVERSION | TEAM_MODEL | HIGH_EFFICIENCY_OVER.

Inductive BetType : Type := BetOver | BetUnder.

Inductive Outcome : Type := WIN | LOSS | PUSHED.

(** The component state read by the backtest: the active data set and the
    strategy controls. *)
Record State : Type := {
  backtestMatches : list ProcessedMatch;
  wager : float;
  strategy : Strategy;
  valueMargin : float;
  selectedTeam : string;
  startDate : string;
  endDate : string;
  efficiencyThreshold : float
}.

(** The per-team accumulator of [currentTeamStats]. *)
Record TeamAcc : Type := {
  acc_name : string;
  pointsFor : float;
  pointsAgainst : float;
  games : float;
  fgSum : float
}.

(** [if (!stats[t]) stats[t] = {...}]: an inherited member is truthy, so a
    team of such a name gets no entry. *)
Definition ensureTeam (stats : JS.object TeamAcc) (t : string) : JS.object TeamAcc :=
  match JS.get stats t with
  | Some _ => stats
  | None =>
      if JS.inherited t then stats
      else
        JS.set stats t
          {| acc_name := t; pointsFor := 0; pointsAgainst := 0; games := 0; fgSum := 0 |}
  end.

(** The four updates of the entry of team [t]; the entry exists once
    [ensureTeam] has run, unless [stats[t]] is an inherited member: the
    updates then go to that member and leave [stats] as it is. *)
Definition addGame (stats : JS.object TeamAcc) (t : string)
    (scored allowed fg : float) : JS.object TeamAcc :=
  match JS.get stats t with
  | Some a =>
      JS.set stats t
        {| acc_name := acc_name a;
           pointsFor := pointsFor a + scored;
           pointsAgainst := pointsAgainst a + allowed;
           games := games a + 1;
           fgSum := fgSum a + fg |}
  | None => stats
  end.

Definition teamStep (stats : JS.object TeamAcc) (m : ProcessedMatch)
  : JS.object TeamAcc :=
  let stats := fold_left ensureTeam [homeTeam m; awayTeam m] stats in
  let stats := addGame stats (homeTeam m) (homeScore m) (awayScore m) (homeFG_Pct m) in
  addGame stats (awayTeam m) (awayScore m) (homeScore m) (awayFG_Pct m).

Definition currentTeamStats (st : State) : list TeamStats :=
  map
    (fun t =>
       {| name := acc_name t;
          gamesPlayed := None;
          avgPointsFor := pointsFor t / games t;
          avgPointsAgainst := pointsAgainst t / games t;
          avgFG_Pct := fgSum t / games t;
          avgPace := 0; avgTS := 0; overRate := 0; last10Avg := 0; avgFGA := 0;
          avg3P_Pct := 0; avgFouls := 0; avgFTM := 0; avgTurnovers := 0;
          avgFTA := 0; avgRebounds := 0 |})
    (JS.values (fold_left teamStep (backtestMatches st) [])).

(** [currentTeamStats.find(t => t.name === normalizeTeamName(name))]: no
    name is strictly equal to a value that is not a string. *)
Definition getTeamStats (st : State) (n : string) : option TeamStats :=
  match Utils.normalizeTeamName n with
  | Utils.Name s => find (fun t => String.eqb (name t) s) (currentTeamStats st)
  | Utils.Member _ => None
  end.

(** League average of the active data set. *)
Definition leagueTotal (st : State) : float :=
  fold_left (fun sum m => sum + totalScore m) (backtestMatches st) 0.

Definition leagueAvg (st : State) : float :=
  if 0 <? JS.length_number (backtestMatches st)
  then leagueTotal st / JS.length_number (backtestMatches st)
  else 230.

Definition filteredMatches `{Host} (st : State) : list ProcessedMatch :=
  JS.sort Utils.byDateDesc
    (filter
       (fun m =>
          let teamMatch :=
            String.eqb (selectedTeam st) "ALL"
            || String.eqb (homeTeam m) (selectedTeam st)
            || String.eqb (awayTeam m) (selectedTeam st) in
          let dateMatch :=
            (String.eqb (startDate st) "" || (Date_time (startDate st) <=? date m))
            && (String.eqb (endDate st) "" || (date m <=? Date_time (endDate st))) in
          teamMatch && dateMatch)
       (backtestMatches st)).

(** What the strategy branch leaves in [betType], [shouldBet] and
    [signalReason]. *)
Record Signal : Type := {
  betType : option BetType;
  shouldBet : bool;
  signalReason : string
}.

Definition noSignal : Signal :=
  {| betType := None; shouldBet := false; signalReason := "" |}.

Definition signal `{Host} (st : State) (m : ProcessedMatch) : Signal :=
  match strategy st with
  | ALL_OVER =>
      {| betType := Some BetOver; shouldBet := true; signalReason := "Blind Bet" |}
  | ALL_UNDER =>
      {| betType := Some BetUnder; shouldBet := true; signalReason := "Blind Bet" |}
  | HIGH_EFFICIENCY_OVER =>
      match getTeamStats st (homeTeam m), getTeamStats st (awayTeam m) with
      | Some home, Some away =>
          let combinedFG := (avgFG_Pct home + avgFG_Pct away) / 2 in
          if efficiencyThreshold st <? combinedFG then
            {| betType := Some BetOver; shouldBet := true;
               signalReason :=
                 "Combined FG% " ++ toFixed combinedFG 1 ++ "% > " ++
                 numberToString (efficiencyThreshold st) ++ "%" |}
          else noSignal
      | _, _ => noSignal
      end
  | LEAGUE_AVG_REVERSION =>
      if leagueAvg st + valueMargin st <? line m then
        {| betType := Some BetUnder; shouldBet := true;
           signalReason :=
             "Line " ++ numberToString (line m) ++ " > League Avg " ++
             toFixed (leagueAvg st) 1 ++ " + " ++ numberToString (valueMargin st) |}
      else if line m <? leagueAvg st - valueMargin st then
        {| betType := Some BetOver; shouldBet := true;
           signalReason :=
             "Line " ++ numberToString (line m) ++ " < League Avg " ++
             toFixed (leagueAvg st) 1 ++ " - " ++ numberToString (valueMargin st) |}
      else noSignal
  | TEAM_MODEL =>
      match getTeamStats st (homeTeam m), getTeamStats st (awayTeam m) with
      | Some home, Some away =>
          let homeAvgTotal := avgPointsFor home + avgPointsAgainst home in
          let awayAvgTotal := avgPointsFor away + avgPointsAgainst away in
          let projectedTotal := (homeAvgTotal + awayAvgTotal) / 4 * 2 in
          if line m + valueMargin st <? projectedTotal then
            {| betType := Some BetOver; shouldBet := true;
               signalReason :=
                 "Model Proj " ++ toFixed projectedTotal 1 ++ " > Line " ++
                 numberToString (line m) |}
          else if projectedTotal <? line m - valueMargin st then
            {| betType := Some BetUnder; shouldBet := true;
               signalReason :=
                 "Model Proj " ++ toFixed projectedTotal 1 ++ " < Line " ++
                 numberToString (line m) |}
          else noSignal
      | _, _ => noSignal
      end
  end.

Record LogEntry : Type := {
  log_id : string;
  log_date : float;
  log_home : string;
  log_away : string;
  log_score : float;
  log_line : float;
  log_pick : BetType;
  log_result : Outcome;
  log_pnl : float;
  log_reason : string
}.

(** The counters the [forEach] updates. *)
Record Tally : Type := {
  wins : float;
  losses : float;
  pushes : float;
  profit : float;
  betsPlaced : float;
  historyLogs : list LogEntry
}.

Definition emptyTally : Tally :=
  {| wins := 0; losses := 0; pushes := 0; profit := 0; betsPlaced := 0;
     historyLogs := [] |}.

(** [won] and [lost] of a bet of type [b] on match [m]. *)
Definition won (b : BetType) (m : ProcessedMatch) : bool :=
  match b with
  | BetOver => line m <? totalScore m
  | BetUnder => totalScore m <? line m
  end.

Definition lost (b : BetType) (m : ProcessedMatch) : bool :=
  match b with
  | BetOver => if line m <? totalScore m then false else totalScore m <? line m
  | BetUnder => if totalScore m <? line m then false else line m <? totalScore m
  end.

(** The settlement of a placed bet: the body of [if (shouldBet && betType)]. *)
Definition settle (st : State) (t : Tally) (m : ProcessedMatch)
    (b : BetType) (reason : string) : Tally :=
  let betsPlaced' := betsPlaced t + 1 in
  let odds := match b with BetOver => overOdds m | BetUnder => underOdds m end in
  let entry (r : Outcome) (pnl : float) :=
    {| log_id := id m; log_date := date m; log_home := homeTeam m;
       log_away := awayTeam m; log_score := totalScore m; log_line := line m;
       log_pick := b; log_result := r; log_pnl := pnl; log_reason := reason |} in
  if won b m then
    let resultPnl := wager st * (odds - 1) in
    {| wins := wins t + 1; losses := losses t; pushes := pushes t;
       profit := profit t + resultPnl; betsPlaced := betsPlaced';
       historyLogs := app (historyLogs t) [entry WIN resultPnl] |}
  else if lost b m then
    let resultPnl := - wager st in
    {| wins := wins t; losses := losses t + 1; pushes := pushes t;
       profit := profit t - wager st; betsPlaced := betsPlaced';
       historyLogs := app (historyLogs t) [entry LOSS resultPnl] |}
  else
    {| wins := wins t; losses := losses t; pushes := pushes t + 1;
       profit := profit t; betsPlaced := betsPlaced';
       historyLogs := app (historyLogs t) [entry PUSHED 0] |}.

(** One iteration of [filteredMatches.forEach]. *)
Definition evaluate `{Host} (st : State) (t : Tally) (m : ProcessedMatch) : Tally :=
  let s := signal st m in
  match shouldBet s, betType s with
  | true, Some b => settle st t m b (signalReason s)
  | _, _ => t
  end.

Record BacktestResult : Type := {
  r_wins : float;
  r_losses : float;
  r_pushes : float;
  r_profit : float;
  r_roi : float;
  r_totalBets : float;
  r_leagueAvg : float;
  r_historyLogs : list LogEntry
}.

Definition roiOf (st : State) (t : Tally) : float :=
  if 0 <? betsPlaced t then (profit t / (betsPlaced t * wager st)) * 100 else 0.

Definition calculateBacktestROI `{Host} (st : State) : BacktestResult :=
  let t := fold_left (evaluate st) (filteredMatches st) emptyTally in
  {| r_wins := wins t; r_losses := losses t; r_pushes := pushes t;
     r_profit := profit t; r_roi := roiOf st t; r_totalBets := betsPlaced t;
     r_leagueAvg := leagueAvg st; r_historyLogs := historyLogs t |}.

End BettingSimulator.

(** ** Sample data used by the examples *)

Module Samples.
Import Types.

Local Open Scope Z_scope.

(** Days from 1970-01-01 to the civil date [y]-[m]-[d]. *)
Definition daysFromCivil (y m d : Z) : Z :=
  let y := if m <=? 2 then y - 1 else y in
  let era := y / 400 in
  let yoe := y - era * 400 in
  let doy := (153 * (if 2 <? m then m - 3 else m + 9) + 2) / 5 + d - 1 in
  let doe := yoe * 365 + yoe / 4 - yoe / 100 + doy in
  era * 146097 + doe - 719468.

(** The time value of a date-only ISO string [YYYY-MM-DD] (UTC midnight);
    every other string is an invalid date here. *)
Definition isoDateTime (s : string) : float :=
  match map (fun f => JS.leading_digits f None) (JS.split "-" s) with
  | [Some y; Some m; Some d] =>
      if (1 <=? m) && (m <=? 12) && (1 <=? d) && (d <=? 31)
      then JS.of_Z (daysFromCivil y m d * 86400000)
      else nan
  | _ => nan
  end.

Local Close Scope Z_scope.

(** A host that parses ISO dates and prints every number as [#]. *)
Definition host : Host :=
  {| Date_time := isoDateTime;
     toFixed := fun _ _ => "#";
     numberToString := fun _ => "#" |}.

Definition stats (fga fgm fta : string) : QuarterStats :=
  {| field_goals_attempted := Some fga; field_goals_made := Some fgm;
     free_throws_attempted := Some fta; offensive_rebounds := Some "3";
     turnovers := None |}.

(** A complete record: four periods and an overtime. *)
Definition game1 : MatchData :=
  {| match_id := "g1"; date_text := "10.01.2025 19:30";
     home_team := "Boston Celtics"; away_team := "LA Clippers";
     home_score := "121"; away_score := "117";
     quarter_scores :=
       [("Q1", {| q_home_score := "30"; q_away_score := "28" |});
        ("Q2", {| q_home_score := "25"; q_away_score := "27" |});
        ("Q3", {| q_home_score := "28"; q_away_score := "26" |});
        ("Q4", {| q_home_score := "27"; q_away_score := "29" |});
        ("OT", {| q_home_score := "11"; q_away_score := "7" |})];
     quarter_stats :=
       [("Q1", [("Boston Celtics", stats "22" "11" "6");
                ("LA Clippers", stats "21" "10" "5")]);
        ("Q2", [("Boston Celtics", stats "20" "9" "4");
                ("LA Clippers", stats "23" "11" "2")])];
     line_odds := {| total_line := 225.5; over_odds := 1.91; under_odds := 1.95 |} |}.

(** A record whose home score is a dash and which has no period data. *)
Definition game2 : MatchData :=
  {| match_id := "g2"; date_text := "09.01.2025 20:00";
     home_team := "Miami Heat"; away_team := "Chicago Bulls";
     home_score := "-"; away_score := "104";
     quarter_scores := []; quarter_stats := [];
     line_odds := {| total_line := 215.5; over_odds := 0; under_odds := 1.91 |} |}.

(** A finished game whose box score was not recorded. *)
Definition game3 : MatchData :=
  {| match_id := "g3"; date_text := "08.01.2025 20:00";
     home_team := "Miami Heat"; away_team := "Denver Nuggets";
     home_score := "110"; away_score := "0";
     quarter_scores :=
       [("Q1", {| q_home_score := "30"; q_away_score := "0" |})];
     quarter_stats := [];
     line_odds := {| total_line := 110; over_odds := 1.91; under_odds := 1.91 |} |}.

(** A second game of the home team of [game1] on the same day. *)
Definition game4 : MatchData :=
  {| match_id := "g4"; date_text := "10.01.2025 13:00";
     home_team := "New York Knicks"; away_team := "Boston Celtics";
     home_score := "99"; away_score := "105";
     quarter_scores := []; quarter_stats := [];
     line_odds := {| total_line := 212.5; over_odds := 1.91; under_odds := 1.91 |} |}.

(** An earlier game of the home team of [game1]. *)
Definition game5 : MatchData :=
  {| match_id := "g5"; date_text := "05.01.2025 19:00";
     home_team := "Boston Celtics"; away_team := "New York Knicks";
     home_score := "108"; away_score := "101";
     quarter_scores :=
       [("Q1", {| q_home_score := "27"; q_away_score := "25" |});
        ("Q2", {| q_home_score := "27"; q_away_score := "26" |});
        ("Q3", {| q_home_score := "26"; q_away_score := "24" |});
        ("Q4", {| q_home_score := "28"; q_away_score := "26" |})];
     quarter_stats :=
       [("Q1", [("Boston Celtics", stats "22" "11" "6");
                ("New York Knicks", stats "20" "9" "4")])];
     line_odds := {| total_line := 214.5; over_odds := 1.91; under_odds := 1.91 |} |}.

(** The processed season and the match the insights are asked for. *)
Definition season : list ProcessedMatch :=
  @Utils.processMatches host [game3; game5; game1; game4].

Definition target : ProcessedMatch := @Utils.processMatch host game1.

(** Season averages: attempts, three-point percentage, fouls, free throws
    made, points for and points against. *)
Definition team (n : string) (fga p3 fouls ftm pf pa : float) : TeamStats :=
  {| name := n; gamesPlayed := Some 10; avgPointsFor := pf; avgPointsAgainst := pa;
     avgPace := 100; avgTS := 57; overRate := 50; last10Avg := 0; avgFGA := fga;
     avgFG_Pct := 47; avg3P_Pct := p3; avgFouls := fouls; avgFTM := ftm;
     avgTurnovers := 13; avgFTA := 22; avgRebounds := 44 |}.

Definition runAndGun : TeamStats := team "Indiana Pacers" 92 31.5 22 19 121.5 119.

Definition balanced : TeamStats := team "Orlando Magic" 84 35.5 18 16 109 110.

(** A game known by its final score and line only. *)
Definition fixture (i d home away hs aw : string) (l : float) : MatchData :=
  {| match_id := i; date_text := d; home_team := home; away_team := away;
     home_score := hs; away_score := aw; quarter_scores := []; quarter_stats := [];
     line_odds := {| total_line := l; over_odds := 1.91; under_odds := 1.91 |} |}.

Definition simulator (ms : list ProcessedMatch) (s : BettingSimulator.Strategy)
    (teamFilter : string) (threshold : float) : BettingSimulator.State :=
  {| BettingSimulator.backtestMatches := ms;
     BettingSimulator.wager := 100;
     BettingSimulator.strategy := s;
     BettingSimulator.valueMargin := 5;
     BettingSimulator.selectedTeam := teamFilter;
     BettingSimulator.startDate := "";
     BettingSimulator.endDate := "";
     BettingSimulator.efficiencyThreshold := threshold |}.

(** Two blind Over bets at odds 1.91 with a wager of 100: [game1] goes over
    its line, [game5] stays under. *)
Definition blindOver : BettingSimulator.State :=
  simulator (@Utils.processMatches host [game1; game5])
    BettingSimulator.ALL_OVER "ALL" 46.5.

(** Two games of totals 200 and 260, so a league average of 230, seen
    through the team filter of the first one. *)
Definition jazzGame : MatchData :=
  fixture "g6" "03.01.2025 19:00" "Utah Jazz" "Detroit Pistons" "100" "100" 220.

Definition hawksGame : MatchData :=
  fixture "g7" "04.01.2025 19:00" "Atlanta Hawks" "Sacramento Kings" "130" "130" 236.

Definition reversion (teamFilter : string) : BettingSimulator.State :=
  simulator (@Utils.processMatches host [jazzGame; hawksGame])
    BettingSimulator.LEAGUE_AVG_REVERSION teamFilter 46.5.

(** The efficiency strategy on [game5]: the teams shoot 50% and 45%. *)
Definition efficiency (threshold : float) : BettingSimulator.State :=
  simulator (@Utils.processMatches host [game5])
    BettingSimulator.HIGH_EFFICIENCY_OVER "ALL" threshold.

End Samples.

(** ** Vocabulary of the statements *)

Module Vocabulary.
Import Types.

(** The record [r] with the period [q] set to the score [s]. *)
Definition withPeriod (r : MatchData) (q : string) (s : QuarterScore) : MatchData :=
  {| match_id := match_id r; date_text := date_text r;
     home_team := home_team r; away_team := away_team r;
     home_score := home_score r; away_score := away_score r;
     quarter_scores := JS.set (quarter_scores r) q s;
     quarter_stats := quarter_stats r;
     line_odds := line_odds r |}.

(** Strings made of characters that satisfy [f]. *)
Fixpoint all_chars (f : ascii -> bool) (s : string) : bool :=
  match s with
  | String c s' => f c && all_chars f s'
  | EmptyString => true
  end.









(** The denominator of the true-shooting formula for one box-score line. *)
Definition tsDenominator (stats : QuarterStats) : float :=
  2 * (Utils.p (field_goals_attempted stats)
       + (0.44 * Utils.p (free_throws_attempted stats))).

(** [q4Step] without its test on the number of recorded periods. *)
Definition q4StepUnguarded (acc : float * float) (m : ProcessedMatch) : float * float :=
  let '(q4DiffAcc, gamesCounted) := acc in
  let q123Avg :=
    (JS.index (quarterlyTotals m) 0 + JS.index (quarterlyTotals m) 1
     + JS.index (quarterlyTotals m) 2) / 3 in
  let q4 := JS.index (quarterlyTotals m) 3 in
  (q4DiffAcc + (q4 - q123Avg), gamesCounted + 1).

(** The triggers of the matchup rules, as the rule table gives them. *)
Definition paceClash (t1 t2 : TeamStats) : bool := 175 <? avgFGA t1 + avgFGA t2.

Definition shootingDrought (t1 t2 : TeamStats) : bool :=
  (avg3P_Pct t1 <? 33) && (avg3P_Pct t2 <? 33).

Definition foulHeavy (t1 t2 : TeamStats) : bool :=
  (40 <? avgFouls t1 + avgFouls t2) && (35 <? avgFTM t1 + avgFTM t2).

Definition mismatch (a b : TeamStats) : bool :=
  (115 <? avgPointsFor a) && (115 <? avgPointsAgainst b).

Definition defensiveGrind (t1 t2 : TeamStats) : bool :=
  (avgPointsAgainst t1 <? 108) && (avgPointsAgainst t2 <? 108).

(** The signal of a rule: its tag when the trigger holds, nothing otherwise. *)
Definition fired (t : InsightType) (trigger : bool) : list InsightType :=
  if trigger then [t] else [].

(** [m] involves one of the two teams of [target], at home or away. *)
Definition involvesTeamOf (target m : ProcessedMatch) : Prop :=
  homeTeam m = homeTeam target \/ awayTeam m = homeTeam target
  \/ homeTeam m = awayTeam target \/ awayTeam m = awayTeam target.

(** The recorded price of the side a bet picks. *)
Definition pickedOdds (b : BettingSimulator.BetType) (m : ProcessedMatch) : float :=
  match b with
  | BettingSimulator.BetOver => overOdds m
  | BettingSimulator.BetUnder => underOdds m
  end.

(** The average total of a collection of matches, 230 when it is empty. *)
Definition averageTotal (ms : list ProcessedMatch) : float :=
  if 0 <? JS.length_number ms
  then fold_left (fun sum m => sum + totalScore m) ms 0 / JS.length_number ms
  else 230.

(** The reversion rule for a given average: Under above [avg + margin], Over
    below [avg - margin], no bet in between. *)
Definition reversionPick (avg margin l : float) : option BettingSimulator.BetType :=
  if avg + margin <? l then Some BettingSimulator.BetUnder
  else if l <? avg - margin then Some BettingSimulator.BetOver
  else None.

End Vocabulary.

From Stdlib Require Import Sorted.

(** ** utils: team logos, the team aggregator and the market ranking *)

(** The raw record as the aggregator reads it: a box-score line is the parsed
    JSON object itself, so that every field of a line can be looked up. *)
Module RawJSON.

Definition BoxScore : Type := JS.object string.

Record MatchData : Type := {
  home_team : string;
  away_team : string;
  home_score : string;
  away_score : string;
  quarter_stats : JS.object (JS.object BoxScore);
  total_line : float
}.

(** The fields of a line that [calculatePossessions] and the match processor
    read. *)
Definition asQuarterStats (s : BoxScore) : Types.QuarterStats :=
  {| Types.field_goals_attempted := JS.get s "field_goals_attempted";
     Types.field_goals_made := JS.get s "field_goals_made";
     Types.free_throws_attempted := JS.get s "free_throws_attempted";
     Types.offensive_rebounds := JS.get s "offensive_rebounds";
     Types.turnovers := JS.get s "turnovers" |}.

End RawJSON.

Module Aggregator.
Import Types.

Fixpoint mapChars (f : ascii -> ascii) (s : string) : string :=
  match s with
  | String c s' => String (f c) (mapChars f s')
  | EmptyString => EmptyString
  end.

(** [String.prototype.toLowerCase] follows the case tables of the Unicode
    standard, which belong to the engine: [lowerCase] stands for them.  On a
    string of ASCII characters the tables lower the letters A to Z and
    change nothing else. *)
Class CaseTables : Type := {
  lowerCase : string -> string
}.

Definition is_ascii (c : ascii) : bool := (N_of_ascii c <? 128)%N.

Definition lowerLetter (c : ascii) : ascii :=
  let n := N_of_ascii c in
  if ((65 <=? n) && (n <=? 90))%N then ascii_of_N (n + 32) else c.

(** [s.toLowerCase()]. *)
Definition toLowerCase `{CaseTables} (s : string) : string :=
  if Vocabulary.all_chars is_ascii s then mapChars lowerLetter s else lowerCase s.

(** [s.replace(/ /g, '-')]: every U+0020, which is the byte 32 and occurs
    in no other character. *)
Definition replaceSpaces (s : string) : string :=
  mapChars (fun c => if Ascii.eqb c " " then "-"%char else c) s.

(** [None] stands for the [TypeError] that ends the call when the
    normalised name is no string: a member of [Object.prototype] has no
    method [toLowerCase]. *)
Definition getTeamLogo `{CaseTables} (teamName : string) : option string :=
  match Utils.normalizeTeamName teamName with
  | Utils.Name normalized =>
      let slug := replaceSpaces (toLowerCase normalized) in
      Some ("https://loodibee.com/wp-content/uploads/nba-" ++ slug ++ "-logo.png")
  | Utils.Member _ => None
  end.

(** The per-match totals of one team in [aggregateTeamStats]. *)
Record Totals : Type := {
  FGA : float; FGM : float; P3M : float; P3A : float; Fouls : float;
  FTM : float; TOV : float; FTA : float; REB : float;
  Poss : float; FGA_TS : float; FTA_TS : float
}.

Definition noTotals : Totals :=
  {| FGA := 0; FGM := 0; P3M := 0; P3A := 0; Fouls := 0; FTM := 0; TOV := 0;
     FTA := 0; REB := 0; Poss := 0; FGA_TS := 0; FTA_TS := 0 |}.

(** The body of [if (q[team]) { ... }] for one period. *)
Definition addLine (t : Totals) (s : RawJSON.BoxScore) : Totals :=
  {| FGA := FGA t + Utils.p (JS.get s "field_goals_attempted");
     FGM := FGM t + Utils.p (JS.get s "field_goals_made");
     P3M := P3M t + Utils.p (JS.get s "3_point_field_goals_made");
     P3A := P3A t + Utils.p (JS.get s "3_point_field_g_attempted");
     Fouls := Fouls t + Utils.p (JS.get s "personal_fouls");
     FTM := FTM t + Utils.p (JS.get s "free_throws_made");
     TOV := TOV t + Utils.p (JS.get s "turnovers");
     FTA := FTA t + Utils.p (JS.get s "free_throws_attempted");
     REB := REB t + Utils.p (JS.get s "total_rebounds");
     Poss := Poss t + Utils.calculatePossessions (Some (RawJSON.asQuarterStats s));
     FGA_TS := FGA_TS t + Utils.p (JS.get s "field_goals_attempted");
     FTA_TS := FTA_TS t + Utils.p (JS.get s "free_throws_attempted") |}.

Definition addPeriod (m : RawJSON.MatchData) (acc : Totals * Totals)
    (q : JS.object RawJSON.BoxScore) : Totals * Totals :=
  (match JS.read [] q (RawJSON.home_team m) with
   | Some s => addLine (fst acc) s
   | None => fst acc
   end,
   match JS.read [] q (RawJSON.away_team m) with
   | Some s => addLine (snd acc) s
   | None => snd acc
   end).

Definition matchTotals (m : RawJSON.MatchData) : Totals * Totals :=
  fold_left (addPeriod m) (JS.values (RawJSON.quarter_stats m)) (noTotals, noTotals).

Definition newTeam (teamName : string) : TeamStats :=
  {| name := teamName; gamesPlayed := Some 0; avgPointsFor := 0;
     avgPointsAgainst := 0; avgPace := 0; avgTS := 0; overRate := 0; last10Avg := 0;
     avgFGA := 0; avgFG_Pct := 0; avg3P_Pct := 0; avgFouls := 0; avgFTM := 0;
     avgTurnovers := 0; avgFTA := 0; avgRebounds := 0 |}.

(** [gamesPlayed] read as a number: a missing field is [undefined], hence
    [NaN] in arithmetic. *)
Definition played (t : TeamStats) : float :=
  match gamesPlayed t with Some g => g | None => nan end.

(** The updates of one team's entry for one match. *)
Definition addMatch (t : TeamStats) (scored allowed pace : float) (tot : Totals)
    (isOver : bool) : TeamStats :=
  {| name := name t;
     gamesPlayed := Some (played t + 1);
     avgPointsFor := avgPointsFor t + scored;
     avgPointsAgainst := avgPointsAgainst t + allowed;
     avgPace := avgPace t + pace;
     avgTS := avgTS t
              + JS.or_else (scored / (2 * (FGA_TS tot + 0.44 * FTA_TS tot)) * 100) 0;
     overRate := if isOver then overRate t + 1 else overRate t;
     last10Avg := last10Avg t;
     avgFGA := avgFGA t + FGA tot;
     avgFG_Pct := avgFG_Pct t + (if 0 <? FGA tot then (FGM tot / FGA tot) * 100 else 0);
     avg3P_Pct := avg3P_Pct t + (if 0 <? P3A tot then (P3M tot / P3A tot) * 100 else 0);
     avgFouls := avgFouls t + Fouls tot;
     avgFTM := avgFTM t + FTM tot;
     avgTurnovers := avgTurnovers t + TOV tot;
     avgFTA := avgFTA t + FTA tot;
     avgRebounds := avgRebounds t + REB tot |}.

(** [if (!teams[teamName]) teams[teamName] = {...}]: an inherited member is
    truthy, so a team of such a name gets no entry. *)
Definition ensure (teams : JS.object TeamStats) (teamName : string)
  : JS.object TeamStats :=
  match JS.get teams teamName with
  | Some _ => teams
  | None => if JS.inherited teamName then teams else JS.set teams teamName (newTeam teamName)
  end.

(** [const h = teams[k]; h.x += ...]: the entry of [k] is changed in place.
    Without an entry [h] is an inherited member: the updates go to it and
    leave [teams] as it is. *)
Definition modify (teams : JS.object TeamStats) (k : string)
    (f : TeamStats -> TeamStats) : JS.object TeamStats :=
  match JS.get teams k with
  | Some t => JS.set teams k (f t)
  | None => teams
  end.

(** One iteration of [rawData.forEach]. *)
Definition addRecord (teams : JS.object TeamStats) (m : RawJSON.MatchData)
  : JS.object TeamStats :=
  let teams := fold_left ensure [RawJSON.home_team m; RawJSON.away_team m] teams in
  let tot := matchTotals m in
  let pace := (Poss (fst tot) + Poss (snd tot)) / 2 in
  let hScore := Utils.p (Some (RawJSON.home_score m)) in
  let aScore := Utils.p (Some (RawJSON.away_score m)) in
  let total := hScore + aScore in
  let isOver := RawJSON.total_line m <? total in
  let teams :=
    modify teams (RawJSON.home_team m)
      (fun h => addMatch h hScore aScore pace (fst tot) isOver) in
  modify teams (RawJSON.away_team m)
    (fun a => addMatch a aScore hScore pace (snd tot) isOver).

(** The closing [map]: every sum becomes an average over [gamesPlayed]. *)
Definition average (t : TeamStats) : TeamStats :=
  {| name := name t;
     gamesPlayed := gamesPlayed t;
     avgPointsFor := avgPointsFor t / played t;
     avgPointsAgainst := avgPointsAgainst t / played t;
     avgPace := avgPace t / played t;
     avgTS := avgTS t / played t;
     overRate := (overRate t / played t) * 100;
     last10Avg := last10Avg t;
     avgFGA := avgFGA t / played t;
     avgFG_Pct := avgFG_Pct t / played t;
     avg3P_Pct := avg3P_Pct t / played t;
     avgFouls := avgFouls t / played t;
     avgFTM := avgFTM t / played t;
     avgTurnovers := avgTurnovers t / played t;
     avgFTA := avgFTA t / played t;
     avgRebounds := avgRebounds t / played t |}.

(** [rawData] is optional and defaults to the empty array. *)
Definition aggregateTeamStats (matches : list ProcessedMatch)
    (rawData : option (list RawJSON.MatchData)) : list TeamStats :=
  let rawData := match rawData with Some l => l | None => [] end in
  if Nat.eqb (List.length rawData) 0 then []
  else map average (JS.values (fold_left addRecord rawData [])).

(** Market insights. *)
Record TeamMarket : Type := {
  totalDiff : float;
  games : float;
  overs : float
}.

Record MarketRow : Type := {
  row_name : string;
  avgDiff : float;
  overPct : float
}.

(** The body of the inner [forEach] for one team of a match.  An inherited
    member is truthy: a team of such a name gets no entry, and its updates go
    to the member. *)
Definition addTeam (m : ProcessedMatch) (stats : JS.object TeamMarket) (team : string)
  : JS.object TeamMarket :=
  let stats :=
    match JS.get stats team with
    | Some _ => stats
    | None =>
        if JS.inherited team then stats
        else JS.set stats team {| totalDiff := 0; games := 0; overs := 0 |}
    end in
  match JS.get stats team with
  | Some d =>
      JS.set stats team
        {| totalDiff := totalDiff d + abs (diff m);
           games := games d + 1;
           overs := match result m with OVER => overs d + 1 | _ => overs d end |}
  | None => stats
  end.

Definition marketStats (matches : list ProcessedMatch) : JS.object TeamMarket :=
  fold_left (fun stats m => fold_left (addTeam m) [homeTeam m; awayTeam m] stats)
    matches [].

Definition marketRows (matches : list ProcessedMatch) : list MarketRow :=
  map (fun e =>
         {| row_name := fst e;
            avgDiff := totalDiff (snd e) / games (snd e);
            overPct := (overs (snd e) / games (snd e)) * 100 |})
    (JS.entries (marketStats matches)).

Record MarketInsights : Type := {
  nightmares : option MarketRow;
  sharps : option MarketRow;
  overKings : option MarketRow;
  underKings : option MarketRow
}.

(** [[...results].sort(cmp)[0]] is [undefined] on an empty array. *)
Definition calculateMarketInsights (matches : list ProcessedMatch) : MarketInsights :=
  let results := marketRows matches in
  {| nightmares := hd_error (JS.sort (fun a b => avgDiff b - avgDiff a) results);
     sharps := hd_error (JS.sort (fun a b => avgDiff a - avgDiff b) results);
     overKings := hd_error (JS.sort (fun a b => overPct b - overPct a) results);
     underKings := hd_error (JS.sort (fun a b => overPct a - overPct b) results) |}.

End Aggregator.

(** ** types.ts: the live odds interfaces *)

Module Live.

Record Outcome : Type := {
  name : string;
  price : float;
  point : option float
}.

Record Market : Type := {
  key : string;
  last_update : string;
  outcomes : list Outcome
}.

Record Bookmaker : Type := {
  bk_key : string;
  title : string;
  bk_last_update : string;
  markets : list Market
}.

Record LiveGame : Type := {
  id : string;
  sport_key : string;
  sport_title : string;
  commence_time : string;
  home_team : string;
  away_team : string;
  bookmakers : list Bookmaker
}.

Inductive Direction : Type := UP | DOWN.

Record LineMovement : Type := {
  gameId : string;
  oldLine : float;
  newLine : float;
  timestamp : float;
  direction : Direction
}.

End Live.

(** ** components/BettingSimulator.tsx: the live value bets *)

Module LiveSignals.

Inductive LiveFilter : Type := ALL | MODEL | REVERSION | HIGH_EFFICIENCY.

(** What [getLiveValueBets] reads: the live games, the teams and matches of
    the default season, and three controls. *)
Record Panel : Type := {
  liveGames : list Live.LiveGame;
  defaultTeams : list Types.TeamStats;
  defaultMatches : list Types.ProcessedMatch;
  valueMargin : float;
  efficiencyThreshold : float;
  liveFilter : LiveFilter
}.

Record ValueBet : Type := {
  id : string;
  home : string;
  away : string;
  line : float;
  projected : float;
  modelPick : option BettingSimulator.BetType;
  modelEdge : float;
  reversionPick : option BettingSimulator.BetType;
  efficiencyPick : option BettingSimulator.BetType;
  combinedFG : float;
  overPrice : float;
  underPrice : float
}.

(** [game.bookmakers[0]?.markets.find(m => m.key === 'totals')]. *)
Definition totalsMarket (game : Live.LiveGame) : option Live.Market :=
  match Live.bookmakers game with
  | b :: _ => find (fun m => String.eqb (Live.key m) "totals") (Live.markets b)
  | [] => None
  end.

(** [defaultTeams.find(t => t.name === normalizeTeamName(n))]. *)
Definition teamStats (s : Panel) (n : string) : option Types.TeamStats :=
  match Utils.normalizeTeamName n with
  | Utils.Name name => find (fun t => String.eqb (Types.name t) name) (defaultTeams s)
  | Utils.Member _ => None
  end.

Definition projectedTotal (h a : Types.TeamStats) : float :=
  let hAvgTotal := Types.avgPointsFor h + Types.avgPointsAgainst h in
  let aAvgTotal := Types.avgPointsFor a + Types.avgPointsAgainst a in
  (hAvgTotal + aAvgTotal) / 4 * 2.

(** The two [if]s on [modelEdge]: the second one has the last word. *)
Definition pickOfEdge (margin modelEdge : float) : option BettingSimulator.BetType :=
  let modelPick := None in
  let modelPick := if margin <? modelEdge then Some BettingSimulator.BetOver else modelPick in
  if modelEdge <? - margin then Some BettingSimulator.BetUnder else modelPick.

Definition currentLeagueAvg (s : Panel) : float :=
  let currentLeagueTotal :=
    fold_left (fun sum m => sum + Types.totalScore m) (defaultMatches s) 0 in
  if 0 <? JS.length_number (defaultMatches s)
  then currentLeagueTotal / JS.length_number (defaultMatches s)
  else 230.

(** The reversion pick for a line, with [REVERSION_THRESHOLD = 5]. *)
Definition reversionOf (s : Panel) (l : float) : option BettingSimulator.BetType :=
  let deviation := l - currentLeagueAvg s in
  let reversionPick := None in
  let reversionPick := if 5 <? deviation then Some BettingSimulator.BetUnder else reversionPick in
  if deviation <? - 5 then Some BettingSimulator.BetOver else reversionPick.

(** The callback of [liveGames.map]: [None] stands for [null]. *)
Definition valueBet (s : Panel) (game : Live.LiveGame) : option ValueBet :=
  match totalsMarket game with
  | None => None
  | Some totals =>
      let over := find (fun o => String.eqb (Live.name o) "Over") (Live.outcomes totals) in
      let under := find (fun o => String.eqb (Live.name o) "Under") (Live.outcomes totals) in
      match over, under with
      | Some over, Some under =>
          match Live.point over with
          | Some l =>
              if JS.truthy l then
                let hStats := teamStats s (Live.home_team game) in
                let aStats := teamStats s (Live.away_team game) in
                let projected :=
                  match hStats, aStats with
                  | Some h, Some a => projectedTotal h a
                  | _, _ => 0
                  end in
                let modelEdge :=
                  match hStats, aStats with
                  | Some h, Some a => projected - l
                  | _, _ => 0
                  end in
                let modelPick :=
                  match hStats, aStats with
                  | Some h, Some a => pickOfEdge (valueMargin s) modelEdge
                  | _, _ => None
                  end in
                let reversionPick := reversionOf s l in
                let combinedFG :=
                  match hStats, aStats with
                  | Some h, Some a => (Types.avgFG_Pct h + Types.avgFG_Pct a) / 2
                  | _, _ => 0
                  end in
                let efficiencyPick :=
                  match hStats, aStats with
                  | Some h, Some a =>
                      if efficiencyThreshold s <? combinedFG
                      then Some BettingSimulator.BetOver else None
                  | _, _ => None
                  end in
                match modelPick, reversionPick, efficiencyPick with
                | None, None, None => None
                | _, _, _ =>
                    Some {| id := Live.id game;
                            home := Live.home_team game;
                            away := Live.away_team game;
                            line := l;
                            projected := projected;
                            modelPick := modelPick;
                            modelEdge := abs modelEdge;
                            reversionPick := reversionPick;
                            efficiencyPick := efficiencyPick;
                            combinedFG := combinedFG;
                            overPrice := Live.price over;
                            underPrice := Live.price under |}
                end
              else None
          | None => None
          end
      | _, _ => None
      end
  end.

Definition isPicked {A : Type} (o : option A) : bool :=
  match o with Some _ => true | None => false end.

(** The callback of the last [filter]. *)
Definition shown (f : LiveFilter) (bet : ValueBet) : bool :=
  match f with
  | ALL => true
  | MODEL => isPicked (modelPick bet)
  | REVERSION => isPicked (reversionPick bet)
  | HIGH_EFFICIENCY => isPicked (efficiencyPick bet)
  end.

(** [.filter(Boolean)] drops the [null]s. *)
Fixpoint dropNulls {A : Type} (l : list (option A)) : list A :=
  match l with
  | [] => []
  | Some x :: l' => x :: dropNulls l'
  | None :: l' => dropNulls l'
  end.

Definition getLiveValueBets (s : Panel) : list ValueBet :=
  filter (shown (liveFilter s)) (dropNulls (map (valueBet s) (liveGames s))).

End LiveSignals.

(** ** DataContext.tsx: line movements between two snapshots of the odds *)

Module LineMovements.

(** [market?.outcomes?.[0]?.point || null]. *)
Definition getLineFromGame (game : Live.LiveGame) : option float :=
  match LiveSignals.totalsMarket game with
  | Some market =>
      match Live.outcomes market with
      | o :: _ =>
          match Live.point o with
          | Some x => if JS.truthy x then Some x else None
          | None => None
          end
      | [] => None
      end
  | None => None
  end.

(** [oldGamesMap.get(id)]: the map is built from the old games in order, so
    the last game with an id is the one it holds. *)
Definition oldGameOf (oldGames : list Live.LiveGame) (i : string) : option Live.LiveGame :=
  find (fun g => String.eqb (Live.id g) i) (rev oldGames).

(** One iteration of [newGames.forEach] in [fetchLiveOdds]. *)
Definition trackGame (oldGames : list Live.LiveGame) (now : float)
    (newMovements : JS.object Live.LineMovement) (newGame : Live.LiveGame)
  : JS.object Live.LineMovement :=
  match oldGameOf oldGames (Live.id newGame) with
  | Some oldGame =>
      match getLineFromGame newGame, getLineFromGame oldGame with
      | Some newLine, Some oldLine =>
          if newLine =? oldLine then newMovements
          else
            JS.set newMovements (Live.id newGame)
              {| Live.gameId := Live.id newGame;
                 Live.oldLine := oldLine;
                 Live.newLine := newLine;
                 Live.timestamp := now;
                 Live.direction := if oldLine <? newLine then Live.UP else Live.DOWN |}
      | _, _ => newMovements
      end
  | None => newMovements
  end.

(** The movements after a fetch at time [now]. *)
Definition trackMovements (oldGames newGames : list Live.LiveGame) (now : float)
    (lineMovements : JS.object Live.LineMovement) : JS.object Live.LineMovement :=
  fold_left (trackGame oldGames now) newGames lineMovements.

End LineMovements.

(** ** TeamDashboard: quarter averages and recent form *)

Module Dashboard.
Import Types.

(** [sums[i] += s] on an array that holds the index [i]. *)
Fixpoint addAt (i : nat) (s : float) (sums : list float) : list float :=
  match sums, i with
  | [], _ => []
  | x :: sums', O => (x + s) :: sums'
  | x :: sums', S i' => x :: addAt i' s sums'
  end.

(** [scores.forEach((s, i) => { if (i < 4) sums[i] += s; })], from index [i]. *)
Fixpoint addScores (i : nat) (scores sums : list float) : list float :=
  match scores with
  | [] => sums
  | s :: scores' =>
      addScores (S i) scores' (if Nat.ltb i 4 then addAt i s sums else sums)
  end.

Definition playsIn (teamName : string) (m : ProcessedMatch) : bool :=
  String.eqb (homeTeam m) teamName || String.eqb (awayTeam m) teamName.

Definition calculateQuarterAvgs (matches : list ProcessedMatch) (teamName : string)
  : list float :=
  let teamMatches := filter (playsIn teamName) matches in
  let sums := [0; 0; 0; 0] in
  if Nat.eqb (List.length teamMatches) 0 then sums
  else
    let sums :=
      fold_left
        (fun sums m =>
           let isHome := String.eqb (homeTeam m) teamName in
           let scores := if isHome then homeQScores m else awayQScores m in
           addScores 0 scores sums)
        teamMatches sums in
    map (fun s => s / JS.length_number teamMatches) sums.

Inductive Form : Type := W | L.

Record RecentGame : Type := {
  g_id : string;
  g_date : float;
  opponent : string;
  g_result : Form;
  score : string;
  totalResult : Result;
  g_line : float
}.

Definition getLast5Games `{Host} (matches : list ProcessedMatch) (teamName : string)
  : list RecentGame :=
  map
    (fun m =>
       let isHome := String.eqb (homeTeam m) teamName in
       let teamScore := if isHome then homeScore m else awayScore m in
       let oppScore := if isHome then awayScore m else homeScore m in
       let opponent := if isHome then awayTeam m else homeTeam m in
       let win := oppScore <? teamScore in
       {| g_id := id m;
          g_date := date m;
          opponent := opponent;
          g_result := if win then W else L;
          score := numberToString teamScore ++ "-" ++ numberToString oppScore;
          totalResult := result m;
          g_line := line m |})
    (JS.slice0 5 (JS.sort Utils.byDateDesc (filter (playsIn teamName) matches))).

End Dashboard.

(** ** Vocabulary of the further statements *)

Module Terms.

(** The own keys of an object, in the order of their creation. *)
Definition keys {V : Type} (o : JS.object V) : list string := map fst o.

(** The names of [l] that are no members of [Object.prototype]. *)
Definition ordinary (l : list string) : list string :=
  filter (fun k => negb (JS.inherited k)) l.

(** The order in which an object enumerates the keys [l]. *)
Definition enumerated (l : list string) : list string := JS.enumeration (fun k => k) l.

Definition mem (k : string) (l : list string) : bool := existsb (String.eqb k) l.

(** The distinct names of [l] in order of first occurrence, after [acc]. *)
Definition firstSeen (acc l : list string) : list string :=
  fold_left (fun acc k => if mem k acc then acc else acc ++ [k])%list l acc.

(** How often [k] occurs in [l]. *)
Definition occurrences (k : string) (l : list string) : nat :=
  List.length (filter (String.eqb k) l).

(** [0] after [n] increments by [++]. *)
Definition counted (n : nat) : float := Nat.iter n (fun c => c + 1) 0.

(** The team names of the raw records, home before away, record by record. *)
Definition rawTeams (rawData : list RawJSON.MatchData) : list string :=
  flat_map (fun m => [RawJSON.home_team m; RawJSON.away_team m]) rawData.

(** Every entry of the object is stored under its own name. *)
Definition named (teams : JS.object Types.TeamStats) : Prop :=
  Forall (fun e => Types.name (snd e) = fst e) teams.

(** The games counted so far for [k]: those of its entry, none without one. *)
Definition gamesSoFar (teams : JS.object Types.TeamStats) (k : string) : option float :=
  match JS.get teams k with
  | Some t => Types.gamesPlayed t
  | None => Some 0
  end.

(** Whether counting from [c] agrees with the integers from [i] on, [k]
    times. *)
Fixpoint agrees (k : nat) (i : Z) (c : float) : bool :=
  match k with
  | O => true
  | S k' => PrimFloat.Leibniz.eqb c (JS.of_Z i) && agrees k' (i + 1)%Z (c + 1)
  end.

(** The match [b] is no newer than [a]: its date is at most that of [a].
    No comparison with an invalid date, which is [NaN], holds. *)
Definition noNewer (a b : Types.ProcessedMatch) : Prop :=
  (Types.date b <=? Types.date a) = true.

(** Neither a space nor an ASCII capital letter. *)
Definition urlSafe (c : ascii) : bool :=
  let n := N_of_ascii c in
  negb ((n =? 32) || ((65 <=? n) && (n <=? 90)))%N.

(** No space. *)
Definition noSpace (c : ascii) : bool := negb (N_of_ascii c =? 32)%N.

(** Every accumulator of the simulator is stored under its own name. *)
Definition accNamed (stats : JS.object BettingSimulator.TeamAcc) : Prop :=
  Forall (fun e => BettingSimulator.acc_name (snd e) = fst e) stats.

(** Whether the strategy places a bet on [m]. *)
Definition placed `{Host} (st : BettingSimulator.State) (m : Types.ProcessedMatch) : bool :=
  BettingSimulator.shouldBet (BettingSimulator.signal st m)
  && match BettingSimulator.betType (BettingSimulator.signal st m) with
     | Some _ => true
     | None => false
     end.

Definition sameOutcome (a b : BettingSimulator.Outcome) : bool :=
  match a, b with
  | BettingSimulator.WIN, BettingSimulator.WIN
  | BettingSimulator.LOSS, BettingSimulator.LOSS
  | BettingSimulator.PUSHED, BettingSimulator.PUSHED => true
  | _, _ => false
  end.

(** The number of log entries with the outcome [o]. *)
Definition outcomes (o : BettingSimulator.Outcome) (logs : list BettingSimulator.LogEntry)
  : nat :=
  List.length (filter (fun e => sameOutcome (BettingSimulator.log_result e) o) logs).

(** The state [st] run with the strategy [s]. *)
Definition withStrategy (st : BettingSimulator.State) (s : BettingSimulator.Strategy)
  : BettingSimulator.State :=
  {| BettingSimulator.backtestMatches := BettingSimulator.backtestMatches st;
     BettingSimulator.wager := BettingSimulator.wager st;
     BettingSimulator.strategy := s;
     BettingSimulator.valueMargin := BettingSimulator.valueMargin st;
     BettingSimulator.selectedTeam := BettingSimulator.selectedTeam st;
     BettingSimulator.startDate := BettingSimulator.startDate st;
     BettingSimulator.endDate := BettingSimulator.endDate st;
     BettingSimulator.efficiencyThreshold := BettingSimulator.efficiencyThreshold st |}.

Definition processedTeams (matches : list Types.ProcessedMatch) : list string :=
  flat_map (fun m => [Types.homeTeam m; Types.awayTeam m]) matches.

End Terms.

(** ** Sample data for the aggregator, the live panel and the dashboard *)

Module Fixtures.

(** One box-score line. *)
Definition boxScore (fga fgm : string) : RawJSON.BoxScore :=
  [("field_goals_attempted", fga); ("field_goals_made", fgm);
   ("free_throws_attempted", "5"); ("free_throws_made", "4")].

(** A raw record with one recorded period. *)
Definition raw (home away hs aw : string) (l : float) : RawJSON.MatchData :=
  {| RawJSON.home_team := home; RawJSON.away_team := away;
     RawJSON.home_score := hs; RawJSON.away_score := aw;
     RawJSON.quarter_stats :=
       [("Q1", [(home, boxScore "22" "11"); (away, boxScore "20" "9")])];
     RawJSON.total_line := l |}.

(** Boston plays twice, New York and Miami once. *)
Definition rawSeason : list RawJSON.MatchData :=
  [raw "Boston Celtics" "New York Knicks" "108" "101" 214.5;
   raw "Miami Heat" "Boston Celtics" "99" "105" 200].

(** Case tables for the samples: their names are ASCII, which is lowered
    without the tables. *)
Definition sampleCase : Aggregator.CaseTables :=
  {| Aggregator.lowerCase := fun s => s |}.

(** Records with team names that are array indices or a member of
    [Object.prototype]. *)
Definition rawOddNames : list RawJSON.MatchData :=
  [raw "76" "constructor" "100" "90" 200;
   raw "Boston Celtics" "10" "99" "105" 200].

(** A live game with one bookmaker that quotes a money line and a total. *)
Definition liveGame (i home away : string) (l : float) : Live.LiveGame :=
  {| Live.id := i; Live.sport_key := "basketball_nba"; Live.sport_title := "NBA";
     Live.commence_time := "2025-01-12T00:00:00Z";
     Live.home_team := home; Live.away_team := away;
     Live.bookmakers :=
       [{| Live.bk_key := "pinnacle"; Live.title := "Pinnacle";
           Live.bk_last_update := "2025-01-11T20:00:00Z";
           Live.markets :=
             [{| Live.key := "h2h"; Live.last_update := "2025-01-11T20:00:00Z";
                 Live.outcomes :=
                   [{| Live.name := home; Live.price := 1.8; Live.point := None |};
                    {| Live.name := away; Live.price := 2.1; Live.point := None |}] |};
              {| Live.key := "totals"; Live.last_update := "2025-01-11T20:00:00Z";
                 Live.outcomes :=
                   [{| Live.name := "Over"; Live.price := 1.9; Live.point := Some l |};
                    {| Live.name := "Under"; Live.price := 1.95;
                       Live.point := Some l |}] |}] |}] |}.

Definition pacersGame : Live.LiveGame :=
  liveGame "n1" "Indiana Pacers" "Orlando Magic" 240.

(** A game of a team the default season does not know. *)
Definition jazzGame : Live.LiveGame := liveGame "n2" "Utah Jazz" "Orlando Magic" 236.5.

(** The default season has an average total of 190.25. *)
Definition panel : LiveSignals.Panel :=
  {| LiveSignals.liveGames := [pacersGame; jazzGame];
     LiveSignals.defaultTeams := [Samples.runAndGun; Samples.balanced];
     LiveSignals.defaultMatches := Samples.season;
     LiveSignals.valueMargin := 3;
     LiveSignals.efficiencyThreshold := 46.5;
     LiveSignals.liveFilter := LiveSignals.ALL |}.

(** The first game of the panel after its line has dropped. *)
Definition pacersGameLater : Live.LiveGame :=
  liveGame "n1" "Indiana Pacers" "Orlando Magic" 238.5.

(** A team-model backtest over a season of three games. *)
Definition modelSeason : list Types.ProcessedMatch :=
  @Utils.processMatches Samples.host [Samples.game1; Samples.game4; Samples.game5].

Definition teamModel : BettingSimulator.State :=
  {| BettingSimulator.backtestMatches := modelSeason;
     BettingSimulator.wager := 100;
     BettingSimulator.strategy := BettingSimulator.TEAM_MODEL;
     BettingSimulator.valueMargin := 0.5;
     BettingSimulator.selectedTeam := "ALL";
     BettingSimulator.startDate := "";
     BettingSimulator.endDate := "";
     BettingSimulator.efficiencyThreshold := 46.5 |}.

(** The Knicks game of the season, as processed. *)
Definition knicksGame : Types.ProcessedMatch := @Utils.processMatch Samples.host Samples.game4.

End Fixtures.

(** * Properties *)

(** ** The order on numbers

    [<?] and [=?] are the IEEE comparisons: everything below is derived from
    their specification on [spec_float]. *)

Section NumberOrder.

Lemma SFcompare_antisym (x y : spec_float) :
  SFcompare y x = option_map CompOpp (SFcompare x y).
Proof.
  destruct x as [sx|sx| |sx mx ex], y as [sy|sy| |sy my ey]; simpl;
    try reflexivity; try (destruct sx; reflexivity); try (destruct sy; reflexivity);
    try (destruct sx, sy; reflexivity).
  rewrite (Z.compare_antisym ex ey).
  change (Pos.compare_cont Eq my mx) with (Pos.compare my mx).
  change (Pos.compare_cont Eq mx my) with (Pos.compare mx my).
  rewrite (Pos.compare_antisym mx my).
  destruct sx, sy; simpl; try reflexivity;
    destruct (Z.compare ex ey); simpl; try reflexivity;
    destruct (Pos.compare mx my); reflexivity.
Qed.

Lemma SFcompare_Lt_trans (x y z : spec_float) :
  SFcompare x y = Some Lt -> SFcompare y z = Some Lt -> SFcompare x z = Some Lt.
Proof.
  destruct x as [sx|sx| |sx mx ex], y as [sy|sy| |sy my ey],
           z as [sz|sz| |sz mz ez]; simpl;
    try discriminate; try (destruct sx; discriminate);
    try (destruct sx, sy; discriminate);
    try (destruct sx, sy, sz; simpl; congruence);
    try (destruct sy, sz; simpl; congruence);
    try (destruct sx, sz; simpl; congruence).
  change (Pos.compare_cont Eq mx my) with (Pos.compare mx my).
  change (Pos.compare_cont Eq my mz) with (Pos.compare my mz).
  change (Pos.compare_cont Eq mx mz) with (Pos.compare mx mz).
  destruct sx, sy, sz; simpl; try congruence;
    destruct (Z.compare_spec ex ey); try congruence;
    destruct (Z.compare_spec ey ez); try congruence;
    destruct (Z.compare_spec ex ez); try congruence; try lia;
    destruct (Pos.compare_spec mx my); simpl; try congruence;
    destruct (Pos.compare_spec my mz); simpl; try congruence;
    destruct (Pos.compare_spec mx mz); simpl; try congruence; lia.
Qed.

Lemma ltb_SFcompare (x y : float) :
  (x <? y) = true <-> SFcompare (Prim2SF x) (Prim2SF y) = Some Lt.
Proof.
  rewrite FloatAxioms.ltb_spec. unfold SFltb.
  destruct (SFcompare (Prim2SF x) (Prim2SF y)) as [[ | | ]|]; split; congruence.
Qed.

Lemma eqb_SFcompare (x y : float) :
  (x =? y) = true <-> SFcompare (Prim2SF x) (Prim2SF y) = Some Eq.
Proof.
  rewrite FloatAxioms.eqb_spec. unfold SFeqb.
  destruct (SFcompare (Prim2SF x) (Prim2SF y)) as [[ | | ]|]; split; congruence.
Qed.

Lemma ltb_asym (x y : float) : (x <? y) = true -> (y <? x) = false.
Proof.
  intros H. apply ltb_SFcompare in H.
  destruct (y <? x) eqn:E; [|reflexivity].
  apply ltb_SFcompare in E. rewrite SFcompare_antisym, H in E. discriminate.
Qed.


Lemma ltb_trans (x y z : float) :
  (x <? y) = true -> (y <? z) = true -> (x <? z) = true.
Proof.
  rewrite !ltb_SFcompare. apply SFcompare_Lt_trans.
Qed.

Lemma eqb_not_ltb (x y : float) :
  (x =? y) = true -> (x <? y) = false /\ (y <? x) = false.
Proof.
  intros H. apply eqb_SFcompare in H. split.
  - destruct (x <? y) eqn:E; [|reflexivity].
    apply ltb_SFcompare in E. congruence.
  - destruct (y <? x) eqn:E; [|reflexivity].
    apply ltb_SFcompare in E. rewrite SFcompare_antisym, H in E. discriminate.
Qed.

Lemma is_nan_SF (x : float) : is_nan x = false -> Prim2SF x <> S754_nan.
Proof.
  unfold is_nan. intros H E.
  apply negb_false_iff in H. apply eqb_SFcompare in H.
  rewrite E in H. discriminate.
Qed.

(** Two numbers that are not [NaN] are comparable. *)
Lemma trichotomy (x y : float) :
  is_nan x = false -> is_nan y = false ->
  (x <? y) = false -> (y <? x) = false -> (x =? y) = true.
Proof.
  intros Hx Hy Hxy Hyx.
  apply is_nan_SF in Hx. apply is_nan_SF in Hy.
  apply eqb_SFcompare.
  destruct (SFcompare (Prim2SF x) (Prim2SF y)) as [[ | | ]|] eqn:E.
  - reflexivity.
  - apply ltb_SFcompare in E. congruence.
  - assert (H : (y <? x) = true)
      by (apply ltb_SFcompare; rewrite SFcompare_antisym, E; reflexivity).
    congruence.
  - destruct (Prim2SF x), (Prim2SF y); simpl in E; congruence.
Qed.

End NumberOrder.

(** ** Arrays *)

Section Arrays.
Context {A : Type} (cmp : A -> A -> float).

Lemma insert_perm (x : A) (l : list A) : Permutation (JS.insert cmp x l) (x :: l).
Proof.
  induction l as [|y l IH]; simpl.
  - apply Permutation_refl.
  - destruct (0 <? cmp x y).
    + eapply Permutation_trans; [apply perm_skip, IH|apply perm_swap].
    + apply Permutation_refl.
Qed.

(** Sorting rearranges and neither drops nor adds an element. *)
Lemma sort_perm (l : list A) : Permutation (JS.sort cmp l) l.
Proof.
  induction l as [|x l IH]; simpl.
  - apply perm_nil.
  - eapply Permutation_trans; [apply insert_perm|apply perm_skip, IH].
Qed.

Lemma sort_In (x : A) (l : list A) : In x (JS.sort cmp l) <-> In x l.
Proof.
  split; apply Permutation_in; [|apply Permutation_sym]; apply sort_perm.
Qed.

End Arrays.

Lemma slice0_In {A : Type} (n : nat) (x : A) (l : list A) :
  In x (JS.slice0 n l) -> In x l.
Proof.
  unfold JS.slice0. revert l. induction n as [|n IH]; intros [|y l]; simpl; try tauto.
  intros [E|Hin]; [now left|right; now apply IH].
Qed.

(** ** The match processor *)

Section MatchProcessor.
Import Types Utils.
Context `{Host}.

(** Every processed match is the image of one raw record. *)
Lemma processMatches_In (rawData : list MatchData) (m : ProcessedMatch) :
  In m (processMatches rawData) <-> exists r, In r rawData /\ m = processMatch r.
Proof.
  unfold processMatches. rewrite sort_In, in_map_iff.
  split; intros [r [H1 H2]]; exists r; auto.
Qed.

Lemma processMatch_result (r : MatchData) :
  let m := processMatch r in
  (result m = OVER <-> (line m <? totalScore m) = true)
  /\ (result m = UNDER <-> (totalScore m <? line m) = true)
  /\ (result m = PUSH <->
      (line m <? totalScore m) = false /\ (totalScore m <? line m) = false).
Proof.
  simpl.
  set (t := p (Some (home_score r)) + p (Some (away_score r))).
  set (l := total_line (line_odds r)).
  destruct (l <? t) eqn:Hgt, (t <? l) eqn:Hlt;
    try (apply ltb_asym in Hgt; congruence);
    repeat split; intros; try tauto; try congruence; try discriminate;
    try (destruct H0; discriminate).
Qed.

Lemma get_set_other {V : Type} (o : JS.object V) (k k' : string) (v : V) :
  k <> k' -> JS.get (JS.set o k v) k' = JS.get o k'.
Proof.
  intros Hk. induction o as [|[k0 v0] o IH]; simpl.
  - destruct (String.eqb_spec k k'); congruence.
  - destruct (String.eqb_spec k0 k) as [->|Hne]; simpl.
    + destruct (String.eqb_spec k k'); congruence.
    + destruct (String.eqb_spec k0 k'); congruence.
Qed.

Lemma regulationTotal_periods (r : MatchData) :
  regulationTotal (processMatch r)
  = (0 + homePeriodScore r "Q1" + homePeriodScore r "Q2"
       + homePeriodScore r "Q3" + homePeriodScore r "Q4")
    + (0 + awayPeriodScore r "Q1" + awayPeriodScore r "Q2"
         + awayPeriodScore r "Q3" + awayPeriodScore r "Q4").
Proof. reflexivity. Qed.

Lemma regulationTotal_ignores_overtime (r : MatchData) (ot : QuarterScore) :
  regulationTotal (processMatch (Vocabulary.withPeriod r "OT" ot))
  = regulationTotal (processMatch r).
Proof.
  rewrite !regulationTotal_periods.
  unfold homePeriodScore, awayPeriodScore, Vocabulary.withPeriod; simpl.
  rewrite !get_set_other by discriminate. reflexivity.
Qed.

(** C1 (as amended).  For every match [m] that [processMatches] returns:
    [totalScore] is [homeScore + awayScore]; the result is [OVER] exactly
    when the total is above the line and [UNDER] exactly when it is below;
    it is [PUSH] exactly when the total is neither above nor below the
    line, which holds when the total equals the line and, for a total and
    a line that are numbers, only then; [regulationTotal] adds the scores of
    the periods [Q1] to [Q4] alone and is unchanged by an [OT] period. *)
Theorem processMatches_invariant (rawData : list MatchData) (m : ProcessedMatch) :
  In m (processMatches rawData) ->
  totalScore m = homeScore m + awayScore m
  /\ (result m = OVER <-> (line m <? totalScore m) = true)
  /\ (result m = UNDER <-> (totalScore m <? line m) = true)
  /\ (result m = PUSH <->
      (line m <? totalScore m) = false /\ (totalScore m <? line m) = false)
  /\ ((totalScore m =? line m) = true -> result m = PUSH)
  /\ (is_nan (totalScore m) = false -> is_nan (line m) = false ->
      result m = PUSH -> (totalScore m =? line m) = true)
  /\ exists r, In r rawData /\ m = processMatch r
      /\ regulationTotal m
         = (0 + homePeriodScore r "Q1" + homePeriodScore r "Q2"
              + homePeriodScore r "Q3" + homePeriodScore r "Q4")
           + (0 + awayPeriodScore r "Q1" + awayPeriodScore r "Q2"
                + awayPeriodScore r "Q3" + awayPeriodScore r "Q4")
      /\ forall ot, regulationTotal (processMatch (Vocabulary.withPeriod r "OT" ot))
                    = regulationTotal m.
Proof.
  intros Hin. apply processMatches_In in Hin. destruct Hin as [r [Hr ->]].
  destruct (processMatch_result r) as [Hover [Hunder Hpush]].
  split; [reflexivity|].
  split; [exact Hover|]. split; [exact Hunder|]. split; [exact Hpush|].
  split; [|split].
  - intros Heq. apply Hpush. apply eqb_not_ltb in Heq. tauto.
  - intros Ht Hl Hp. apply Hpush in Hp. destruct Hp as [H1 H2].
    now apply trichotomy.
  - exists r. split; [exact Hr|]. split; [reflexivity|].
    split; [apply regulationTotal_periods|].
    intros ot. apply regulationTotal_ignores_overtime.
Qed.

End MatchProcessor.

(** The invariant at the overtime game of the samples. *)
Lemma processMatches_invariant_witness :
  let m := @Utils.processMatch Samples.host Samples.game1 in
  In m (@Utils.processMatches Samples.host [Samples.game1])
  /\ Types.totalScore m = Types.homeScore m + Types.awayScore m
  /\ (Types.result m = Types.OVER <-> (Types.line m <? Types.totalScore m) = true).
Proof.
  pose proof (@processMatches_invariant Samples.host [Samples.game1]
                (@Utils.processMatch Samples.host Samples.game1)
                (or_introl eq_refl)) as W.
  split; [left; reflexivity|].
  split; [apply W|apply W].
Defined.

(** C1, as stated, fails: a record whose home score does not parse has the
    total [NaN]; its result is [PUSH] although the total is not equal to the
    line. *)
Lemma processMatches_push_without_equality :
  exists m, In m (@Utils.processMatches Samples.host [Samples.game2])
            /\ Types.result m = Types.PUSH
            /\ (Types.totalScore m =? Types.line m) = false.
Proof.
  exists (@Utils.processMatch Samples.host Samples.game2).
  split; [left; reflexivity|]. split; vm_compute; reflexivity.
Qed.


(** ** Integers as numbers

    A number is a sign, a mantissa of at most 53 bits and an exponent.  The
    lemmas below follow the rounding of the specification through the cases
    in which nothing is lost. *)

Section ExactIntegers.
Local Open Scope Z_scope.

Lemma digits2_pos_bounds (m : positive) :
  2 ^ (Z.pos (digits2_pos m) - 1) <= Z.pos m < 2 ^ Z.pos (digits2_pos m).
Proof.
  induction m as [m IH|m IH|]; cbn [digits2_pos].
  - rewrite Pos2Z.inj_succ, Z.pow_succ_r by lia.
    replace (Z.succ (Z.pos (digits2_pos m)) - 1)
      with (Z.succ (Z.pos (digits2_pos m) - 1)) by lia.
    rewrite Z.pow_succ_r by lia. lia.
  - rewrite Pos2Z.inj_succ, Z.pow_succ_r by lia.
    replace (Z.succ (Z.pos (digits2_pos m)) - 1)
      with (Z.succ (Z.pos (digits2_pos m) - 1)) by lia.
    rewrite Z.pow_succ_r by lia. lia.
  - simpl. lia.
Qed.

Lemma iter_xO_value (m k : positive) :
  Z.pos (Pos.iter xO m k) = Z.pos m * 2 ^ Z.pos k.
Proof.
  induction k as [|k IH] using Pos.peano_ind.
  - simpl. lia.
  - rewrite Pos.iter_succ, Pos2Z.inj_xO, IH, Pos2Z.inj_succ, Z.pow_succ_r by lia. lia.
Qed.




(** Beyond [2^53] the mantissa is shifted right and rounded.  Above the least
    exponent a right shift keeps a positive mantissa positive. *)
Lemma shr_1_m (mrs : shr_record) :
  0 <= shr_m mrs -> shr_m (shr_1 mrs) = shr_m mrs / 2.
Proof.
  destruct mrs as [m r s]. cbn [shr_m shr_1]. intros Hm.
  destruct m as [|[p|p|]|p]; cbn [shr_m].
  - reflexivity.
  - apply Z.div_unique with 1; lia.
  - apply Z.div_unique with 0; lia.
  - reflexivity.
  - lia.
Qed.

Lemma iter_pos_shr_1_m (p : positive) (mrs : shr_record) :
  0 <= shr_m mrs ->
  shr_m (iter_pos shr_1 p mrs) = shr_m mrs / 2 ^ Z.pos p.
Proof.
  revert mrs. induction p as [p IH|p IH|]; intros mrs Hm; cbn [iter_pos].
  - assert (Hp : 0 < 2 ^ Z.pos p) by (apply Z.pow_pos_nonneg; lia).
    assert (H1 : 0 <= shr_m (shr_1 mrs)) by (rewrite shr_1_m by lia; apply Z.div_pos; lia).
    assert (H2 : 0 <= shr_m (iter_pos shr_1 p (shr_1 mrs)))
      by (rewrite IH by lia; apply Z.div_pos; lia).
    rewrite IH, IH, shr_1_m by lia.
    rewrite !Z.div_div by lia.
    f_equal.
    replace (Z.pos p~1) with (1 + Z.pos p + Z.pos p) by lia.
    rewrite !Z.pow_add_r, Z.pow_1_r by lia. lia.
  - assert (Hp : 0 < 2 ^ Z.pos p) by (apply Z.pow_pos_nonneg; lia).
    assert (H2 : 0 <= shr_m (iter_pos shr_1 p mrs))
      by (rewrite IH by lia; apply Z.div_pos; lia).
    rewrite IH, IH by lia.
    rewrite !Z.div_div by lia.
    f_equal.
    replace (Z.pos p~0) with (Z.pos p + Z.pos p) by lia.
    rewrite !Z.pow_add_r by lia. lia.
  - rewrite shr_1_m by lia. reflexivity.
Qed.

Lemma shr_record_of_loc_m (m : Z) (l : location) : shr_m (shr_record_of_loc m l) = m.
Proof. destruct l as [|[ | | ]]; reflexivity. Qed.

Lemma shr_fexp_positive (m : positive) (e : Z) (l : location) :
  SpecFloat.emin prec emax <= e ->
  0 < shr_m (fst (shr_fexp prec emax (Z.pos m) e l))
  /\ SpecFloat.emin prec emax <= snd (shr_fexp prec emax (Z.pos m) e l).
Proof.
  intros He. unfold shr_fexp. cbn [Zdigits2].
  pose proof (digits2_pos_bounds m) as Hd.
  set (d := Z.pos (digits2_pos m)) in *.
  assert (Hn : fexp prec emax (d + e) - e <= 0 \/ fexp prec emax (d + e) - e = d - 53 /\ 0 < d - 53).
  { unfold fexp, emin, prec, emax in *. lia. }
  unfold shr.
  destruct (fexp prec emax (d + e) - e) as [|p|p] eqn:En; cbn [fst snd].
  - rewrite shr_record_of_loc_m. split; lia.
  - destruct Hn as [Hn|[Hn Hpos]]; [lia|].
    rewrite iter_pos_shr_1_m by (rewrite shr_record_of_loc_m; lia).
    rewrite shr_record_of_loc_m. split; [|lia].
    apply Z.div_str_pos. split; [apply Z.pow_pos_nonneg; lia|].
    apply Z.le_trans with (2 ^ (d - 1)); [|lia].
    apply Z.pow_le_mono_r; lia.
  - rewrite shr_record_of_loc_m. split; lia.
Qed.

(** A right shift to the format never lowers the exponent. *)
Lemma shr_fexp_exponent (m e : Z) (l : location) :
  e <= snd (shr_fexp prec emax m e l).
Proof.
  unfold shr_fexp, shr.
  destruct (fexp prec emax (Zdigits2 m + e) - e); cbn [snd]; lia.
Qed.

Lemma round_nearest_even_positive (m : Z) (l : location) :
  0 < m -> 0 < round_nearest_even m l.
Proof.
  intros Hm. destruct l as [|[ | | ]]; cbn [round_nearest_even]; try lia.
  destruct (Z.even m); lia.
Qed.

Lemma binary_round_aux_exponent (s : bool) (m : positive) (e : Z) (l : location) :
  SpecFloat.emin prec emax <= e ->
  (exists m' e', binary_round_aux prec emax s (Z.pos m) e l = S754_finite s m' e'
                 /\ e <= e')
  \/ binary_round_aux prec emax s (Z.pos m) e l = S754_infinity s.
Proof.
  intros He. unfold binary_round_aux.
  destruct (shr_fexp_positive m e l He) as [H1 H1e].
  pose proof (shr_fexp_exponent (Z.pos m) e l) as X1.
  destruct (shr_fexp prec emax (Z.pos m) e l) as [mrs' e']. cbn [fst snd] in *.
  pose proof (round_nearest_even_positive (shr_m mrs') (loc_of_shr_record mrs') H1) as Hr.
  destruct (round_nearest_even (shr_m mrs') (loc_of_shr_record mrs')) as [|m1|m1]; try lia.
  destruct (shr_fexp_positive m1 e' loc_Exact H1e) as [H2 _].
  pose proof (shr_fexp_exponent (Z.pos m1) e' loc_Exact) as X2.
  destruct (shr_fexp prec emax (Z.pos m1) e' loc_Exact) as [mrs'' e'']. cbn [fst snd] in *.
  destruct (shr_m mrs'') as [|m2|m2]; try lia.
  destruct (e'' <=? emax - prec);
    [left; exists m2, e''; split; [reflexivity|lia]|right; reflexivity].
Qed.

Lemma binary_round_aux_positive (s : bool) (m : positive) (e : Z) (l : location) :
  SpecFloat.emin prec emax <= e ->
  (exists m' e', binary_round_aux prec emax s (Z.pos m) e l = S754_finite s m' e')
  \/ binary_round_aux prec emax s (Z.pos m) e l = S754_infinity s.
Proof.
  intros He.
  destruct (binary_round_aux_exponent s m e l He) as [(m' & e' & R & _)|R];
    [left; eauto|right; exact R].
Qed.

Lemma binary_round_positive (s : bool) (m : positive) (e : Z) :
  SpecFloat.emin prec emax <= e ->
  (exists m' e', binary_round prec emax s m e = S754_finite s m' e')
  \/ binary_round prec emax s m e = S754_infinity s.
Proof.
  intros He. unfold binary_round, shl_align.
  assert (Hf : SpecFloat.emin prec emax <= fexp prec emax (Z.pos (digits2_pos m) + e))
    by (unfold fexp; lia).
  destruct (fexp prec emax (Z.pos (digits2_pos m) + e) - e);
    now apply binary_round_aux_positive.
Qed.






End ExactIntegers.

(** ** Numeric extraction *)

Section NumericExtraction.
Import Utils Vocabulary.









(** What is left after the leading white space starts with none. *)
Lemma trim_start_idempotent (s : string) :
  JS.trim_start (JS.trim_start s) = JS.trim_start s.
Proof.
  assert (H : forall n s, (String.length s <= n)%nat ->
                JS.trim_start (JS.trim_start s) = JS.trim_start s).
  { induction n as [|n IH]; intros t Hn.
    - destruct t; [reflexivity|simpl in Hn; lia].
    - destruct t as [|c1 s1]; [reflexivity|]. cbn [JS.trim_start].
      cbn [String.length] in Hn.
      destruct (JS.is_white_space c1) eqn:E1; [apply IH; lia|].
      destruct s1 as [|c2 s2].
      { cbn [JS.trim_start]. now rewrite E1. }
      cbn [String.length] in Hn.
      destruct (JS.is_white_space2 c1 c2) eqn:E2; [apply IH; lia|].
      destruct s2 as [|c3 s3].
      { cbn [JS.trim_start]. now rewrite E1, E2. }
      cbn [String.length] in Hn.
      destruct (JS.is_white_space3 c1 c2 c3) eqn:E3; [apply IH; lia|].
      cbn [JS.trim_start]. now rewrite E1, E2, E3. }
  exact (H (String.length s) s (le_n _)).
Qed.











End NumericExtraction.




(** ** True shooting *)

Section TrueShooting.
Import Types Utils Vocabulary.

(** [calculateTS] is guarded: no points, or a zero denominator, give [0]. *)
Lemma calculateTS_guarded (points : float) (stats : QuarterStats) :
  (points =? 0) = true \/ (tsDenominator stats =? 0) = true ->
  calculateTS points (Some stats) = 0.
Proof.
  unfold calculateTS, tsDenominator. intros [H|H].
  - now rewrite H.
  - rewrite H. now destruct (points =? 0).
Qed.

Lemma calculateTS_no_stats (points : float) : calculateTS points None = 0.
Proof. reflexivity. Qed.

Lemma eqb_zero_SF (x : float) :
  (x =? 0) = true -> exists s, Prim2SF x = S754_zero s.
Proof.
  intros Hx. apply eqb_SFcompare in Hx.
  change (Prim2SF 0) with (S754_zero false) in Hx.
  destruct (Prim2SF x) as [s|s| |s m e]; simpl in Hx;
    try discriminate; try (destruct s; discriminate).
  now exists s.
Qed.

(** The game-level formula with no points: the quotient is a zero or [NaN],
    both of which [|| 0] turns into [0]. *)
Lemma zero_points_guarded (x d : float) :
  (x =? 0) = true -> JS.or_else (x / d * 100) 0 = 0.
Proof.
  intros Hx. destruct (eqb_zero_SF x Hx) as [s Hs].
  assert (HSF : Prim2SF (x / d * 100) = S754_nan
                \/ exists s', Prim2SF (x / d * 100) = S754_zero s').
  { rewrite mul_spec, div_spec, Hs.
    change (Prim2SF 100) with (S754_finite false 7036874417766400 (-46)).
    destruct (Prim2SF d) as [sd|sd| |sd md ed]; simpl; eauto. }
  destruct HSF as [E|[s' E]].
  - replace (x / d * 100) with nan by (apply Prim2SF_inj; now rewrite E).
    reflexivity.
  - destruct s'.
    + replace (x / d * 100) with (-0) by (apply Prim2SF_inj; now rewrite E).
      reflexivity.
    + replace (x / d * 100) with 0 by (apply Prim2SF_inj; now rewrite E).
      reflexivity.
Qed.

(** A positive number over zero is [Infinity], and stays so through
    [* 100] and [|| 0]. *)
Lemma positive_over_zero (x : float) :
  (0 <? x) = true -> JS.or_else (x / 0 * 100) 0 = infinity.
Proof.
  intros Hx.
  assert (E : x / 0 = infinity).
  { apply Prim2SF_inj. rewrite div_spec.
    change (Prim2SF 0) with (S754_zero false).
    change (Prim2SF infinity) with (S754_infinity false).
    apply ltb_SFcompare in Hx. change (Prim2SF 0) with (S754_zero false) in Hx.
    destruct (Prim2SF x) as [s|s| |s m e]; simpl in Hx; try discriminate;
      destruct s; try discriminate; reflexivity. }
  rewrite E. reflexivity.
Qed.

(** C8 fails on the game-level path.  For a record with a positive home
    score whose box score adds up to a zero denominator, [processMatches]
    stores [Infinity] in [homeTS]: the quotient is not [NaN], so [|| 0] lets
    it through.  A record without [quarter_stats] is such a record. *)
Theorem homeTS_infinite_on_zero_denominator (H : Host) (r : MatchData) :
  (0 <? p (Some (home_score r))) = true ->
  2 * (homeFGA (gameSums r) + 0.44 * homeFTA (gameSums r)) = 0 ->
  homeTS (processMatch r) = infinity
  /\ forall raw, In r raw ->
       exists m, In m (processMatches raw) /\ id m = match_id r /\ homeTS m = infinity.
Proof.
  intros Hpts Hden.
  assert (E : homeTS (processMatch r) = infinity).
  { cbn [processMatch homeTS]. rewrite Hden. now apply positive_over_zero. }
  split; [exact E|].
  intros raw Hin. exists (processMatch r). split; [|split; [reflexivity|exact E]].
  apply processMatches_In. exists r. split; [exact Hin|reflexivity].
Qed.

End TrueShooting.

(** The sample game without box score: 110 home points, a zero denominator,
    [Infinity] as [homeTS], and [0] from [calculateTS] on the same figures. *)
Lemma homeTS_infinite_on_zero_denominator_witness :
  Utils.p (Some (Types.home_score Samples.game3)) = 110
  /\ Types.homeTS (@Utils.processMatch Samples.host Samples.game3) = infinity
  /\ Utils.calculateTS 110 (Some (Samples.stats "0" "0" "0")) = 0.
Proof.
  split; [reflexivity|]. split; [|reflexivity].
  apply (homeTS_infinite_on_zero_denominator Samples.host Samples.game3);
    vm_compute; reflexivity.
Defined.

(** ** The four period slots and the fourth-quarter trend *)

Section FourPeriods.
Import Types Utils Vocabulary.
Context `{Host}.

Lemma processMatch_lengths (r : MatchData) :
  List.length (quarterlyTotals (processMatch r)) = 4%nat
  /\ List.length (homeQScores (processMatch r)) = 4%nat
  /\ List.length (awayQScores (processMatch r)) = 4%nat.
Proof. repeat split. Qed.

(** A period that is missing from [quarter_scores] fills its slot with [0]. *)
Lemma processMatch_absent_period (r : MatchData) (i : nat) (q : string) :
  nth_error periods i = Some q ->
  JS.get (quarter_scores r) q = None ->
  nth_error (quarterlyTotals (processMatch r)) i = Some 0
  /\ nth_error (homeQScores (processMatch r)) i = Some 0
  /\ nth_error (awayQScores (processMatch r)) i = Some 0.
Proof.
  intros Hq Hget.
  assert (Hmap : forall f : string -> float,
             nth_error (map f periods) i = Some (f q))
    by (intros f; now rewrite nth_error_map, Hq).
  cbn [processMatch quarterlyTotals homeQScores awayQScores].
  rewrite !Hmap. unfold homePeriodScore, awayPeriodScore. rewrite Hget.
  repeat split.
Qed.

Lemma q4Loop_unguarded (l : list ProcessedMatch) (acc : float * float) :
  Forall (fun m => List.length (quarterlyTotals m) = 4%nat) l ->
  fold_left q4Step l acc = fold_left q4StepUnguarded l acc.
Proof.
  intros Hall. revert acc. induction Hall as [|m l Hm _ IH]; intros acc; simpl.
  - reflexivity.
  - rewrite <- IH. f_equal. unfold q4Step, q4StepUnguarded.
    destruct acc as [d c]. now rewrite Hm.
Qed.

Lemma gamesCounted_unguarded (l : list ProcessedMatch) (acc : float * float) :
  snd (fold_left q4StepUnguarded l acc) = fold_left (fun c _ => c + 1) l (snd acc).
Proof.
  revert acc. induction l as [|m l IH]; intros [d c]; simpl; [reflexivity|].
  now rewrite IH.
Qed.

(** Counting up to ten games by [gamesCounted++] is exact. *)
Lemma count_small {A : Type} (l : list A) :
  (List.length l <= 10)%nat -> fold_left (fun c _ => c + 1) l 0 = JS.length_number l.
Proof.
  intros Hlen.
  do 11 (destruct l as [|? l]; [reflexivity|]).
  simpl in Hlen. lia.
Qed.

Lemma relevantHistory_incl (target : ProcessedMatch) (allMatches : list ProcessedMatch)
    (m : ProcessedMatch) :
  In m (relevantHistory target allMatches) -> In m allMatches.
Proof.
  unfold relevantHistory. rewrite sort_In, filter_In. tauto.
Qed.

(** C10.  Every match that [processMatches] returns carries exactly four
    period totals and four period scores per team, a missing period being
    [0]; so, on a processed history, the test on four recorded periods in
    the trend loop of [generateMatchInsights] passes for every one of the
    ten most recent games, all of which are counted. *)
Theorem processMatches_four_periods (rawData : list MatchData) :
  (forall m, In m (processMatches rawData) ->
     (List.length (quarterlyTotals m) = 4%nat
      /\ List.length (homeQScores m) = 4%nat
      /\ List.length (awayQScores m) = 4%nat)
     /\ exists r, In r rawData /\ m = processMatch r
          /\ forall i q, nth_error periods i = Some q ->
                         JS.get (quarter_scores r) q = None ->
                         nth_error (quarterlyTotals m) i = Some 0
                         /\ nth_error (homeQScores m) i = Some 0
                         /\ nth_error (awayQScores m) i = Some 0)
  /\ forall target : ProcessedMatch,
       let last10 := JS.slice0 10 (relevantHistory target (processMatches rawData)) in
       q4Loop last10 = fold_left q4StepUnguarded last10 (0, 0)
       /\ snd (q4Loop last10) = JS.length_number last10
       /\ q4TrendValue (generateMatchInsights target (processMatches rawData))
          = if 0 <? JS.length_number last10
            then fst (fold_left q4StepUnguarded last10 (0, 0)) / JS.length_number last10
            else 0.
Proof.
  split.
  - intros m Hin. apply processMatches_In in Hin. destruct Hin as [r [Hr ->]].
    split; [apply processMatch_lengths|].
    exists r. split; [exact Hr|]. split; [reflexivity|].
    intros i q. apply processMatch_absent_period.
  - intros target last10.
    assert (Hall : Forall (fun m => List.length (quarterlyTotals m) = 4%nat) last10).
    { apply Forall_forall. intros x Hx. unfold last10 in Hx.
      apply slice0_In, relevantHistory_incl, processMatches_In in Hx.
      destruct Hx as [rx [_ ->]]. exact (proj1 (processMatch_lengths rx)). }
    assert (Hloop : q4Loop last10 = fold_left q4StepUnguarded last10 (0, 0))
      by (apply q4Loop_unguarded, Hall).
    assert (Hcount : snd (q4Loop last10) = JS.length_number last10).
    { rewrite Hloop, gamesCounted_unguarded. apply count_small.
      unfold last10, JS.slice0. apply firstn_le_length. }
    split; [exact Hloop|]. split; [exact Hcount|].
    unfold generateMatchInsights. cbn [q4TrendValue]. fold last10.
    rewrite Hcount, Hloop. reflexivity.
Qed.

End FourPeriods.

(** The four slots of the sample game that has a first period only. *)
Lemma processMatches_four_periods_witness :
  let m := @Utils.processMatch Samples.host Samples.game3 in
  In m (@Utils.processMatches Samples.host [Samples.game1; Samples.game3])
  /\ List.length (Types.quarterlyTotals m) = 4%nat
  /\ Types.quarterlyTotals m = [30; 0; 0; 0].
Proof.
  split; [|split].
  - vm_compute. right. left. reflexivity.
  - apply (proj1 (@processMatches_four_periods Samples.host
                    [Samples.game1; Samples.game3])
             (@Utils.processMatch Samples.host Samples.game3)).
    vm_compute. right. left. reflexivity.
  - reflexivity.
Defined.


(** ** The matchup analyzer *)

Section MatchupAnalyzer.
Import Types Utils Vocabulary.
Context `{Host}.

(** Each rule contributes its tag exactly when its own trigger holds, in the
    order of the rules. *)
Lemma analyzeMatchup_types (t1 t2 : TeamStats) :
  map type (analyzeMatchup t1 t2)
  = (fired PACE (paceClash t1 t2) ++ fired BRICK (shootingDrought t1 t2)
     ++ fired FOUL (foulHeavy t1 t2) ++ fired MISMATCH (mismatch t1 t2)
     ++ fired MISMATCH (mismatch t2 t1) ++ fired DEFENSE (defensiveGrind t1 t2))%list.
Proof.
  unfold analyzeMatchup, paceClash, shootingDrought, foulHeavy, mismatch,
    defensiveGrind, fired.
  destruct (175 <? avgFGA t1 + avgFGA t2);
    destruct ((avg3P_Pct t1 <? 33) && (avg3P_Pct t2 <? 33));
    destruct ((40 <? avgFouls t1 + avgFouls t2) && (35 <? avgFTM t1 + avgFTM t2));
    destruct ((115 <? avgPointsFor t1) && (115 <? avgPointsAgainst t2));
    destruct ((115 <? avgPointsFor t2) && (115 <? avgPointsAgainst t1));
    destruct ((avgPointsAgainst t1 <? 108) && (avgPointsAgainst t2 <? 108));
    reflexivity.
Qed.

(** No average is both above 115 and below 108. *)
Lemma above_115_not_below_108 (x : float) : (115 <? x) = true -> (x <? 108) = false.
Proof.
  intros Hx. destruct (x <? 108) eqn:E; [|reflexivity].
  pose proof (ltb_trans _ _ _ Hx E) as Habs. vm_compute in Habs. discriminate.
Qed.

Lemma mismatch_excludes_grind (t1 t2 : TeamStats) :
  mismatch t1 t2 || mismatch t2 t1 = true -> defensiveGrind t1 t2 = false.
Proof.
  unfold mismatch, defensiveGrind. intros Hm.
  apply orb_true_iff in Hm.
  destruct Hm as [Hm|Hm]; apply andb_true_iff in Hm; destruct Hm as [_ Hpa];
    apply above_115_not_below_108 in Hpa; rewrite Hpa.
  - apply andb_false_r.
  - reflexivity.
Qed.

End MatchupAnalyzer.

(** C9.  [analyzeMatchup] tests each rule on its own trigger, whatever the
    other rules gave, and returns at most five insights: the two mismatch
    rules and the defensive rule cannot hold together.  Five and zero are both
    reached. *)
Theorem analyzeMatchup_at_most_five :
  (forall (H : Host) (t1 t2 : Types.TeamStats),
      map Types.type (Utils.analyzeMatchup t1 t2)
      = (Vocabulary.fired Types.PACE (Vocabulary.paceClash t1 t2)
         ++ Vocabulary.fired Types.BRICK (Vocabulary.shootingDrought t1 t2)
         ++ Vocabulary.fired Types.FOUL (Vocabulary.foulHeavy t1 t2)
         ++ Vocabulary.fired Types.MISMATCH (Vocabulary.mismatch t1 t2)
         ++ Vocabulary.fired Types.MISMATCH (Vocabulary.mismatch t2 t1)
         ++ Vocabulary.fired Types.DEFENSE (Vocabulary.defensiveGrind t1 t2))%list
      /\ (0 <= List.length (Utils.analyzeMatchup t1 t2) <= 5)%nat)
  /\ List.length (@Utils.analyzeMatchup Samples.host Samples.runAndGun Samples.runAndGun)
     = 5%nat
  /\ List.length (@Utils.analyzeMatchup Samples.host Samples.balanced Samples.balanced)
     = 0%nat.
Proof.
  split; [|split; vm_compute; reflexivity].
  intros H t1 t2. pose proof (analyzeMatchup_types t1 t2) as Ht.
  split; [exact Ht|]. split; [lia|].
  rewrite <- (length_map Types.type), Ht.
  pose proof (mismatch_excludes_grind t1 t2) as Hex.
  unfold Vocabulary.fired.
  destruct (Vocabulary.paceClash t1 t2), (Vocabulary.shootingDrought t1 t2),
    (Vocabulary.foulHeavy t1 t2), (Vocabulary.mismatch t1 t2),
    (Vocabulary.mismatch t2 t1), (Vocabulary.defensiveGrind t1 t2);
    simpl in *; try lia; specialize (Hex eq_refl); discriminate.
Qed.

(** ** Mean and standard deviation of the recent totals *)

Section RecentTotals.
Import Types Utils.

(** A square over [n - 1 = 0]: the root is never a finite number. *)
Lemma sqrt_square_over_zero (d : float) :
  sqrt ((0 + d * d) / 0) = nan \/ sqrt ((0 + d * d) / 0) = infinity.
Proof.
  assert (HSF : Prim2SF (sqrt ((0 + d * d) / 0)) = S754_nan
                \/ Prim2SF (sqrt ((0 + d * d) / 0)) = S754_infinity false).
  { rewrite sqrt_spec, div_spec, add_spec, mul_spec.
    change (Prim2SF 0) with (S754_zero false).
    unfold SF64sqrt, SF64div, SF64add, SF64mul.
    destruct (Prim2SF d) as [s|s| |s m e]; simpl.
    - destruct s; simpl; left; reflexivity.
    - destruct s; simpl; right; reflexivity.
    - left; reflexivity.
    - unfold binary_round_aux.
      destruct (shr_fexp prec emax (Z.pos (m * m)) (e + e) loc_Exact) as [mrs' e'].
      destruct (shr_fexp prec emax
                  (round_nearest_even (shr_m mrs') (loc_of_shr_record mrs')) e'
                  loc_Exact) as [mrs'' e''].
      replace (xorb s s) with false by (destruct s; reflexivity).
      destruct (shr_m mrs''); simpl; [left; reflexivity| |left; reflexivity].
      destruct (e'' <=? 971)%Z; simpl; right; reflexivity. }
  destruct HSF as [E|E]; [left|right]; apply Prim2SF_inj; rewrite E; reflexivity.
Qed.

Lemma getSD_single (x : float) :
  getSD [x] = sqrt ((0 + JS.pow2 (x - getMean [x])) / 0).
Proof. reflexivity. Qed.

(** With no earlier game the two figures keep their initial [0]. *)
Lemma insights_no_history (target : ProcessedMatch) (allMatches : list ProcessedMatch) :
  relevantHistory target allMatches = [] ->
  mean15 (generateMatchInsights target allMatches) = 0
  /\ sd15 (generateMatchInsights target allMatches) = 0.
Proof.
  intros E. unfold generateMatchInsights. rewrite E. split; reflexivity.
Qed.

Lemma insights_single_game (target h : ProcessedMatch) (allMatches : list ProcessedMatch) :
  relevantHistory target allMatches = [h] ->
  sd15 (generateMatchInsights target allMatches) = getSD [totalScore h].
Proof.
  intros E. unfold generateMatchInsights. rewrite E. reflexivity.
Qed.

(** C6 fails for one earlier game.  The guard of [generateMatchInsights]
    tests [totals15.length > 0], so a history of exactly one game reaches
    [getSD], which divides a square by [n - 1 = 0]: [sd15] is then [NaN] or
    [Infinity], never [0]. *)
Theorem sd15_single_game (target h : ProcessedMatch) (allMatches : list ProcessedMatch) :
  relevantHistory target allMatches = [h] ->
  (sd15 (generateMatchInsights target allMatches) = nan
   \/ sd15 (generateMatchInsights target allMatches) = infinity)
  /\ (sd15 (generateMatchInsights target allMatches) =? 0) = false.
Proof.
  intros E. rewrite (insights_single_game _ _ _ E), getSD_single. unfold JS.pow2.
  destruct (sqrt_square_over_zero (totalScore h - getMean [totalScore h])) as [R|R];
    rewrite R; split; auto.
Qed.

End RecentTotals.

(** The sample season has one game of either team before the target: its
    total is 209 and the deviation shown for the target is [NaN]. *)
Lemma sd15_single_game_witness :
  map Types.totalScore (Utils.relevantHistory Samples.target Samples.season) = [209]
  /\ Utils.sd15 (Utils.generateMatchInsights Samples.target Samples.season) = nan
  /\ (Utils.sd15 (Utils.generateMatchInsights Samples.target Samples.season) =? 0) = false.
Proof.
  split; [vm_compute; reflexivity|]. split; [vm_compute; reflexivity|].
  apply (sd15_single_game Samples.target (@Utils.processMatch Samples.host Samples.game5)
           Samples.season).
  vm_compute. reflexivity.
Defined.


(** ** The relevant history of a match *)

Section RelevantHistory.
Import Types Utils Vocabulary.

Lemma involvesTeamOf_eqb (target m : ProcessedMatch) :
  String.eqb (homeTeam m) (homeTeam target)
  || String.eqb (awayTeam m) (homeTeam target)
  || String.eqb (homeTeam m) (awayTeam target)
  || String.eqb (awayTeam m) (awayTeam target) = true
  <-> involvesTeamOf target m.
Proof.
  unfold involvesTeamOf. rewrite !orb_true_iff, !String.eqb_eq. tauto.
Qed.

(** C5.  The relevant history of [generateMatchInsights] holds exactly the
    matches of the collection dated strictly before the target that involve
    one of its two teams; a match of the same date, or of a later one, is
    left out whatever its teams. *)
Theorem relevantHistory_strictly_before (target : ProcessedMatch)
    (allMatches : list ProcessedMatch) :
  (forall m, In m (relevantHistory target allMatches)
             <-> In m allMatches
                 /\ (date m <? date target) = true
                 /\ involvesTeamOf target m)
  /\ (forall m, (date m =? date target) = true ->
                ~ In m (relevantHistory target allMatches))
  /\ (forall m, (date target <? date m) = true ->
                ~ In m (relevantHistory target allMatches)).
Proof.
  assert (Hiff : forall m, In m (relevantHistory target allMatches)
                           <-> In m allMatches
                               /\ (date m <? date target) = true
                               /\ involvesTeamOf target m).
  { intros m. unfold relevantHistory.
    rewrite sort_In, filter_In, andb_true_iff, involvesTeamOf_eqb. tauto. }
  split; [exact Hiff|]. split; intros m Hd Hin; apply Hiff in Hin;
    destruct Hin as [_ [Hlt _]].
  - apply eqb_not_ltb in Hd. destruct Hd as [Hd _]. congruence.
  - apply ltb_asym in Hd. congruence.
Qed.

End RelevantHistory.

(** In the sample season the other game of 2025-01-10 involves the home team
    of the target and is not part of its history; the game of 2025-01-05 is. *)
Lemma relevantHistory_strictly_before_witness :
  let same_day := @Utils.processMatch Samples.host Samples.game4 in
  In same_day Samples.season
  /\ Vocabulary.involvesTeamOf Samples.target same_day
  /\ (Types.date same_day =? Types.date Samples.target) = true
  /\ ~ In same_day (Utils.relevantHistory Samples.target Samples.season)
  /\ map Types.id (Utils.relevantHistory Samples.target Samples.season) = ["g5"].
Proof.
  split; [vm_compute; tauto|]. split; [right; left; reflexivity|].
  split; [vm_compute; reflexivity|]. split; [|vm_compute; reflexivity].
  apply (proj1 (proj2 (relevantHistory_strictly_before Samples.target Samples.season))).
  vm_compute. reflexivity.
Defined.

(** ** The backtest engine *)

Section Backtest.
Import Types BettingSimulator Vocabulary.
Context `{Host}.

(** A bet on Over wins above the line and loses below it; Under mirrors. *)
Lemma won_lost_spec (m : ProcessedMatch) :
  (won BetOver m = true <-> (line m <? totalScore m) = true)
  /\ (lost BetOver m = true <-> (totalScore m <? line m) = true)
  /\ (won BetUnder m = true <-> (totalScore m <? line m) = true)
  /\ (lost BetUnder m = true <-> (line m <? totalScore m) = true).
Proof.
  unfold won, lost.
  destruct (line m <? totalScore m) eqn:Hgt, (totalScore m <? line m) eqn:Hlt;
    try (apply ltb_asym in Hgt; congruence); repeat split; congruence.
Qed.

Lemma won_not_lost (b : BetType) (m : ProcessedMatch) :
  won b m = true -> lost b m = false.
Proof. unfold won, lost. destruct b; intros ->; reflexivity. Qed.

Lemma push_neither (b : BetType) (m : ProcessedMatch) :
  (totalScore m =? line m) = true -> won b m = false /\ lost b m = false.
Proof.
  intros Heq. apply eqb_not_ltb in Heq. destruct Heq as [H1 H2].
  unfold won, lost. destruct b; rewrite H1, H2; split; reflexivity.
Qed.

(** The effect of one settled bet on the running counters. *)
Lemma settle_spec (st : State) (t : Tally) (m : ProcessedMatch) (b : BetType)
    (reason : string) :
  let t' := settle st t m b reason in
  betsPlaced t' = betsPlaced t + 1
  /\ (won b m = true ->
      wins t' = wins t + 1 /\ losses t' = losses t /\ pushes t' = pushes t
      /\ profit t' = profit t + wager st * (pickedOdds b m - 1))
  /\ (lost b m = true ->
      wins t' = wins t /\ losses t' = losses t + 1 /\ pushes t' = pushes t
      /\ profit t' = profit t - wager st)
  /\ ((totalScore m =? line m) = true ->
      wins t' = wins t /\ losses t' = losses t /\ pushes t' = pushes t + 1
      /\ profit t' = profit t).
Proof.
  unfold settle. split; [destruct (won b m), (lost b m); reflexivity|].
  split; [|split].
  - intros Hw. rewrite Hw. destruct b; repeat split.
  - intros Hl. destruct (won b m) eqn:Hw.
    + apply won_not_lost in Hw. congruence.
    + rewrite Hl. repeat split.
  - intros Heq. destruct (push_neither b m Heq) as [Hw Hl]. rewrite Hw, Hl.
    repeat split.
Qed.

Lemma roi_spec (st : State) :
  let r := calculateBacktestROI st in
  r_roi r = (if 0 <? r_totalBets r
             then (r_profit r / (r_totalBets r * wager st)) * 100 else 0)
  /\ (r_totalBets r = 0 -> r_roi r = 0).
Proof.
  simpl. unfold roiOf. split; [reflexivity|]. intros ->. reflexivity.
Qed.

End Backtest.

(** C2 (as amended).  A placed bet on Over wins iff the total is above the
    line and loses iff it is below, a bet on Under the other way round; a
    total equal to the line is a push, which counts neither a win nor a loss
    and leaves the profit unchanged; a win adds [wager * (odds - 1)] at the
    recorded price of the picked side, a loss subtracts the wager; the ROI is
    [profit / (betsPlaced * wager) * 100], and [0] without bets; a match of
    the run either places no bet or is settled this way.  With a wager
    of 100, one win at 1.91 and one loss, the profit is -9.000000000000014
    and the ROI -4.500000000000007 in the arithmetic of the program: -9 and
    -4.5 up to rounding. *)
Theorem settlement_and_roi :
  (forall (st : BettingSimulator.State) (t : BettingSimulator.Tally)
          (m : Types.ProcessedMatch) (b : BettingSimulator.BetType) (reason : string),
      let t' := BettingSimulator.settle st t m b reason in
      ((BettingSimulator.won BettingSimulator.BetOver m = true
        <-> (Types.line m <? Types.totalScore m) = true)
       /\ (BettingSimulator.lost BettingSimulator.BetOver m = true
           <-> (Types.totalScore m <? Types.line m) = true)
       /\ (BettingSimulator.won BettingSimulator.BetUnder m = true
           <-> (Types.totalScore m <? Types.line m) = true)
       /\ (BettingSimulator.lost BettingSimulator.BetUnder m = true
           <-> (Types.line m <? Types.totalScore m) = true))
      /\ BettingSimulator.betsPlaced t' = BettingSimulator.betsPlaced t + 1
      /\ (BettingSimulator.won b m = true ->
          BettingSimulator.wins t' = BettingSimulator.wins t + 1
          /\ BettingSimulator.losses t' = BettingSimulator.losses t
          /\ BettingSimulator.pushes t' = BettingSimulator.pushes t
          /\ BettingSimulator.profit t'
             = BettingSimulator.profit t
               + BettingSimulator.wager st * (Vocabulary.pickedOdds b m - 1))
      /\ (BettingSimulator.lost b m = true ->
          BettingSimulator.wins t' = BettingSimulator.wins t
          /\ BettingSimulator.losses t' = BettingSimulator.losses t + 1
          /\ BettingSimulator.pushes t' = BettingSimulator.pushes t
          /\ BettingSimulator.profit t'
             = BettingSimulator.profit t - BettingSimulator.wager st)
      /\ ((Types.totalScore m =? Types.line m) = true ->
          BettingSimulator.wins t' = BettingSimulator.wins t
          /\ BettingSimulator.losses t' = BettingSimulator.losses t
          /\ BettingSimulator.pushes t' = BettingSimulator.pushes t + 1
          /\ BettingSimulator.profit t' = BettingSimulator.profit t))
  /\ (forall (H : Host) (st : BettingSimulator.State) (t : BettingSimulator.Tally)
             (m : Types.ProcessedMatch),
        BettingSimulator.evaluate st t m = t
        \/ exists b reason,
             BettingSimulator.evaluate st t m = BettingSimulator.settle st t m b reason)
  /\ (forall (H : Host) (st : BettingSimulator.State),
        let r := BettingSimulator.calculateBacktestROI st in
        BettingSimulator.r_roi r
        = (if 0 <? BettingSimulator.r_totalBets r
           then (BettingSimulator.r_profit r
                 / (BettingSimulator.r_totalBets r * BettingSimulator.wager st)) * 100
           else 0)
        /\ (BettingSimulator.r_totalBets r = 0 -> BettingSimulator.r_roi r = 0))
  /\ (let r := @BettingSimulator.calculateBacktestROI Samples.host Samples.blindOver in
      BettingSimulator.r_wins r = 1 /\ BettingSimulator.r_losses r = 1
      /\ BettingSimulator.r_totalBets r = 2
      /\ map BettingSimulator.log_pnl (BettingSimulator.r_historyLogs r)
         = [90.99999999999999; -100]
      /\ BettingSimulator.r_profit r = -9.000000000000014
      /\ BettingSimulator.r_roi r = -4.500000000000007
      /\ (abs (BettingSimulator.r_profit r - -9) <? 1e-13) = true
      /\ (abs (BettingSimulator.r_roi r - -4.5) <? 1e-13) = true).
Proof.
  split; [|split; [|split]].
  - intros st t m b reason t'. split; [apply won_lost_spec|].
    apply settle_spec.
  - intros H st t m. unfold BettingSimulator.evaluate.
    destruct (BettingSimulator.shouldBet (BettingSimulator.signal st m));
      [|now left].
    destruct (BettingSimulator.betType (BettingSimulator.signal st m)) as [b|];
      [right; eauto|now left].
  - intros H st. apply roi_spec.
  - repeat split; vm_compute; reflexivity.
Qed.

(** A win at odds 1.91 on a wager of 100, at the first sample game. *)
Lemma settlement_and_roi_witness :
  let m := @Utils.processMatch Samples.host Samples.game1 in
  let t' := BettingSimulator.settle Samples.blindOver BettingSimulator.emptyTally m
              BettingSimulator.BetOver "Blind Bet" in
  BettingSimulator.won BettingSimulator.BetOver m = true
  /\ BettingSimulator.wins t' = 1
  /\ BettingSimulator.profit t' = 0 + 100 * (1.91 - 1).
Proof.
  pose proof (proj1 settlement_and_roi Samples.blindOver BettingSimulator.emptyTally
                (@Utils.processMatch Samples.host Samples.game1)
                BettingSimulator.BetOver "Blind Bet") as W.
  destruct W as [_ [_ [Hwin _]]].
  split; [vm_compute; reflexivity|].
  split; apply Hwin; vm_compute; reflexivity.
Defined.

(** C2, as stated, fails on its example: the two-bet run ends with a profit
    that is not -9 and an ROI that is not -4.5. *)
Lemma roi_example_is_inexact :
  let r := @BettingSimulator.calculateBacktestROI Samples.host Samples.blindOver in
  BettingSimulator.r_wins r = 1 /\ BettingSimulator.r_losses r = 1
  /\ BettingSimulator.wager Samples.blindOver = 100
  /\ map (fun e => Types.overOdds e)
       (@BettingSimulator.filteredMatches Samples.host Samples.blindOver) = [1.91; 1.91]
  /\ (BettingSimulator.r_profit r =? -9) = false
  /\ (BettingSimulator.r_roi r =? -4.5) = false.
Proof. repeat split; vm_compute; reflexivity. Qed.

(** ** The strategies *)

Section Strategies.
Import Types BettingSimulator Vocabulary.
Context `{Host}.

(** The league average is the average total of the whole active data set. *)
Lemma leagueAvg_spec (st : State) : leagueAvg st = averageTotal (backtestMatches st).
Proof. reflexivity. Qed.

Lemma reversion_signal (st : State) (m : ProcessedMatch) :
  strategy st = LEAGUE_AVG_REVERSION ->
  betType (signal st m) = reversionPick (leagueAvg st) (valueMargin st) (line m)
  /\ shouldBet (signal st m)
     = match reversionPick (leagueAvg st) (valueMargin st) (line m) with
       | Some _ => true
       | None => false
       end.
Proof.
  intros Hs. unfold signal, reversionPick. rewrite Hs.
  destruct (leagueAvg st + valueMargin st <? line m); [split; reflexivity|].
  destruct (line m <? leagueAvg st - valueMargin st); split; reflexivity.
Qed.

(** A match without signal leaves the counters as they are. *)
Lemma evaluate_no_bet (st : State) (t : Tally) (m : ProcessedMatch) :
  betType (signal st m) = None -> evaluate st t m = t.
Proof.
  intros Hb. unfold evaluate. rewrite Hb. now destruct (shouldBet (signal st m)).
Qed.

Lemma evaluate_bet (st : State) (t : Tally) (m : ProcessedMatch) (b : BetType) :
  betType (signal st m) = Some b -> shouldBet (signal st m) = true ->
  evaluate st t m = settle st t m b (signalReason (signal st m)).
Proof.
  intros Hb Hs. unfold evaluate. now rewrite Hb, Hs.
Qed.

(** C3 (as amended).  Under the reversion strategy the league average is
    the average total of the whole active data set, taken before the team
    and date filters (230 for an empty set); a match is bet Under when its
    line is above average plus margin, Over when it is below average minus
    margin, and not bet otherwise.  With an average of 230 and a margin of 5
    a line of 236 gives Under, 224 gives Over and 230 no bet. *)
Theorem reversion_uses_active_dataset (st : State) (t : Tally) (m : ProcessedMatch) :
  strategy st = LEAGUE_AVG_REVERSION ->
  leagueAvg st = averageTotal (backtestMatches st)
  /\ ((leagueAvg st + valueMargin st <? line m) = true ->
      exists reason, evaluate st t m = settle st t m BetUnder reason)
  /\ ((leagueAvg st + valueMargin st <? line m) = false ->
      (line m <? leagueAvg st - valueMargin st) = true ->
      exists reason, evaluate st t m = settle st t m BetOver reason)
  /\ ((leagueAvg st + valueMargin st <? line m) = false ->
      (line m <? leagueAvg st - valueMargin st) = false ->
      evaluate st t m = t)
  /\ (leagueAvg st = 230 -> valueMargin st = 5 ->
      (line m = 236 -> exists reason, evaluate st t m = settle st t m BetUnder reason)
      /\ (line m = 224 -> exists reason, evaluate st t m = settle st t m BetOver reason)
      /\ (line m = 230 -> evaluate st t m = t)).
Proof.
  intros Hs. destruct (reversion_signal st m Hs) as [Hb Hsh].
  unfold reversionPick in Hb, Hsh.
  assert (Hunder : (leagueAvg st + valueMargin st <? line m) = true ->
                   exists reason, evaluate st t m = settle st t m BetUnder reason).
  { intros C. rewrite C in Hb, Hsh. eexists. now apply evaluate_bet. }
  assert (Hover : (leagueAvg st + valueMargin st <? line m) = false ->
                  (line m <? leagueAvg st - valueMargin st) = true ->
                  exists reason, evaluate st t m = settle st t m BetOver reason).
  { intros C1 C2. rewrite C1, C2 in Hb, Hsh. eexists. now apply evaluate_bet. }
  assert (Hnone : (leagueAvg st + valueMargin st <? line m) = false ->
                  (line m <? leagueAvg st - valueMargin st) = false ->
                  evaluate st t m = t).
  { intros C1 C2. rewrite C1, C2 in Hb. now apply evaluate_no_bet. }
  split; [apply leagueAvg_spec|]. split; [exact Hunder|]. split; [exact Hover|].
  split; [exact Hnone|].
  intros Havg Hmargin. rewrite Havg, Hmargin in Hunder, Hover, Hnone.
  split; [|split]; intros Hl; rewrite Hl in Hunder, Hover, Hnone.
  - apply Hunder. reflexivity.
  - apply Hover; reflexivity.
  - apply Hnone; reflexivity.
Qed.

(** C4.  Under the efficiency strategy, for a match both of whose teams have
    aggregate stats, an Over bet is placed exactly when the mean of the two
    average FG% is strictly above the threshold; a mean equal to the
    threshold places no bet. *)
Theorem efficiency_strictly_above (st : State) (t : Tally) (m : ProcessedMatch)
    (home away : TeamStats) :
  strategy st = HIGH_EFFICIENCY_OVER ->
  getTeamStats st (homeTeam m) = Some home ->
  getTeamStats st (awayTeam m) = Some away ->
  let combinedFG := (avgFG_Pct home + avgFG_Pct away) / 2 in
  ((betType (signal st m) = Some BetOver /\ shouldBet (signal st m) = true)
   <-> (efficiencyThreshold st <? combinedFG) = true)
  /\ ((efficiencyThreshold st <? combinedFG) = true ->
      exists reason, evaluate st t m = settle st t m BetOver reason)
  /\ ((efficiencyThreshold st <? combinedFG) = false -> evaluate st t m = t)
  /\ ((combinedFG =? efficiencyThreshold st) = true -> evaluate st t m = t).
Proof.
  intros Hs Hhome Haway combinedFG.
  assert (Hsig : signal st m
                 = if efficiencyThreshold st <? combinedFG
                   then {| betType := Some BetOver; shouldBet := true;
                           signalReason :=
                             "Combined FG% " ++ toFixed combinedFG 1 ++ "% > " ++
                             numberToString (efficiencyThreshold st) ++ "%" |}
                   else noSignal).
  { unfold signal. rewrite Hs, Hhome, Haway. reflexivity. }
  assert (Hnone : (efficiencyThreshold st <? combinedFG) = false -> evaluate st t m = t).
  { intros C. apply evaluate_no_bet. rewrite Hsig, C. reflexivity. }
  split; [|split; [|split]].
  - rewrite Hsig. destruct (efficiencyThreshold st <? combinedFG); simpl.
    + tauto.
    + split; [intros [E _]; discriminate|discriminate].
  - intros C. eexists. apply evaluate_bet; rewrite Hsig, C; reflexivity.
  - exact Hnone.
  - intros Heq. apply Hnone. apply eqb_not_ltb in Heq. tauto.
Qed.

End Strategies.

(** The sample data set has totals 200 and 260; its second game has the
    line 236 and is bet Under. *)
Lemma reversion_uses_active_dataset_witness :
  let st := Samples.reversion "ALL" in
  let m := @Utils.processMatch Samples.host Samples.hawksGame in
  BettingSimulator.leagueAvg st = 230 /\ Types.line m = 236
  /\ exists reason,
      @BettingSimulator.evaluate Samples.host st BettingSimulator.emptyTally m
      = BettingSimulator.settle st BettingSimulator.emptyTally m
          BettingSimulator.BetUnder reason.
Proof.
  split; [vm_compute; reflexivity|]. split; [reflexivity|].
  refine (proj1 (proj2 (proj2 (proj2 (proj2
            (@reversion_uses_active_dataset Samples.host (Samples.reversion "ALL")
               BettingSimulator.emptyTally
               (@Utils.processMatch Samples.host Samples.hawksGame) eq_refl)))) _ _) _);
    vm_compute; reflexivity.
Defined.

(** C3, as stated, fails: with the team filter set, the average of the
    filtered matches is 200 and would give Under for the line 220, while the
    program compares the line with the average 230 of the whole data set and
    bets Over. *)
Lemma reversion_ignores_filters :
  let st := Samples.reversion "Utah Jazz" in
  let m := @Utils.processMatch Samples.host Samples.jazzGame in
  @BettingSimulator.filteredMatches Samples.host st = [m]
  /\ Vocabulary.averageTotal (@BettingSimulator.filteredMatches Samples.host st) = 200
  /\ Vocabulary.reversionPick 200 (BettingSimulator.valueMargin st) (Types.line m)
     = Some BettingSimulator.BetUnder
  /\ BettingSimulator.betType (@BettingSimulator.signal Samples.host st m)
     = Some BettingSimulator.BetOver
  /\ BettingSimulator.r_leagueAvg (@BettingSimulator.calculateBacktestROI Samples.host st)
     = 230.
Proof. repeat split; vm_compute; reflexivity. Qed.

(** On the sample game the two teams average 50% and 45%: a threshold of
    46.5 places the Over bet, a threshold of 47.5 does not. *)
Lemma efficiency_strictly_above_witness :
  let m := @Utils.processMatch Samples.host Samples.game5 in
  (exists reason,
      @BettingSimulator.evaluate Samples.host (Samples.efficiency 46.5)
        BettingSimulator.emptyTally m
      = BettingSimulator.settle (Samples.efficiency 46.5) BettingSimulator.emptyTally m
          BettingSimulator.BetOver reason)
  /\ @BettingSimulator.evaluate Samples.host (Samples.efficiency 47.5)
       BettingSimulator.emptyTally m = BettingSimulator.emptyTally.
Proof.
  split.
  - refine (proj1 (proj2
              (@efficiency_strictly_above Samples.host (Samples.efficiency 46.5)
                 BettingSimulator.emptyTally
                 (@Utils.processMatch Samples.host Samples.game5) _ _
                 eq_refl eq_refl eq_refl)) _).
    vm_compute. reflexivity.
  - refine (proj2 (proj2 (proj2
              (@efficiency_strictly_above Samples.host (Samples.efficiency 47.5)
                 BettingSimulator.emptyTally
                 (@Utils.processMatch Samples.host Samples.game5) _ _
                 eq_refl eq_refl eq_refl))) _).
    vm_compute. reflexivity.
Defined.

(** * Further properties *)

(** ** Objects used as dictionaries *)

Section Dictionaries.
Import Terms.
Context {V : Type}.

Lemma mem_In (k : string) (l : list string) : mem k l = true <-> In k l.
Proof.
  unfold mem. rewrite existsb_exists. split.
  - intros [x [Hx E]]. apply String.eqb_eq in E. now subst.
  - intros Hk. exists k. split; [exact Hk|apply String.eqb_refl].
Qed.

Lemma get_mem (o : JS.object V) (k : string) :
  mem k (keys o) = match JS.get o k with Some _ => true | None => false end.
Proof.
  induction o as [|[k0 v0] o IH]; simpl; [reflexivity|].
  rewrite (String.eqb_sym k k0). destruct (String.eqb k0 k); [reflexivity|exact IH].
Qed.

Lemma get_set_same (o : JS.object V) (k : string) (v : V) :
  JS.get (JS.set o k v) k = Some v.
Proof.
  induction o as [|[k0 v0] o IH]; simpl.
  - now rewrite String.eqb_refl.
  - destruct (String.eqb k0 k) eqn:E; simpl; rewrite E; [reflexivity|exact IH].
Qed.

Lemma keys_set (o : JS.object V) (k : string) (v : V) :
  keys (JS.set o k v) = if mem k (keys o) then keys o else (keys o ++ [k])%list.
Proof.
  induction o as [|[k0 v0] o IH]; simpl; [reflexivity|].
  rewrite (String.eqb_sym k k0).
  destruct (String.eqb k0 k) eqn:E; simpl; [reflexivity|].
  unfold keys in *. rewrite IH. now destruct (mem k (map fst o)).
Qed.

Lemma In_get (o : JS.object V) (k : string) (v : V) :
  NoDup (keys o) -> In (k, v) o -> JS.get o k = Some v.
Proof.
  induction o as [|[k0 v0] o IH]; simpl; [tauto|].
  intros Hnd [E|Hin].
  - inversion E; subst. now rewrite String.eqb_refl.
  - inversion Hnd as [|? ? Hnot Hnd']; subst.
    destruct (String.eqb_spec k0 k) as [->|_].
    + exfalso. apply Hnot. change k with (fst (k, v)). now apply in_map.
    + now apply IH.
Qed.

Lemma get_In (o : JS.object V) (k : string) (v : V) :
  JS.get o k = Some v -> In (k, v) o.
Proof.
  induction o as [|[k0 v0] o IH]; simpl; [discriminate|].
  destruct (String.eqb_spec k0 k) as [->|_].
  - intros E. inversion E. now left.
  - intros E. right. now apply IH.
Qed.

End Dictionaries.

Section FirstSeen.
Import Terms.

Lemma firstSeen_In (l acc : list string) (k : string) :
  In k (firstSeen acc l) <-> In k acc \/ In k l.
Proof.
  revert acc. induction l as [|x l IH]; intros acc; simpl.
  - tauto.
  - unfold firstSeen in *. simpl. rewrite IH.
    destruct (mem x acc) eqn:E.
    + apply mem_In in E. split; [tauto|].
      intros [H|[H|H]]; subst; tauto.
    + rewrite in_app_iff. simpl. tauto.
Qed.

Lemma firstSeen_NoDup (l acc : list string) :
  NoDup acc -> NoDup (firstSeen acc l).
Proof.
  revert acc. induction l as [|x l IH]; intros acc Hacc; simpl; [exact Hacc|].
  unfold firstSeen in *. simpl. apply IH.
  destruct (mem x acc) eqn:E; [exact Hacc|].
  apply NoDup_app; [exact Hacc|constructor; [tauto|constructor]|].
  intros y Hy [Hx|[]]. subst y.
  apply mem_In in Hy. congruence.
Qed.

Lemma firstSeen_app (l1 l2 acc : list string) :
  firstSeen acc (l1 ++ l2) = firstSeen (firstSeen acc l1) l2.
Proof. unfold firstSeen. apply fold_left_app. Qed.

End FirstSeen.
(** ** Rounding, order and differences of numbers *)

Section Rounding.
Local Open Scope Z_scope.

Lemma valid_finite (s : bool) (m : positive) (e : Z) :
  valid_binary (S754_finite s m e) = true ->
  Z.pos (digits2_pos m) <= 53 /\ SpecFloat.emin prec emax <= e
  /\ (Z.pos (digits2_pos m) = 53 \/ e = SpecFloat.emin prec emax).
Proof.
  cbn [valid_binary]. unfold bounded, canonical_mantissa. intros H.
  apply andb_true_iff in H. destruct H as [H _]. apply Z.eqb_eq in H.
  unfold fexp, SpecFloat.emin, prec, emax in *. lia.
Qed.

Lemma shl_align_value (m : positive) (e ez : Z) :
  ez <= e -> Z.pos (fst (shl_align m e ez)) = Z.pos m * 2 ^ (e - ez).
Proof.
  intros H. unfold shl_align.
  destruct (ez - e) as [|k|k] eqn:Ek; cbn [fst].
  - replace (e - ez) with 0 by lia. lia.
  - lia.
  - rewrite iter_xO_value. f_equal. f_equal. lia.
Qed.

(** The scaled integer of a finite number, at a common exponent [ez]. *)
Lemma magnitude_order (ma mb : positive) (ea eb : Z) :
  valid_binary (S754_finite false ma ea) = true ->
  valid_binary (S754_finite false mb eb) = true ->
  let ez := Z.min ea eb in
  match (ea ?= eb) with
  | Lt => Lt
  | Gt => Gt
  | Eq => Pos.compare_cont Eq ma mb
  end
  = (Z.pos (fst (shl_align ma ea ez)) ?= Z.pos (fst (shl_align mb eb ez))).
Proof.
  intros Va Vb ez.
  apply valid_finite in Va. apply valid_finite in Vb.
  pose proof (digits2_pos_bounds ma) as Da.
  pose proof (digits2_pos_bounds mb) as Db.
  rewrite !shl_align_value by (unfold ez; lia).
  destruct (Z.compare_spec ea eb) as [E|E|E].
  - subst eb. unfold ez. rewrite Z.min_id, Z.sub_diag, !Z.mul_1_r.
    reflexivity.
  - symmetry. apply Z.compare_lt_iff.
    unfold ez. rewrite Z.min_l by lia. rewrite Z.sub_diag, Z.mul_1_r.
    assert (Hdb : Z.pos (digits2_pos mb) = 53) by lia.
    rewrite Hdb in Db.
    assert (Hda : Z.pos ma < 2 ^ 53).
    { apply Z.lt_le_trans with (2 ^ Z.pos (digits2_pos ma)); [lia|].
      apply Z.pow_le_mono_r; lia. }
    assert (Hp : 2 ^ 1 <= 2 ^ (eb - ea)) by (apply Z.pow_le_mono_r; lia).
    change (2 ^ (53 - 1)) with 4503599627370496 in Db.
    change (2 ^ 53) with 9007199254740992 in *.
    change (2 ^ 1) with 2 in Hp. nia.
  - symmetry. apply Z.compare_gt_iff.
    unfold ez. rewrite Z.min_r by lia. rewrite Z.sub_diag, Z.mul_1_r.
    assert (Hda : Z.pos (digits2_pos ma) = 53) by lia.
    rewrite Hda in Da.
    assert (Hdb : Z.pos mb < 2 ^ 53).
    { apply Z.lt_le_trans with (2 ^ Z.pos (digits2_pos mb)); [lia|].
      apply Z.pow_le_mono_r; lia. }
    assert (Hp : 2 ^ 1 <= 2 ^ (ea - eb)) by (apply Z.pow_le_mono_r; lia).
    change (2 ^ (53 - 1)) with 4503599627370496 in Da.
    change (2 ^ 53) with 9007199254740992 in *.
    change (2 ^ 1) with 2 in Hp. nia.
Qed.

Lemma SFcompare_finite (sa sb : bool) (ma mb : positive) (ea eb : Z) :
  valid_binary (S754_finite sa ma ea) = true ->
  valid_binary (S754_finite sb mb eb) = true ->
  let ez := Z.min ea eb in
  SFcompare (S754_finite sa ma ea) (S754_finite sb mb eb)
  = Some (cond_Zopp sa (Z.pos (fst (shl_align ma ea ez)))
          ?= cond_Zopp sb (Z.pos (fst (shl_align mb eb ez)))).
Proof.
  intros Va Vb ez. cbn [SFcompare]. f_equal.
  pose proof (magnitude_order ma mb ea eb Va Vb) as H. cbv zeta in H. fold ez in H.
  destruct sa, sb; cbn [cond_Zopp].
  - rewrite Z.compare_opp.
    rewrite (Z.compare_antisym (Z.pos (fst (shl_align ma ea ez)))), <- H.
    destruct (ea ?= eb); reflexivity.
  - reflexivity.
  - reflexivity.
  - exact H.
Qed.

(** For numbers that are not [NaN], a difference is positive exactly when
    its first operand is the larger one: subtraction never rounds a difference
    away. *)
Lemma SFsub_positive (a b : spec_float) :
  valid_binary a = true -> valid_binary b = true ->
  a <> S754_nan -> b <> S754_nan ->
  SFltb (S754_zero false) (SFsub prec emax b a) = SFltb a b.
Proof.
  intros Va Vb Na Nb.
  destruct a as [sa|sa| |sa ma ea]; [| |contradiction|];
    (destruct b as [sb|sb| |sb mb eb]; [| |contradiction|]);
    try (destruct sa, sb; reflexivity); try (destruct sa; reflexivity);
    try (destruct sb; reflexivity).
  unfold SFltb. rewrite (SFcompare_finite sa sb ma mb ea eb Va Vb). cbv zeta.
  cbn [SFsub]. rewrite (Z.min_comm eb ea).
  set (ez := Z.min ea eb).
  set (A := cond_Zopp sa (Z.pos (fst (shl_align ma ea ez)))).
  set (B := cond_Zopp sb (Z.pos (fst (shl_align mb eb ez)))).
  assert (He : SpecFloat.emin prec emax <= ez).
  { apply valid_finite in Va. apply valid_finite in Vb. unfold ez. lia. }
  destruct (Z.compare_spec A B) as [E|E|E].
  - replace (B - A) with 0 by lia. reflexivity.
  - destruct (B - A) as [|d|d] eqn:Ed; try lia. cbn [binary_normalize].
    destruct (binary_round_positive false d ez He) as [[m' [e' R]]|R]; rewrite R; reflexivity.
  - destruct (B - A) as [|d|d] eqn:Ed; try lia. cbn [binary_normalize].
    destruct (binary_round_positive true d ez He) as [[m' [e' R]]|R]; rewrite R; reflexivity.
Qed.

Lemma sub_positive (x y : float) :
  Prim2SF x <> S754_nan -> Prim2SF y <> S754_nan ->
  (0 <? y - x)%float = (x <? y)%float.
Proof.
  intros Nx Ny.
  rewrite !FloatAxioms.ltb_spec, sub_spec.
  change (Prim2SF 0) with (S754_zero false).
  apply SFsub_positive; auto using Prim2SF_valid.
Qed.

Lemma SFcompare_Eq_l (x y z : spec_float) :
  SFcompare x y = Some Eq -> SFcompare x z = SFcompare y z.
Proof.
  destruct x as [sx|sx| |sx mx ex], y as [sy|sy| |sy my ey]; cbn [SFcompare];
    try discriminate; try (destruct sx; discriminate); try (destruct sy; discriminate).
  - intros _. destruct z; reflexivity.
  - destruct sx, sy; try discriminate; reflexivity.
  - intros H.
    assert (E : sx = sy /\ ex = ey /\ mx = my).
    { destruct sx, sy; try discriminate;
        destruct (Z.compare_spec ex ey); try discriminate;
        (split; [reflexivity|split; [assumption|]]);
        apply Pos.compare_eq;
        change (Pos.compare_cont Eq mx my) with (Pos.compare mx my) in H;
        destruct (Pos.compare mx my); try discriminate; reflexivity. }
    destruct E as [-> [-> ->]]. reflexivity.
Qed.

Lemma SFcompare_Eq_r (x y z : spec_float) :
  SFcompare y z = Some Eq -> SFcompare x y = SFcompare x z.
Proof.
  intros H.
  assert (H' : SFcompare z y = Some Eq) by (rewrite SFcompare_antisym, H; reflexivity).
  rewrite (SFcompare_antisym y x), (SFcompare_antisym z x).
  now rewrite (SFcompare_Eq_l z y x H').
Qed.

End Rounding.

Section Differences.

Lemma leb_SFcompare (x y : float) :
  (x <=? y) = true
  <-> SFcompare (Prim2SF x) (Prim2SF y) = Some Lt
      \/ SFcompare (Prim2SF x) (Prim2SF y) = Some Eq.
Proof.
  rewrite FloatAxioms.leb_spec. unfold SFleb.
  destruct (SFcompare (Prim2SF x) (Prim2SF y)) as [[ | | ]|]; split;
    intros; try tauto; try discriminate; destruct H; discriminate.
Qed.

Lemma eqb_leb (x y : float) : (x =? y) = true -> (x <=? y) = true.
Proof. intros H. apply leb_SFcompare. right. now apply eqb_SFcompare. Qed.

Lemma ltb_leb (x y : float) : (x <? y) = true -> (x <=? y) = true.
Proof. intros H. apply leb_SFcompare. left. now apply ltb_SFcompare. Qed.

Lemma SFcompare_same (x : spec_float) : x <> S754_nan -> SFcompare x x = Some Eq.
Proof.
  destruct x as [s|s| |s m e]; simpl; intros Hx; try congruence.
  - destruct s; reflexivity.
  - rewrite Z.compare_refl.
    change (Pos.compare_cont Eq m m) with (Pos.compare m m).
    rewrite Pos.compare_refl. destruct s; reflexivity.
Qed.

Lemma is_nan_Prim2SF (x : float) : is_nan x = true -> Prim2SF x = S754_nan.
Proof.
  unfold is_nan. intros Hx. apply negb_true_iff in Hx.
  destruct (Prim2SF x) as [s|s| |s m e] eqn:E; try reflexivity; exfalso;
    assert (Heq : (x =? x) = true)
      by (apply eqb_SFcompare; rewrite E; apply SFcompare_same; discriminate);
    congruence.
Qed.

(** No comparison with [NaN] holds. *)
Lemma leb_nan (x y : float) :
  is_nan x = true \/ is_nan y = true -> (x <=? y) = false.
Proof.
  intros Hn. destruct (x <=? y) eqn:E; [exfalso|reflexivity].
  apply leb_SFcompare in E.
  destruct Hn as [Hn|Hn]; apply is_nan_Prim2SF in Hn; rewrite Hn in E;
    [|destruct (Prim2SF x)]; simpl in E; destruct E; discriminate.
Qed.

Lemma leb_trans (x y z : float) :
  (x <=? y) = true -> (y <=? z) = true -> (x <=? z) = true.
Proof.
  rewrite !leb_SFcompare. intros [Hxy|Hxy] [Hyz|Hyz].
  - left. now apply SFcompare_Lt_trans with (Prim2SF y).
  - left. now rewrite <- (SFcompare_Eq_r _ _ _ Hyz).
  - left. now rewrite (SFcompare_Eq_l _ _ _ Hxy).
  - right. now rewrite (SFcompare_Eq_l _ _ _ Hxy).
Qed.

Lemma leb_refl (x : float) : is_nan x = false -> (x <=? x) = true.
Proof.
  intros Hx. apply leb_SFcompare. right. apply SFcompare_same. now apply is_nan_SF.
Qed.

(** Numbers that are not [NaN] are comparable. *)
Lemma not_ltb_leb (x y : float) :
  is_nan x = false -> is_nan y = false -> (x <? y) = false -> (y <=? x) = true.
Proof.
  intros Hx Hy Hxy. destruct (y <? x) eqn:Hyx.
  - now apply ltb_leb.
  - apply eqb_leb. apply trichotomy; assumption.
Qed.

(** The sign of a difference of numbers that are not [NaN]. *)
Lemma sub_positive_ltb (x y : float) :
  is_nan x = false -> is_nan y = false -> (0 <? y - x) = (x <? y).
Proof. intros Hx Hy. apply sub_positive; now apply is_nan_SF. Qed.

End Differences.
(** ** Enumeration of own properties *)

Section EnumerationOrder.
Context {A : Type} (key : A -> string).

Lemma insert_by_index_perm (x : A) (l : list A) :
  Permutation (x :: l) (JS.insert_by_index key x l).
Proof.
  induction l as [|y l IH]; simpl; [reflexivity|].
  destruct (JS.index_of key x <? JS.index_of key y)%N; [reflexivity|].
  rewrite perm_swap. now constructor.
Qed.

Lemma filter_split (f : A -> bool) (l : list A) :
  Permutation l (filter f l ++ filter (fun x => negb (f x)) l).
Proof.
  induction l as [|x l IH]; simpl; [reflexivity|].
  destruct (f x); simpl.
  - now constructor.
  - now apply Permutation_cons_app.
Qed.

Lemma by_index_perm (l : list A) :
  Permutation l (fold_right (JS.insert_by_index key) [] l).
Proof.
  induction l as [|x l IH]; simpl; [reflexivity|].
  rewrite <- insert_by_index_perm. now constructor.
Qed.

(** Enumeration rearranges the properties and loses none. *)
Lemma enumeration_perm (l : list A) : Permutation l (JS.enumeration key l).
Proof.
  unfold JS.enumeration. rewrite <- by_index_perm. apply filter_split.
Qed.

Lemma enumeration_In (x : A) (l : list A) : In x (JS.enumeration key l) <-> In x l.
Proof.
  split; apply Permutation_in; [symmetry|]; apply enumeration_perm.
Qed.

(** Without array indices among the keys, the order is that of creation. *)
Lemma enumeration_plain (l : list A) :
  (forall x, In x l -> JS.array_index (key x) = None) -> JS.enumeration key l = l.
Proof.
  intros Hl. unfold JS.enumeration.
  assert (H1 : filter (JS.has_index key) l = []).
  { induction l as [|x l IH]; simpl; [reflexivity|].
    unfold JS.has_index at 1. rewrite (Hl x (or_introl eq_refl)).
    apply IH. intros y Hy. apply Hl. now right. }
  assert (H2 : filter (fun x => negb (JS.has_index key x)) l = l).
  { induction l as [|x l IH]; simpl; [reflexivity|].
    unfold JS.has_index at 1. rewrite (Hl x (or_introl eq_refl)). simpl.
    f_equal. apply IH.
    - intros y Hy. apply Hl. now right.
    - simpl in H1. unfold JS.has_index at 1 in H1.
      now rewrite (Hl x (or_introl eq_refl)) in H1. }
  now rewrite H1, H2.
Qed.

Lemma insert_by_index_map (x : A) (l : list A) :
  map key (JS.insert_by_index key x l)
  = JS.insert_by_index (fun k => k) (key x) (map key l).
Proof.
  induction l as [|y l IH]; simpl; [reflexivity|].
  change (JS.index_of (fun k => k) (key x)) with (JS.index_of key x).
  change (JS.index_of (fun k => k) (key y)) with (JS.index_of key y).
  destruct (JS.index_of key x <? JS.index_of key y)%N; simpl; [reflexivity|].
  now rewrite IH.
Qed.

Lemma filter_map_key (f : string -> bool) (l : list A) :
  map key (filter (fun x => f (key x)) l) = filter f (map key l).
Proof.
  induction l as [|x l IH]; simpl; [reflexivity|].
  destruct (f (key x)); simpl; now rewrite IH.
Qed.

(** The keys are enumerated as the properties are. *)
Lemma enumeration_map (l : list A) :
  map key (JS.enumeration key l) = JS.enumeration (fun k => k) (map key l).
Proof.
  unfold JS.enumeration. rewrite map_app. f_equal.
  - rewrite <- (filter_map_key (JS.has_index (fun k => k))).
    change (fun x => JS.has_index (fun k => k) (key x)) with (JS.has_index key).
    induction (filter (JS.has_index key) l) as [|x l' IH]; simpl; [reflexivity|].
    now rewrite insert_by_index_map, IH.
  - exact (filter_map_key (fun k => negb (JS.has_index (fun k => k) k)) l).
Qed.

(** The properties with an array index come first, by ascending index, and
    the others follow in the order of their creation. *)
Lemma insert_by_index_sorted (x : A) (l : list A) :
  StronglySorted (fun a b => (JS.index_of key a <= JS.index_of key b)%N) l ->
  StronglySorted (fun a b => (JS.index_of key a <= JS.index_of key b)%N)
    (JS.insert_by_index key x l).
Proof.
  induction 1 as [|y l Hl IH Hy]; simpl.
  - repeat constructor.
  - destruct (N.ltb_spec (JS.index_of key x) (JS.index_of key y)) as [E|E].
    + constructor; [now constructor|]. constructor; [lia|].
      rewrite Forall_forall in *. intros z Hz. specialize (Hy z Hz). lia.
    + constructor; [exact IH|].
      apply Forall_forall. intros z Hz.
      apply (Permutation_in z (Permutation_sym (insert_by_index_perm x l))) in Hz.
      destruct Hz as [<-|Hz]; [exact E|].
      rewrite Forall_forall in Hy. now apply Hy.
Qed.

Lemma enumeration_indices_first (l : list A) :
  exists indexed,
    JS.enumeration key l = (indexed ++ filter (fun x => negb (JS.has_index key x)) l)%list
    /\ Permutation indexed (filter (JS.has_index key) l)
    /\ StronglySorted (fun a b => (JS.index_of key a <= JS.index_of key b)%N) indexed.
Proof.
  exists (fold_right (JS.insert_by_index key) [] (filter (JS.has_index key) l)).
  split; [reflexivity|]. split; [symmetry; apply by_index_perm|].
  induction (filter (JS.has_index key) l) as [|x l' IH]; simpl; [constructor|].
  now apply insert_by_index_sorted.
Qed.

End EnumerationOrder.

Section ObjectValues.
Import Terms.
Context {V : Type}.

Lemma entries_keys (o : JS.object V) : map fst (JS.entries o) = enumerated (keys o).
Proof. apply enumeration_map. Qed.

Lemma entries_In (e : string * V) (o : JS.object V) : In e (JS.entries o) <-> In e o.
Proof. apply enumeration_In. Qed.

Lemma values_In (v : V) (o : JS.object V) :
  In v (JS.values o) <-> exists k, In (k, v) o.
Proof.
  unfold JS.values. rewrite in_map_iff. split.
  - intros [[k v'] [E Hin]]. simpl in E. subst v'. exists k. now apply entries_In.
  - intros [k Hin]. exists (k, v). split; [reflexivity|now apply entries_In].
Qed.

End ObjectValues.

(** ** Sorted arrays *)

(** [JS.sort] arranges the elements by a comparator; where the comparator
    orders the elements, here those that satisfy [P], by a transitive relation
    [R], every element of the result stands in [R] to all that follow it. *)
Section SortedArrays.
Context {A : Type} (cmp : A -> A -> float) (P : A -> Prop) (R : A -> A -> Prop).
Hypothesis cmp_after : forall x y, P x -> P y -> (0 <? cmp x y) = true -> R y x.
Hypothesis cmp_before : forall x y, P x -> P y -> (0 <? cmp x y) = false -> R x y.
Hypothesis R_trans : forall x y z, R x y -> R y z -> R x z.

Lemma insert_StronglySorted (x : A) (l : list A) :
  P x -> Forall P l -> StronglySorted R l -> StronglySorted R (JS.insert cmp x l).
Proof.
  intros Px Pl Hl. induction Hl as [|y l Hl IH Hy]; simpl.
  - repeat constructor.
  - apply Forall_cons_iff in Pl. destruct Pl as [Py Pl].
    destruct (0 <? cmp x y) eqn:E.
    + constructor; [now apply IH|].
      apply Forall_forall. intros z Hz.
      apply (Permutation_in z (insert_perm cmp x l)) in Hz.
      destruct Hz as [<-|Hz].
      * now apply cmp_after.
      * rewrite Forall_forall in Hy. now apply Hy.
    + constructor; [now constructor|].
      assert (Rxy : R x y) by now apply cmp_before.
      constructor; [exact Rxy|].
      apply Forall_forall. intros z Hz. rewrite Forall_forall in Hy.
      apply R_trans with y; auto.
Qed.

Lemma sort_StronglySorted (l : list A) :
  Forall P l -> StronglySorted R (JS.sort cmp l).
Proof.
  induction 1 as [|x l Px Pl IH]; simpl; [constructor|].
  apply insert_StronglySorted; [exact Px| |exact IH].
  apply Forall_forall. intros z Hz. apply (proj1 (sort_In cmp z l)) in Hz.
  rewrite Forall_forall in Pl. now apply Pl.
Qed.

End SortedArrays.

Section SortedByKey.
Context {A : Type} (key : A -> float).

(** [sort((a, b) => key(b) - key(a))]: largest key first. *)
Lemma sort_descending (l : list A) :
  Forall (fun a => is_nan (key a) = false) l ->
  StronglySorted (fun a b => (key b <=? key a) = true)
    (JS.sort (fun a b => key b - key a) l).
Proof.
  apply sort_StronglySorted.
  - intros x y Hx Hy H. rewrite sub_positive_ltb in H by assumption. now apply ltb_leb.
  - intros x y Hx Hy H. rewrite sub_positive_ltb in H by assumption.
    now apply not_ltb_leb.
  - intros x y z Hxy Hyz. now apply leb_trans with (key y).
Qed.

(** [sort((a, b) => key(a) - key(b))]: smallest key first. *)
Lemma sort_ascending (l : list A) :
  Forall (fun a => is_nan (key a) = false) l ->
  StronglySorted (fun a b => (key a <=? key b) = true)
    (JS.sort (fun a b => key a - key b) l).
Proof.
  apply sort_StronglySorted.
  - intros x y Hx Hy H. rewrite sub_positive_ltb in H by assumption. now apply ltb_leb.
  - intros x y Hx Hy H. rewrite sub_positive_ltb in H by assumption.
    now apply not_ltb_leb.
  - intros x y z Hxy Hyz. now apply leb_trans with (key y).
Qed.

End SortedByKey.

Lemma StronglySorted_hd {A : Type} (R : A -> A -> Prop) (l : list A) (x y : A) :
  (forall a, In a l -> R a a) ->
  StronglySorted R l -> hd_error l = Some x -> In y l -> R x y.
Proof.
  intros Hrefl Hs Hx Hy. destruct l as [|x0 l]; [discriminate|].
  simpl in Hx. inversion Hx; subst x0. inversion Hs as [|? ? _ Hall]; subst.
  destruct Hy as [<-|Hy].
  - apply Hrefl. now left.
  - rewrite Forall_forall in Hall. now apply Hall.
Qed.

Lemma StronglySorted_firstn {A : Type} (R : A -> A -> Prop) (n : nat) (l : list A) :
  StronglySorted R l -> StronglySorted R (firstn n l).
Proof.
  intros Hs. revert n. induction Hs as [|x l Hl IH Hx]; intros [|n]; simpl;
    try constructor; [apply IH|].
  apply Forall_forall. intros y Hy. rewrite Forall_forall in Hx.
  apply Hx. now apply (slice0_In n).
Qed.

Lemma StronglySorted_map {A B : Type} (R : A -> A -> Prop) (R' : B -> B -> Prop)
    (f : A -> B) (l : list A) :
  (forall a b, R a b -> R' (f a) (f b)) ->
  StronglySorted R l -> StronglySorted R' (map f l).
Proof.
  intros Hf. induction 1 as [|x l Hl IH Hx]; simpl; constructor; [exact IH|].
  apply Forall_forall. intros y Hy. apply in_map_iff in Hy.
  destruct Hy as [a [<- Ha]]. rewrite Forall_forall in Hx. auto.
Qed.

Lemma skipn_incl {A : Type} (n : nat) (x : A) (l : list A) :
  In x (skipn n l) -> In x l.
Proof.
  revert l. induction n as [|n IH]; intros [|y l]; simpl; try tauto.
  intros Hin. right. now apply IH.
Qed.

Lemma StronglySorted_split {A : Type} (R : A -> A -> Prop) (n : nat) (l : list A) :
  StronglySorted R l ->
  forall a b, In a (firstn n l) -> In b (skipn n l) -> R a b.
Proof.
  intros Hs. revert n. induction Hs as [|x l Hl IH Hx]; intros [|n] a b Ha Hb;
    simpl in *; try contradiction.
  destruct Ha as [<-|Ha].
  - rewrite Forall_forall in Hx. apply Hx. now apply (skipn_incl n).
  - now apply (IH n).
Qed.
(** ** The team aggregator *)

Section TeamAggregator.
Import Types Aggregator Terms.

Lemma ordinary_app (l1 l2 : list string) :
  ordinary (l1 ++ l2) = (ordinary l1 ++ ordinary l2)%list.
Proof. apply filter_app. Qed.

Lemma ordinary_In (l : list string) (k : string) :
  In k (ordinary l) <-> JS.inherited k = false /\ In k l.
Proof.
  unfold ordinary. rewrite filter_In, negb_true_iff. tauto.
Qed.

Lemma named_set (teams : JS.object TeamStats) (k : string) (t : TeamStats) :
  named teams -> name t = k -> named (JS.set teams k t).
Proof.
  unfold named. intros Hn Ht. induction teams as [|[k0 t0] teams IH]; simpl.
  - constructor; [exact Ht|constructor].
  - apply Forall_cons_iff in Hn. destruct Hn as [H0 Hrest].
    destruct (String.eqb k0 k) eqn:E; constructor; auto.
    apply String.eqb_eq in E. simpl. congruence.
Qed.

Lemma named_get (teams : JS.object TeamStats) (k : string) (t : TeamStats) :
  named teams -> JS.get teams k = Some t -> name t = k.
Proof.
  intros Hn Hg. apply get_In in Hg.
  unfold named in Hn. rewrite Forall_forall in Hn. exact (Hn _ Hg).
Qed.

Lemma keys_ensure (teams : JS.object TeamStats) (k : string) :
  keys (ensure teams k) = firstSeen (keys teams) (ordinary [k]).
Proof.
  unfold ensure, firstSeen, ordinary; simpl.
  destruct (JS.get teams k) eqn:E.
  - destruct (JS.inherited k); simpl; [reflexivity|]. now rewrite get_mem, E.
  - destruct (JS.inherited k); simpl; [reflexivity|].
    rewrite keys_set, get_mem, E. reflexivity.
Qed.

Lemma keys_modify (teams : JS.object TeamStats) (k : string)
    (f : TeamStats -> TeamStats) :
  keys (modify teams k f) = keys teams.
Proof.
  unfold modify. destruct (JS.get teams k) eqn:E; [|reflexivity].
  now rewrite keys_set, get_mem, E.
Qed.

Lemma named_ensure (teams : JS.object TeamStats) (k : string) :
  named teams -> named (ensure teams k).
Proof.
  intros Hn. unfold ensure. destruct (JS.get teams k); [exact Hn|].
  destruct (JS.inherited k); [exact Hn|]. now apply named_set.
Qed.

Lemma named_modify (teams : JS.object TeamStats) (k : string)
    (f : TeamStats -> TeamStats) :
  (forall t, name (f t) = name t) -> named teams -> named (modify teams k f).
Proof.
  intros Hf Hn. unfold modify. destruct (JS.get teams k) eqn:E; [|exact Hn].
  apply named_set; [exact Hn|]. rewrite Hf. now apply named_get with teams.
Qed.

Lemma keys_addRecord (teams : JS.object TeamStats) (m : RawJSON.MatchData) :
  keys (addRecord teams m)
  = firstSeen (keys teams) (ordinary [RawJSON.home_team m; RawJSON.away_team m]).
Proof.
  unfold addRecord. rewrite !keys_modify. simpl fold_left.
  rewrite !keys_ensure, <- firstSeen_app, <- ordinary_app. reflexivity.
Qed.

Lemma named_addRecord (teams : JS.object TeamStats) (m : RawJSON.MatchData) :
  named teams -> named (addRecord teams m).
Proof.
  intros Hn. unfold addRecord.
  repeat apply named_modify; try reflexivity. simpl.
  now repeat apply named_ensure.
Qed.

Lemma keys_fold_addRecord (rawData : list RawJSON.MatchData)
    (teams : JS.object TeamStats) :
  keys (fold_left addRecord rawData teams)
  = firstSeen (keys teams) (ordinary (rawTeams rawData)).
Proof.
  revert teams. induction rawData as [|m rawData IH]; intros teams.
  - reflexivity.
  - cbn [fold_left]. rewrite IH, keys_addRecord. symmetry.
    change (rawTeams (m :: rawData))
      with ([RawJSON.home_team m; RawJSON.away_team m] ++ rawTeams rawData)%list.
    rewrite ordinary_app. apply firstSeen_app.
Qed.

Lemma named_fold_addRecord (rawData : list RawJSON.MatchData)
    (teams : JS.object TeamStats) :
  named teams -> named (fold_left addRecord rawData teams).
Proof.
  revert teams. induction rawData as [|m rawData IH]; intros teams Hn; simpl.
  - exact Hn.
  - now apply IH, named_addRecord.
Qed.

Lemma named_names (teams : JS.object TeamStats) :
  named teams -> map name (JS.values teams) = enumerated (keys teams).
Proof.
  intros Hn. unfold JS.values. rewrite map_map, <- entries_keys.
  apply map_ext_in. intros e He. apply (proj1 (entries_In e teams)) in He.
  unfold named in Hn. rewrite Forall_forall in Hn. now apply Hn.
Qed.

Lemma aggregate_names (matches : list ProcessedMatch)
    (rawData : list RawJSON.MatchData) :
  map name (aggregateTeamStats matches (Some rawData))
  = enumerated (firstSeen [] (ordinary (rawTeams rawData))).
Proof.
  unfold aggregateTeamStats.
  destruct rawData as [|m rawData]; [reflexivity|].
  cbn [List.length Nat.eqb].
  rewrite map_map.
  change (fun x => name (average x)) with name.
  rewrite named_names, keys_fold_addRecord; [reflexivity|].
  apply named_fold_addRecord. constructor.
Qed.

Lemma rawTeams_In (rawData : list RawJSON.MatchData) (n : string) :
  In n (rawTeams rawData)
  <-> exists m, In m rawData /\ (RawJSON.home_team m = n \/ RawJSON.away_team m = n).
Proof.
  unfold rawTeams. rewrite in_flat_map. split.
  - intros [m [Hm Hn]]. exists m. simpl in Hn. tauto.
  - intros [m [Hm Hn]]. exists m. simpl. tauto.
Qed.

End TeamAggregator.

(** X1.  [aggregateTeamStats] returns one entry per team name of the raw
    records that is no member of [Object.prototype]; a team whose name is
    such a member ([constructor], [toString], ...) gets no entry.  The names
    are distinct and come in the enumeration order of the object that
    collects them: names that are array indices ([10], [76]) first, in
    ascending order, then the others in order of first appearance; without
    array indices among the names, as in the league's data, that is the order
    of first appearance.  The processed matches
    passed along have no influence.  Without raw records, absent or empty, the
    result is empty. *)
Theorem aggregateTeamStats_names (matches : list Types.ProcessedMatch)
    (rawData : list RawJSON.MatchData) :
  let teams := Aggregator.aggregateTeamStats matches (Some rawData) in
  let names := Terms.firstSeen [] (Terms.ordinary (Terms.rawTeams rawData)) in
  map Types.name teams = Terms.enumerated names
  /\ (exists indexed,
        map Types.name teams
        = (indexed ++ filter (fun n => negb (JS.has_index (fun k => k) n)) names)%list
        /\ Permutation indexed (filter (JS.has_index (fun k => k)) names)
        /\ StronglySorted
             (fun a b => (JS.index_of (fun k => k) a <= JS.index_of (fun k => k) b)%N)
             indexed)
  /\ ((forall n, In n names -> JS.array_index n = None) -> map Types.name teams = names)
  /\ NoDup (map Types.name teams)
  /\ (forall n, In n (map Types.name teams)
                <-> JS.inherited n = false
                    /\ exists m, In m rawData
                                 /\ (RawJSON.home_team m = n \/ RawJSON.away_team m = n))
  /\ teams = Aggregator.aggregateTeamStats [] (Some rawData)
  /\ Aggregator.aggregateTeamStats matches None = []
  /\ Aggregator.aggregateTeamStats matches (Some []) = [].
Proof.
  intros teams names. unfold teams, names.
  split; [apply aggregate_names|]. split; [|split; [|split; [|split; [|repeat split]]]].
  - rewrite aggregate_names. apply enumeration_indices_first.
  - intros Hplain. rewrite aggregate_names. now apply enumeration_plain.
  - rewrite aggregate_names.
    apply (Permutation_NoDup (enumeration_perm (fun k => k) _)).
    apply firstSeen_NoDup. constructor.
  - intros n. rewrite aggregate_names. unfold Terms.enumerated.
    rewrite enumeration_In, firstSeen_In, ordinary_In, rawTeams_In. simpl. tauto.
Qed.
(** ** Counting by increments *)

Section Counting.
Import Terms.

Lemma counted_S (n : nat) : counted (S n) = counted n + 1.
Proof. reflexivity. Qed.

Lemma iter_incr (j : nat) (c : float) :
  Nat.iter j (fun c => c + 1) (c + 1) = Nat.iter j (fun c => c + 1) c + 1.
Proof. induction j as [|j IH]; simpl; [reflexivity|now rewrite IH]. Qed.

Lemma agrees_iter (k : nat) (i : Z) (c : float) :
  agrees k i c = true ->
  forall j, (j < k)%nat -> Nat.iter j (fun c => c + 1) c = JS.of_Z (i + Z.of_nat j).
Proof.
  revert i c. induction k as [|k IH]; intros i c Hk j Hj; [lia|].
  simpl in Hk. apply andb_true_iff in Hk. destruct Hk as [Hc Hk].
  apply FloatAxioms.Leibniz.eqb_spec in Hc.
  destruct j as [|j].
  - simpl. now rewrite Z.add_0_r.
  - simpl. rewrite <- iter_incr, (IH _ _ Hk j) by lia. f_equal. lia.
Qed.

(** Up to 4000 increments the counter is the exact number. *)
Lemma counted_exact (n : nat) : (n <= 4000)%nat -> counted n = JS.of_Z (Z.of_nat n).
Proof.
  intros Hn.
  assert (H : agrees 4001 0 0 = true) by (vm_compute; reflexivity).
  exact (agrees_iter 4001 0 0 H n ltac:(lia)).
Qed.

Lemma occurrences_app (k : string) (l1 l2 : list string) :
  occurrences k (l1 ++ l2) = (occurrences k l1 + occurrences k l2)%nat.
Proof. unfold occurrences. now rewrite filter_app, length_app. Qed.

Lemma occurrences_In (k : string) (l : list string) :
  In k l -> (1 <= occurrences k l)%nat.
Proof.
  unfold occurrences. induction l as [|x l IH]; simpl; [tauto|].
  intros [E|Hin].
  - subst. rewrite String.eqb_refl. simpl. lia.
  - destruct (String.eqb k x); simpl; [lia|auto].
Qed.

End Counting.

Section GamesPlayed.
Import Types Aggregator Terms.

Lemma gamesSoFar_ensure (teams : JS.object TeamStats) (k' k : string) :
  gamesSoFar (ensure teams k') k = gamesSoFar teams k.
Proof.
  unfold gamesSoFar, ensure. destruct (JS.get teams k') eqn:E; [reflexivity|].
  destruct (JS.inherited k'); [reflexivity|].
  destruct (String.eqb_spec k' k) as [->|Hne].
  - now rewrite get_set_same, E.
  - now rewrite get_set_other.
Qed.

Lemma present_ensure (teams : JS.object TeamStats) (k : string) :
  JS.inherited k = false -> mem k (keys (ensure teams k)) = true.
Proof.
  intros Hk. apply mem_In. rewrite keys_ensure. apply firstSeen_In. right.
  apply ordinary_In. split; [exact Hk|now left].
Qed.

Lemma present_kept (teams : JS.object TeamStats) (k' k : string) :
  mem k (keys teams) = true -> mem k (keys (ensure teams k')) = true.
Proof.
  rewrite !mem_In, keys_ensure, firstSeen_In. tauto.
Qed.

Lemma ordinary_ensure (teams : JS.object TeamStats) (k' : string) :
  (forall k, In k (keys teams) -> JS.inherited k = false) ->
  forall k, In k (keys (ensure teams k')) -> JS.inherited k = false.
Proof.
  intros Hord k. rewrite keys_ensure, firstSeen_In, ordinary_In.
  intros [Hk|[Hk _]]; auto.
Qed.

(** One team's update for one match: its counter goes up by one, and a team
    without an entry, whose name is inherited, changes nothing. *)
Lemma gamesSoFar_modify (teams : JS.object TeamStats) (x : string)
    (scored allowed pace : float) (tot : Totals) (isOver : bool) (l : list string) :
  (forall k, In k (keys teams) -> JS.inherited k = false) ->
  (JS.inherited x = false -> mem x (keys teams) = true) ->
  (forall k, JS.inherited k = false ->
             gamesSoFar teams k = Some (counted (occurrences k l))) ->
  forall k, JS.inherited k = false ->
            gamesSoFar (modify teams x (fun t => addMatch t scored allowed pace tot isOver)) k
            = Some (counted (occurrences k (l ++ [x]))).
Proof.
  intros Hord Hx Hinv k Hk.
  rewrite occurrences_app. unfold occurrences at 2. simpl.
  unfold modify. destruct (JS.get teams x) as [t|] eqn:E.
  - assert (Hix : JS.inherited x = false).
    { apply Hord. apply mem_In. now rewrite get_mem, E. }
    pose proof (Hinv x Hix) as Hc. unfold gamesSoFar in Hc. rewrite E in Hc.
    unfold gamesSoFar. destruct (String.eqb_spec k x) as [->|Hne].
    + rewrite get_set_same. simpl. unfold played. rewrite Hc.
      now rewrite Nat.add_comm.
    + rewrite get_set_other by congruence. rewrite Nat.add_0_r.
      exact (Hinv k Hk).
  - destruct (String.eqb_spec k x) as [->|Hne].
    + specialize (Hx Hk). rewrite get_mem, E in Hx. discriminate.
    + simpl. rewrite Nat.add_0_r. exact (Hinv k Hk).
Qed.

Lemma gamesSoFar_addRecord (teams : JS.object TeamStats) (m : RawJSON.MatchData)
    (l : list string) :
  (forall k, In k (keys teams) -> JS.inherited k = false) ->
  (forall k, JS.inherited k = false ->
             gamesSoFar teams k = Some (counted (occurrences k l))) ->
  forall k, JS.inherited k = false ->
            gamesSoFar (addRecord teams m) k
            = Some (counted (occurrences k
                               (l ++ [RawJSON.home_team m; RawJSON.away_team m]))).
Proof.
  intros Hord Hinv. unfold addRecord. cbn [fold_left].
  set (h := RawJSON.home_team m). set (a := RawJSON.away_team m).
  set (t1 := ensure (ensure teams h) a).
  assert (Hord1 : forall k, In k (keys t1) -> JS.inherited k = false)
    by (unfold t1; now repeat apply ordinary_ensure).
  assert (Hh : JS.inherited h = false -> mem h (keys t1) = true).
  { intros Hi. unfold t1. now apply present_kept, present_ensure. }
  assert (Ha : JS.inherited a = false -> mem a (keys t1) = true).
  { intros Hi. unfold t1. now apply present_ensure. }
  assert (H1 : forall k, JS.inherited k = false ->
                         gamesSoFar t1 k = Some (counted (occurrences k l))).
  { intros k0 Hk0. unfold t1. rewrite !gamesSoFar_ensure. now apply Hinv. }
  change [h; a] with ([h] ++ [a])%list. rewrite app_assoc.
  apply gamesSoFar_modify.
  - intros k. rewrite keys_modify. apply Hord1.
  - rewrite keys_modify. exact Ha.
  - now apply gamesSoFar_modify.
Qed.

Lemma ordinary_addRecord (teams : JS.object TeamStats) (m : RawJSON.MatchData) :
  (forall k, In k (keys teams) -> JS.inherited k = false) ->
  forall k, In k (keys (addRecord teams m)) -> JS.inherited k = false.
Proof.
  intros Hord k. rewrite keys_addRecord, firstSeen_In, ordinary_In.
  intros [Hk|[Hk _]]; auto.
Qed.

Lemma gamesSoFar_fold (rawData : list RawJSON.MatchData) (teams : JS.object TeamStats)
    (l : list string) :
  (forall k, In k (keys teams) -> JS.inherited k = false) ->
  (forall k, JS.inherited k = false ->
             gamesSoFar teams k = Some (counted (occurrences k l))) ->
  forall k, JS.inherited k = false ->
            gamesSoFar (fold_left addRecord rawData teams) k
            = Some (counted (occurrences k (l ++ rawTeams rawData))).
Proof.
  revert teams l. induction rawData as [|m rawData IH]; intros teams l Hord Hinv k Hk.
  - simpl. rewrite app_nil_r. now apply Hinv.
  - cbn [fold_left].
    rewrite (IH _ _ (ordinary_addRecord teams m Hord)
               (gamesSoFar_addRecord teams m l Hord Hinv) k Hk).
    change (rawTeams (m :: rawData))
      with ([RawJSON.home_team m; RawJSON.away_team m] ++ rawTeams rawData)%list.
    now rewrite <- app_assoc.
Qed.

End GamesPlayed.

(** X2.  For every entry that [aggregateTeamStats] returns, [gamesPlayed] is
    [0] incremented once for each appearance of the team as home or as away
    team in the raw records, and the team appears at least once, so that no
    average is taken over zero games.  Up to 4000 appearances the counter is
    exactly that number. *)
Theorem aggregateTeamStats_gamesPlayed (matches : list Types.ProcessedMatch)
    (rawData : list RawJSON.MatchData) (t : Types.TeamStats) :
  In t (Aggregator.aggregateTeamStats matches (Some rawData)) ->
  let n := Terms.occurrences (Types.name t) (Terms.rawTeams rawData) in
  Types.gamesPlayed t = Some (Terms.counted n)
  /\ (1 <= n)%nat
  /\ ((n <= 4000)%nat -> Types.gamesPlayed t = Some (JS.of_Z (Z.of_nat n))).
Proof.
  intros Hin n. unfold Aggregator.aggregateTeamStats in Hin.
  destruct rawData as [|m0 rawData]; [contradiction|].
  cbn [List.length Nat.eqb] in Hin.
  set (raw := m0 :: rawData) in *.
  set (o := fold_left Aggregator.addRecord raw []) in *.
  apply in_map_iff in Hin. destruct Hin as [t0 [Ht Hin]].
  apply values_In in Hin. destruct Hin as [k Hin].
  assert (Hkeys : Terms.keys o
                  = Terms.firstSeen [] (Terms.ordinary (Terms.rawTeams raw)))
    by apply keys_fold_addRecord.
  assert (Hnamed : Terms.named o) by (apply named_fold_addRecord; constructor).
  assert (Hget : JS.get o k = Some t0).
  { apply In_get; [|exact Hin]. rewrite Hkeys.
    apply firstSeen_NoDup. constructor. }
  assert (Hname : Types.name t = k).
  { rewrite <- Ht. simpl. now apply named_get with o. }
  assert (Hk : JS.inherited k = false /\ In k (Terms.rawTeams raw)).
  { assert (Hk : In k (Terms.keys o)).
    { unfold Terms.keys. change k with (fst (k, t0)). now apply in_map. }
    rewrite Hkeys in Hk. apply firstSeen_In in Hk.
    destruct Hk as [[]|Hk]. now apply ordinary_In. }
  destruct Hk as [Hord Hk].
  assert (Hgames : Types.gamesPlayed t
                   = Some (Terms.counted (Terms.occurrences k (Terms.rawTeams raw)))).
  { rewrite <- Ht. simpl.
    assert (G : Terms.gamesSoFar o k
                = Some (Terms.counted (Terms.occurrences k ([] ++ Terms.rawTeams raw)))).
    { apply gamesSoFar_fold; [intros ? []|reflexivity|exact Hord]. }
    unfold Terms.gamesSoFar in G. now rewrite Hget in G. }
  unfold n. rewrite Hname. split; [exact Hgames|]. split.
  - now apply occurrences_In.
  - intros Hn. rewrite Hgames. f_equal. now apply counted_exact.
Qed.
(** ** The market ranking *)

Section MarketRanking.
Import Types Aggregator Terms.

Lemma keys_addTeam (m : ProcessedMatch) (stats : JS.object TeamMarket) (team : string) :
  keys (addTeam m stats team) = firstSeen (keys stats) (ordinary [team]).
Proof.
  unfold addTeam, firstSeen, ordinary; simpl.
  destruct (JS.get stats team) as [d|] eqn:E.
  - rewrite E, keys_set, !get_mem, E.
    destruct (JS.inherited team); simpl; [reflexivity|]. now rewrite get_mem, E.
  - destruct (JS.inherited team); simpl.
    + now rewrite E.
    + pose proof (get_set_same stats team {| totalDiff := 0; games := 0; overs := 0 |})
        as G.
      rewrite G, keys_set, get_mem, G, keys_set, get_mem, E. reflexivity.
Qed.

Lemma keys_marketStats_fold (matches : list ProcessedMatch)
    (stats : JS.object TeamMarket) :
  keys (fold_left
          (fun stats m => fold_left (addTeam m) [homeTeam m; awayTeam m] stats)
          matches stats)
  = firstSeen (keys stats) (ordinary (processedTeams matches)).
Proof.
  revert stats. induction matches as [|m matches IH]; intros stats.
  - reflexivity.
  - cbn [fold_left]. rewrite IH, !keys_addTeam, <- !firstSeen_app, <- !ordinary_app.
    reflexivity.
Qed.

Lemma marketRows_names (matches : list ProcessedMatch) :
  map row_name (marketRows matches)
  = enumerated (firstSeen [] (ordinary (processedTeams matches))).
Proof.
  unfold marketRows. rewrite map_map.
  transitivity (map fst (JS.entries (marketStats matches)));
    [apply map_ext; reflexivity|].
  rewrite (entries_keys (marketStats matches)). f_equal.
  exact (keys_marketStats_fold matches []).
Qed.

Lemma marketRows_In (matches : list ProcessedMatch) (row : MarketRow) :
  In row (marketRows matches) ->
  JS.inherited (row_name row) = false
  /\ exists m, In m matches
               /\ (homeTeam m = row_name row \/ awayTeam m = row_name row).
Proof.
  intros Hin.
  assert (Hn : In (row_name row) (map row_name (marketRows matches)))
    by now apply in_map.
  rewrite marketRows_names in Hn. unfold enumerated in Hn.
  apply (proj1 (enumeration_In _ _ _)) in Hn. apply firstSeen_In in Hn.
  destruct Hn as [[]|Hn]. apply ordinary_In in Hn. destruct Hn as [Hord Hn].
  split; [exact Hord|].
  unfold processedTeams in Hn.
  apply in_flat_map in Hn. destruct Hn as [m [Hm Hn]].
  exists m. simpl in Hn. tauto.
Qed.

Lemma marketRows_none (matches : list ProcessedMatch) :
  (forall m, In m matches ->
     JS.inherited (homeTeam m) = true /\ JS.inherited (awayTeam m) = true) ->
  marketRows matches = [].
Proof.
  intros Hall. destruct (marketRows matches) as [|row rows] eqn:E; [reflexivity|exfalso].
  destruct (marketRows_In matches row) as [Hord [m [Hm Hn]]]; [rewrite E; now left|].
  destruct (Hall m Hm) as [Hh Ha]. destruct Hn as [Hn|Hn]; rewrite Hn in *; congruence.
Qed.

Lemma marketRows_some (matches : list ProcessedMatch) (m : ProcessedMatch) :
  In m matches ->
  JS.inherited (homeTeam m) = false \/ JS.inherited (awayTeam m) = false ->
  marketRows matches <> [].
Proof.
  intros Hm Hord E.
  assert (Hn : exists n, In n (firstSeen [] (ordinary (processedTeams matches)))).
  { assert (Hin : forall n, In n [homeTeam m; awayTeam m] -> In n (processedTeams matches)).
    { intros n Hn. unfold processedTeams. apply in_flat_map. now exists m. }
    destruct Hord as [Hord|Hord]; [exists (homeTeam m)|exists (awayTeam m)];
      apply firstSeen_In; right; apply ordinary_In; (split; [exact Hord|]);
      apply Hin; simpl; tauto. }
  destruct Hn as [n Hn].
  apply (proj2 (enumeration_In (fun k => k) n _)) in Hn.
  fold (enumerated (firstSeen [] (ordinary (processedTeams matches)))) in Hn.
  rewrite <- marketRows_names, E in Hn. exact Hn.
Qed.

Lemma hd_sort {A : Type} (cmp : A -> A -> float) (l : list A) :
  match hd_error (JS.sort cmp l) with
  | Some x => In x l
  | None => l = []
  end.
Proof.
  destruct (JS.sort cmp l) as [|x s] eqn:E; simpl.
  - apply length_zero_iff_nil. rewrite <- (Permutation_length (sort_perm cmp l)).
    now rewrite E.
  - apply (sort_In cmp). rewrite E. now left.
Qed.

(** The first element of an array sorted largest first is a largest one. *)
Lemma hd_descending {A : Type} (key : A -> float) (l : list A) (top x : A) :
  Forall (fun a => is_nan (key a) = false) l ->
  hd_error (JS.sort (fun a b => key b - key a) l) = Some top ->
  In x l -> (key x <=? key top) = true.
Proof.
  intros Hl Htop Hx.
  apply (StronglySorted_hd (fun a b => (key b <=? key a) = true)
           (JS.sort (fun a b => key b - key a) l)).
  - intros a Ha. apply leb_refl. rewrite Forall_forall in Hl. apply Hl.
    now apply (sort_In (fun a b => key b - key a)).
  - now apply sort_descending.
  - exact Htop.
  - now apply (sort_In (fun a b => key b - key a)).
Qed.

(** The first element of an array sorted smallest first is a smallest one. *)
Lemma hd_ascending {A : Type} (key : A -> float) (l : list A) (bottom x : A) :
  Forall (fun a => is_nan (key a) = false) l ->
  hd_error (JS.sort (fun a b => key a - key b) l) = Some bottom ->
  In x l -> (key bottom <=? key x) = true.
Proof.
  intros Hl Hbottom Hx.
  apply (StronglySorted_hd (fun a b => (key a <=? key b) = true)
           (JS.sort (fun a b => key a - key b) l)).
  - intros a Ha. apply leb_refl. rewrite Forall_forall in Hl. apply Hl.
    now apply (sort_In (fun a b => key a - key b)).
  - now apply sort_ascending.
  - exact Hbottom.
  - now apply (sort_In (fun a b => key a - key b)).
Qed.

End MarketRanking.

(** X3.  [calculateMarketInsights] ranks the teams of the matches it is
    given.  A team whose name is a member of [Object.prototype] gets no row;
    the rows are those of the other team names, in the enumeration order of
    the object that collects them.  When every team name of every match is
    such a member, in particular without matches, all four results are
    undefined; when some match has a team of another name, all four are
    defined.  A result is always one of the rows, and names a team that is
    home or away team of one of the matches.  When no average difference is
    [NaN], no row has a larger average difference than the nightmares and
    none a smaller one than the sharps; when no over percentage is [NaN], no
    row has a larger over percentage than the over kings and none a smaller
    one than the under kings. *)
Theorem calculateMarketInsights_teams (matches : list Types.ProcessedMatch) :
  let r := Aggregator.calculateMarketInsights matches in
  let picks := [Aggregator.nightmares r; Aggregator.sharps r;
                Aggregator.overKings r; Aggregator.underKings r] in
  let rows := Aggregator.marketRows matches in
  map Aggregator.row_name rows
  = Terms.enumerated (Terms.firstSeen [] (Terms.ordinary (Terms.processedTeams matches)))
  /\ ((forall m, In m matches ->
         JS.inherited (Types.homeTeam m) = true /\ JS.inherited (Types.awayTeam m) = true) ->
      Forall (fun p => p = None) picks)
  /\ ((exists m, In m matches
                 /\ (JS.inherited (Types.homeTeam m) = false
                     \/ JS.inherited (Types.awayTeam m) = false)) ->
      Forall (fun p => p <> None) picks)
  /\ (forall row, In (Some row) picks ->
        In row rows
        /\ JS.inherited (Aggregator.row_name row) = false
        /\ exists m, In m matches
                     /\ (Types.homeTeam m = Aggregator.row_name row
                         \/ Types.awayTeam m = Aggregator.row_name row))
  /\ (Forall (fun row => is_nan (Aggregator.avgDiff row) = false) rows ->
      forall row, In row rows ->
        (forall top, Aggregator.nightmares r = Some top ->
           (Aggregator.avgDiff row <=? Aggregator.avgDiff top) = true)
        /\ (forall bottom, Aggregator.sharps r = Some bottom ->
              (Aggregator.avgDiff bottom <=? Aggregator.avgDiff row) = true))
  /\ (Forall (fun row => is_nan (Aggregator.overPct row) = false) rows ->
      forall row, In row rows ->
        (forall top, Aggregator.overKings r = Some top ->
           (Aggregator.overPct row <=? Aggregator.overPct top) = true)
        /\ (forall bottom, Aggregator.underKings r = Some bottom ->
              (Aggregator.overPct bottom <=? Aggregator.overPct row) = true)).
Proof.
  intros r picks rows.
  assert (Hpick : forall cmp,
             match hd_error (JS.sort cmp (Aggregator.marketRows matches)) with
             | Some x => In x (Aggregator.marketRows matches)
             | None => Aggregator.marketRows matches = []
             end) by (intros cmp; apply hd_sort).
  split; [apply marketRows_names|]. split; [|split; [|split; [|split]]].
  - intros Hall. unfold picks, r, Aggregator.calculateMarketInsights.
    rewrite (marketRows_none matches Hall). repeat constructor.
  - intros [m [Hm Hord]]. pose proof (marketRows_some matches m Hm Hord) as Hne.
    unfold picks, r. simpl.
    repeat constructor;
      match goal with
      | |- hd_error (JS.sort ?cmp _) <> None =>
          pose proof (Hpick cmp) as P; intros E; rewrite E in P; auto
      end.
  - intros row Hin.
    assert (Hrow : In row rows).
    { unfold picks, r in Hin. simpl in Hin.
      repeat match goal with
             | H : _ \/ _ |- _ => destruct H as [H|H]
             end; try contradiction;
        match goal with
        | H : hd_error (JS.sort ?cmp _) = Some row |- _ =>
            pose proof (Hpick cmp) as P; rewrite H in P; exact P
        end. }
    split; [exact Hrow|]. now apply marketRows_In.
  - intros Hnan row Hrow. split.
    + intros top Htop. exact (hd_descending Aggregator.avgDiff rows top row Hnan Htop Hrow).
    + intros bottom Hb. exact (hd_ascending Aggregator.avgDiff rows bottom row Hnan Hb Hrow).
  - intros Hnan row Hrow. split.
    + intros top Htop. exact (hd_descending Aggregator.overPct rows top row Hnan Htop Hrow).
    + intros bottom Hb. exact (hd_ascending Aggregator.overPct rows bottom row Hnan Hb Hrow).
Qed.
(** ** Arrays sorted by date *)

Section SortedByDate.
Import Types.

Lemma leb_not_nan (x y : float) :
  (x <=? y) = true -> is_nan x = false /\ is_nan y = false.
Proof.
  intros H. destruct (is_nan x) eqn:Hx; [|destruct (is_nan y) eqn:Hy]; auto;
    rewrite leb_nan in H by auto; discriminate.
Qed.

Lemma ltb_not_nan (x y : float) :
  (x <? y) = true -> is_nan x = false /\ is_nan y = false.
Proof. intros H. now apply leb_not_nan, ltb_leb. Qed.

(** Sorting by [b.date - a.date] puts every match before all that are no
    newer, when no date is invalid. *)
Lemma byDateDesc_sorted (l : list ProcessedMatch) :
  Forall (fun m => is_nan (date m) = false) l ->
  StronglySorted Terms.noNewer (JS.sort Utils.byDateDesc l).
Proof. exact (sort_descending date l). Qed.

End SortedByDate.

(** X4.  The arrays that are sorted by date are ordered newest first: every
    match stands before all matches that are no newer.  For the result of
    [processMatches] this holds when no record has an invalid date; for the
    relevant history of a match it always holds, since its filter keeps no
    match with an invalid date; for the filtered matches of a backtest it
    holds when a date bound is set, which keeps no such match either, or when
    no match of the data set has an invalid date.  (With an invalid date in
    the array the comparator is no order, and the arrangement is left to the
    engine.) *)
Theorem sorted_newest_first (H : Host) :
  (forall rawData,
     Forall (fun r => is_nan (Types.date (Utils.processMatch r)) = false) rawData ->
     StronglySorted Terms.noNewer (Utils.processMatches rawData))
  /\ (forall target allMatches,
        StronglySorted Terms.noNewer (Utils.relevantHistory target allMatches))
  /\ (forall st,
        BettingSimulator.startDate st <> "" \/ BettingSimulator.endDate st <> ""
        \/ Forall (fun m => is_nan (Types.date m) = false)
             (BettingSimulator.backtestMatches st) ->
        StronglySorted Terms.noNewer (BettingSimulator.filteredMatches st)).
Proof.
  split; [|split].
  - intros rawData Hvalid. apply byDateDesc_sorted.
    apply Forall_forall. intros m Hm. apply in_map_iff in Hm.
    destruct Hm as [r [<- Hr]]. rewrite Forall_forall in Hvalid. now apply Hvalid.
  - intros target allMatches. apply byDateDesc_sorted.
    apply Forall_forall. intros m Hm. apply filter_In in Hm. destruct Hm as [_ Hm].
    apply andb_true_iff in Hm. destruct Hm as [Hm _].
    now apply ltb_not_nan in Hm.
  - intros st Hst. apply byDateDesc_sorted.
    apply Forall_forall. intros m Hm. apply filter_In in Hm. destruct Hm as [Hin Hm].
    apply andb_true_iff in Hm. destruct Hm as [_ Hm].
    apply andb_true_iff in Hm. destruct Hm as [Hs He].
    destruct Hst as [Hst|[Hst|Hst]].
    + apply orb_true_iff in Hs. destruct Hs as [Hs|Hs].
      * apply String.eqb_eq in Hs. contradiction.
      * now apply leb_not_nan in Hs.
    + apply orb_true_iff in He. destruct He as [He|He].
      * apply String.eqb_eq in He. contradiction.
      * now apply leb_not_nan in He.
    + rewrite Forall_forall in Hst. now apply Hst.
Qed.
(** ** More on the match processor *)

Section ProcessedRecords.
Import Types Utils.
Context `{Host}.

Lemma or_else_truthy (x d : float) : JS.truthy d = true -> JS.truthy (JS.or_else x d) = true.
Proof. intros Hd. unfold JS.or_else. destruct (JS.truthy x) eqn:E; [exact E|exact Hd]. Qed.

Lemma period_slot (r : MatchData) (q : string) :
  match JS.get (quarter_scores r) q with
  | Some s => p (Some (q_home_score s)) + p (Some (q_away_score s))
  | None => 0
  end = homePeriodScore r q + awayPeriodScore r q.
Proof.
  unfold homePeriodScore, awayPeriodScore.
  destruct (JS.get (quarter_scores r) q); reflexivity.
Qed.

End ProcessedRecords.

(** X5.  [processMatches] returns exactly one processed match per raw record,
    whatever the record holds: the result is a rearrangement of the
    record-by-record images, so it has the length of the input and the ids of
    the input. *)
Theorem processMatches_keeps_every_record (H : Host) (rawData : list Types.MatchData) :
  Permutation (Utils.processMatches rawData) (map Utils.processMatch rawData)
  /\ List.length (Utils.processMatches rawData) = List.length rawData
  /\ Permutation (map Types.id (Utils.processMatches rawData))
       (map Types.match_id rawData).
Proof.
  assert (P : Permutation (Utils.processMatches rawData)
                (map Utils.processMatch rawData)) by apply sort_perm.
  split; [exact P|]. split.
  - rewrite (Permutation_length P). apply length_map.
  - rewrite (Permutation_map Types.id P), map_map. apply Permutation_refl.
Qed.

(** X6.  The prices of a processed match are never [0] or [NaN]: a recorded
    price is kept when it is a non-zero number, and replaced by 1.91 when it
    is [0] or [NaN]. *)
Theorem processMatches_odds_usable (H : Host) (rawData : list Types.MatchData)
    (m : Types.ProcessedMatch) :
  In m (Utils.processMatches rawData) ->
  (JS.truthy (Types.overOdds m) = true /\ JS.truthy (Types.underOdds m) = true)
  /\ exists r, In r rawData /\ m = Utils.processMatch r
       /\ Types.overOdds m
          = (if JS.truthy (Types.over_odds (Types.line_odds r))
             then Types.over_odds (Types.line_odds r) else 1.91)
       /\ Types.underOdds m
          = (if JS.truthy (Types.under_odds (Types.line_odds r))
             then Types.under_odds (Types.line_odds r) else 1.91).
Proof.
  intros Hin. apply processMatches_In in Hin. destruct Hin as [r [Hr ->]].
  split.
  - split; apply or_else_truthy; reflexivity.
  - exists r. repeat split. exact Hr.
Qed.

(** X7.  In every processed match the three period arrays agree: each of the
    four combined period totals is the home score plus the away score of that
    period, and [regulationTotal] is the sum of the four home scores plus the
    sum of the four away scores. *)
Theorem processMatches_periods_agree (H : Host) (rawData : list Types.MatchData)
    (m : Types.ProcessedMatch) :
  In m (Utils.processMatches rawData) ->
  (forall i, (i < 4)%nat ->
     JS.index (Types.quarterlyTotals m) i
     = JS.index (Types.homeQScores m) i + JS.index (Types.awayQScores m) i)
  /\ Types.regulationTotal m
     = fold_left (fun acc s => acc + s) (Types.homeQScores m) 0
       + fold_left (fun acc s => acc + s) (Types.awayQScores m) 0.
Proof.
  intros Hin. apply processMatches_In in Hin. destruct Hin as [r [Hr ->]].
  split; [|reflexivity].
  intros i Hi.
  do 4 (destruct i as [|i]; [apply period_slot|]). lia.
Qed.

(** ** More on the per-match insights *)

Section InsightValues.
Import Types Utils Vocabulary.

Lemma relevantHistory_empty (target : ProcessedMatch) (allMatches : list ProcessedMatch) :
  (forall m, In m allMatches ->
     (date m <? date target) = false \/ ~ involvesTeamOf target m) ->
  relevantHistory target allMatches = [].
Proof.
  intros Hnone. destruct (relevantHistory target allMatches) as [|x l] eqn:E;
    [reflexivity|exfalso].
  assert (Hx : In x (relevantHistory target allMatches)) by (rewrite E; now left).
  unfold relevantHistory in Hx.
  rewrite sort_In, filter_In, andb_true_iff, involvesTeamOf_eqb in Hx.
  destruct Hx as [Hin [Hlt Hinv]]. destruct (Hnone x Hin); [congruence|tauto].
Qed.

(** The rate of [k] games out of [n], for every [k <= n <= 10]. *)
Lemma rate_within_bounds (n k : nat) :
  (k <= n)%nat -> (n <= 10)%nat ->
  let rate :=
    if 0 <? JS.of_Z (Z.of_nat n)
    then (JS.of_Z (Z.of_nat k) / JS.of_Z (Z.of_nat n)) * 100 else 0 in
  (0 <=? rate) = true /\ (rate <=? 100) = true.
Proof.
  intros Hk Hn.
  assert (Hall :
    forallb
      (fun n =>
         forallb
           (fun k =>
              let rate :=
                if 0 <? JS.of_Z (Z.of_nat n)
                then (JS.of_Z (Z.of_nat k) / JS.of_Z (Z.of_nat n)) * 100 else 0 in
              (0 <=? rate) && (rate <=? 100))
           (seq 0 (S n)))
      (seq 0 11) = true) by (vm_compute; reflexivity).
  rewrite forallb_forall in Hall.
  specialize (Hall n ltac:(apply in_seq; lia)).
  rewrite forallb_forall in Hall.
  specialize (Hall k ltac:(apply in_seq; lia)).
  now apply andb_true_iff in Hall.
Qed.

End InsightValues.

(** X8.  For a match without any earlier game of its two teams in the
    collection, [generateMatchInsights] returns its defaults: mean, deviation,
    high-scoring rate and trend value are [0] and the trend is "Neutral"; no
    division takes place. *)
Theorem generateMatchInsights_no_history (target : Types.ProcessedMatch)
    (allMatches : list Types.ProcessedMatch) :
  (forall m, In m allMatches ->
     (Types.date m <? Types.date target) = false
     \/ ~ Vocabulary.involvesTeamOf target m) ->
  Utils.generateMatchInsights target allMatches
  = {| Utils.mean15 := 0; Utils.sd15 := 0; Utils.highScoringRate := 0;
       Utils.q4Trend := "Neutral"; Utils.q4TrendValue := 0 |}.
Proof.
  intros Hnone. unfold Utils.generateMatchInsights.
  rewrite (relevantHistory_empty _ _ Hnone). reflexivity.
Qed.

(** X9.  The high-scoring rate of [generateMatchInsights] is a percentage: for
    every match and every collection it lies between 0 and 100, bounds
    included, and is never [NaN]. *)
Theorem highScoringRate_is_percentage (target : Types.ProcessedMatch)
    (allMatches : list Types.ProcessedMatch) :
  let rate := Utils.highScoringRate (Utils.generateMatchInsights target allMatches) in
  (0 <=? rate) = true /\ (rate <=? 100) = true /\ is_nan rate = false.
Proof.
  intros rate.
  assert (Hb : (0 <=? rate) = true /\ (rate <=? 100) = true).
  { unfold rate, Utils.generateMatchInsights. cbn [Utils.highScoringRate].
    unfold JS.length_number.
    apply rate_within_bounds.
    - apply filter_length_le.
    - unfold JS.slice0. apply firstn_le_length. }
  split; [apply Hb|]. split; [apply Hb|].
  destruct Hb as [Hb _]. apply leb_SFcompare in Hb.
  unfold is_nan. apply negb_false_iff, eqb_SFcompare.
  change (Prim2SF 0) with (S754_zero false) in Hb.
  destruct (Prim2SF rate) as [s|s| |s m e]; simpl in *;
    try reflexivity; try (destruct s; reflexivity);
    try (destruct Hb; discriminate).
  rewrite Z.compare_refl.
  change (Pos.compare_cont Eq m m) with (Pos.compare m m).
  rewrite Pos.compare_refl. destruct s; reflexivity.
Qed.

(** X10.  The fourth-quarter trend of [generateMatchInsights] is read off the
    trend value alone: "High Intensity (+)" exactly when the value is above
    2, "Fade (-)" exactly when it is below -2, and "Neutral" in every other
    case, a value that is [NaN] included. *)
Theorem q4Trend_classification (target : Types.ProcessedMatch)
    (allMatches : list Types.ProcessedMatch) :
  let i := Utils.generateMatchInsights target allMatches in
  (Utils.q4Trend i = "High Intensity (+)" <-> (2 <? Utils.q4TrendValue i) = true)
  /\ (Utils.q4Trend i = "Fade (-)" <-> (Utils.q4TrendValue i <? -2) = true)
  /\ (Utils.q4Trend i = "Neutral"
      <-> (2 <? Utils.q4TrendValue i) = false
          /\ (Utils.q4TrendValue i <? -2) = false).
Proof.
  intros i. unfold i, Utils.generateMatchInsights.
  cbn [Utils.q4Trend Utils.q4TrendValue].
  match goal with
  | |- context [2 <? ?v] => set (value := v)
  end.
  destruct (2 <? value) eqn:Hhigh, (value <? -2) eqn:Hlow.
  - pose proof (ltb_trans _ _ _ Hhigh Hlow) as Habs. vm_compute in Habs. discriminate.
  - repeat split; intros; try reflexivity; try discriminate.
    destruct H; discriminate.
  - repeat split; intros; try reflexivity; try discriminate.
    destruct H; discriminate.
  - repeat split; intros; try reflexivity; discriminate.
Qed.

(** ** Team names and logos *)

Section TeamNames.
Import Utils Aggregator Vocabulary.

Lemma normalizeTeamName_cases (n : string) :
  (n = "LA Clippers" /\ normalizeTeamName n = Name "Los Angeles Clippers")
  \/ (n <> "LA Clippers" /\ JS.inherited n = false /\ normalizeTeamName n = Name n)
  \/ (n <> "LA Clippers" /\ JS.inherited n = true /\ normalizeTeamName n = Member n).
Proof.
  change (normalizeTeamName n)
    with (match (if String.eqb "LA Clippers" n
                 then Some "Los Angeles Clippers" else None) with
          | Some n' => Name n'
          | None => if JS.inherited n then Member n else Name n
          end).
  destruct (String.eqb_spec "LA Clippers" n) as [E|Hne].
  - left. split; congruence.
  - right. destruct (JS.inherited n); [right|left]; repeat split; congruence.
Qed.

(** A normalised name is no member of [Object.prototype]. *)
Lemma normalized_ordinary (n s : string) :
  normalizeTeamName n = Name s -> JS.inherited s = false.
Proof.
  intros E.
  destruct (normalizeTeamName_cases n) as [[_ E']|[[_ [Hi E']]|[_ [_ E']]]];
    rewrite E' in E; inversion E; subst; [reflexivity|exact Hi].
Qed.

Lemma mapChars_compose (g h : ascii -> ascii) (s : string) :
  mapChars g (mapChars h s) = mapChars (fun c => g (h c)) s.
Proof. induction s as [|c s IH]; simpl; [reflexivity|now rewrite IH]. Qed.

Lemma all_chars_app (f : ascii -> bool) (a b : string) :
  all_chars f (a ++ b) = all_chars f a && all_chars f b.
Proof.
  induction a as [|c a IH]; simpl; [reflexivity|]. now rewrite IH, andb_assoc.
Qed.

Lemma all_chars_mapChars (f : ascii -> bool) (g : ascii -> ascii) (s : string) :
  (forall c, f (g c) = true) -> all_chars f (mapChars g s) = true.
Proof.
  intros Hg. induction s as [|c s IH]; simpl; [reflexivity|]. now rewrite Hg, IH.
Qed.

End TeamNames.

(** X11.  [normalizeTeamName] maps "LA Clippers" to "Los Angeles Clippers" and
    leaves every other name as it is, unless the name is a member of
    [Object.prototype] ([constructor], [toString], ...): the lookup in the
    table then finds that member, and the result is the member, a function or
    an object, and no string.  Normalising a name that came out of the function
    gives that name again. *)
Theorem normalizeTeamName_idempotent (n : string) :
  (forall s, Utils.normalizeTeamName n = Utils.Name s ->
             Utils.normalizeTeamName s = Utils.Name s)
  /\ (JS.inherited n = false -> n <> "LA Clippers" ->
      Utils.normalizeTeamName n = Utils.Name n)
  /\ Utils.normalizeTeamName "LA Clippers" = Utils.Name "Los Angeles Clippers"
  /\ (JS.inherited n = true -> Utils.normalizeTeamName n = Utils.Member n).
Proof.
  split; [|split; [|split; [reflexivity|]]].
  - intros s E.
    destruct (normalizeTeamName_cases n) as [[_ E']|[[_ [_ E']]|[_ [_ E']]]];
      rewrite E' in E; inversion E; subst; [reflexivity|exact E'].
  - intros Hi Hne.
    destruct (normalizeTeamName_cases n) as [[E _]|[[_ [_ E]]|[_ [Hi' _]]]];
      [contradiction|exact E|congruence].
  - intros Hi.
    destruct (normalizeTeamName_cases n) as [[-> _]|[[_ [Hi' _]]|[_ [_ E]]]];
      [discriminate Hi|congruence|exact E].
Qed.

(** X12.  [getTeamLogo] ends in a [TypeError] for a team name that is a
    member of [Object.prototype], since the normalised name is then no string,
    and returns an address for every other name.  The address contains no
    space, and no ASCII capital letter either when the name is made of ASCII
    characters (beyond ASCII the lower-casing is that of the engine's case
    tables).  A name and its normalised form have the same address: "LA
    Clippers" and "Los Angeles Clippers" share one logo. *)
Theorem getTeamLogo_address (T : Aggregator.CaseTables) (teamName : string) :
  (JS.inherited teamName = true -> Aggregator.getTeamLogo teamName = None)
  /\ (JS.inherited teamName = false ->
      exists address,
        Aggregator.getTeamLogo teamName = Some address
        /\ Vocabulary.all_chars Terms.noSpace address = true
        /\ (Vocabulary.all_chars Aggregator.is_ascii teamName = true ->
            Vocabulary.all_chars Terms.urlSafe address = true))
  /\ (forall s, Utils.normalizeTeamName teamName = Utils.Name s ->
                Aggregator.getTeamLogo s = Aggregator.getTeamLogo teamName)
  /\ Aggregator.getTeamLogo "LA Clippers"
     = Some "https://loodibee.com/wp-content/uploads/nba-los-angeles-clippers-logo.png".
Proof.
  assert (Haddr : forall s,
            Vocabulary.all_chars Terms.noSpace
              ("https://loodibee.com/wp-content/uploads/nba-"
               ++ Aggregator.replaceSpaces (Aggregator.toLowerCase s) ++ "-logo.png")
            = true
            /\ (Vocabulary.all_chars Aggregator.is_ascii s = true ->
                Vocabulary.all_chars Terms.urlSafe
                  ("https://loodibee.com/wp-content/uploads/nba-"
                   ++ Aggregator.replaceSpaces (Aggregator.toLowerCase s) ++ "-logo.png")
                = true)).
  { intros s. split.
    - rewrite !all_chars_app.
      rewrite andb_true_iff. split; [reflexivity|].
      rewrite andb_true_iff. split; [|reflexivity].
      unfold Aggregator.replaceSpaces.
      apply all_chars_mapChars. intros c.
      destruct c as [[] [] [] [] [] [] [] []]; reflexivity.
    - intros Hs. rewrite !all_chars_app.
      rewrite andb_true_iff. split; [reflexivity|].
      rewrite andb_true_iff. split; [|reflexivity].
      unfold Aggregator.replaceSpaces, Aggregator.toLowerCase. rewrite Hs.
      rewrite mapChars_compose.
      apply all_chars_mapChars. intros c.
      destruct c as [[] [] [] [] [] [] [] []]; reflexivity. }
  split; [|split; [|split; [|reflexivity]]].
  - intros Hi. unfold Aggregator.getTeamLogo.
    destruct (normalizeTeamName_cases teamName) as [[-> _]|[[_ [Hi' _]]|[_ [_ E]]]];
      [discriminate Hi|congruence|now rewrite E].
  - intros Hi. unfold Aggregator.getTeamLogo.
    destruct (normalizeTeamName_cases teamName) as [[_ E]|[[_ [_ E]]|[_ [Hi' _]]]];
      [| |congruence]; rewrite E; eexists; (split; [reflexivity|]).
    + destruct (Haddr "Los Angeles Clippers") as [H1 H2].
      split; [exact H1|]. intros _. now apply H2.
    + apply Haddr.
  - intros s E. unfold Aggregator.getTeamLogo. rewrite E.
    destruct (normalizeTeamName_cases teamName) as [[_ E']|[[_ [_ E']]|[_ [_ E']]]];
      rewrite E' in E; inversion E; subst; [reflexivity|now rewrite E'].
Qed.

(** ** Team statistics of the simulator *)

Section SimulatorTeams.
Import Types BettingSimulator Terms.

Lemma keys_ensureTeam (stats : JS.object TeamAcc) (t : string) :
  keys (ensureTeam stats t) = firstSeen (keys stats) (ordinary [t]).
Proof.
  unfold ensureTeam, firstSeen, ordinary; simpl.
  destruct (JS.get stats t) eqn:E.
  - destruct (JS.inherited t); simpl; [reflexivity|]. now rewrite get_mem, E.
  - destruct (JS.inherited t); simpl; [reflexivity|].
    now rewrite keys_set, get_mem, E.
Qed.

Lemma keys_addGame (stats : JS.object TeamAcc) (t : string) (s a f : float) :
  keys (addGame stats t s a f) = keys stats.
Proof.
  unfold addGame. destruct (JS.get stats t) eqn:E; [|reflexivity].
  now rewrite keys_set, get_mem, E.
Qed.

Lemma accNamed_set (stats : JS.object TeamAcc) (k : string) (a : TeamAcc) :
  accNamed stats -> acc_name a = k -> accNamed (JS.set stats k a).
Proof.
  unfold accNamed. intros Hn Ha. induction stats as [|[k0 a0] stats IH]; simpl.
  - constructor; [exact Ha|constructor].
  - apply Forall_cons_iff in Hn. destruct Hn as [H0 Hrest].
    destruct (String.eqb k0 k) eqn:E; constructor; auto.
    apply String.eqb_eq in E. simpl. congruence.
Qed.

Lemma accNamed_teamStep (stats : JS.object TeamAcc) (m : ProcessedMatch) :
  accNamed stats -> accNamed (teamStep stats m).
Proof.
  assert (Hens : forall o t, accNamed o -> accNamed (ensureTeam o t)).
  { intros o t Ho. unfold ensureTeam. destruct (JS.get o t); [exact Ho|].
    destruct (JS.inherited t); [exact Ho|]. now apply accNamed_set. }
  assert (Hadd : forall o t s a f, accNamed o -> accNamed (addGame o t s a f)).
  { intros o t s a f Ho. unfold addGame. destruct (JS.get o t) as [x|] eqn:E; [|exact Ho].
    apply accNamed_set; [exact Ho|]. simpl.
    apply get_In in E. unfold accNamed in Ho. rewrite Forall_forall in Ho.
    exact (Ho _ E). }
  intros Hn. unfold teamStep. simpl. now apply Hadd, Hadd, Hens, Hens.
Qed.

Lemma accNamed_names (stats : JS.object TeamAcc) :
  accNamed stats
  -> map (fun x => acc_name x) (JS.values stats) = enumerated (keys stats).
Proof.
  intros Hn. unfold JS.values. rewrite map_map, <- entries_keys.
  apply map_ext_in. intros e He. apply (proj1 (entries_In e stats)) in He.
  unfold accNamed in Hn. rewrite Forall_forall in Hn. now apply Hn.
Qed.

Lemma currentTeamStats_names (st : State) :
  map name (currentTeamStats st)
  = enumerated (firstSeen [] (ordinary (processedTeams (backtestMatches st)))).
Proof.
  unfold currentTeamStats. rewrite map_map. simpl.
  assert (G : forall ms stats,
             accNamed stats ->
             accNamed (fold_left teamStep ms stats)
             /\ keys (fold_left teamStep ms stats)
                = firstSeen (keys stats) (ordinary (processedTeams ms))).
  { induction ms as [|m ms IH]; intros stats Hn; [now split|].
    cbn [fold_left].
    destruct (IH _ (accNamed_teamStep stats m Hn)) as [Hn' Hk]. split; [exact Hn'|].
    rewrite Hk. unfold teamStep. cbn [fold_left].
    rewrite !keys_addGame, !keys_ensureTeam, <- !firstSeen_app, <- !ordinary_app.
    reflexivity. }
  destruct (G (backtestMatches st) [] (Forall_nil _)) as [Hn Hk].
  change (keys []) with (@nil string) in Hk.
  rewrite <- Hk. now apply accNamed_names.
Qed.

Lemma find_by_name (l : list TeamStats) (k : string) :
  match find (fun t => String.eqb (name t) k) l with
  | Some t => name t = k /\ In t l
  | None => ~ In k (map name l)
  end.
Proof.
  induction l as [|x l IH]; simpl; [tauto|].
  destruct (String.eqb_spec (name x) k) as [E|Hne].
  - split; [exact E|now left].
  - destruct (find (fun t => String.eqb (name t) k) l).
    + split; [apply IH|right; apply IH].
    + intros [E|Hin]; [contradiction|now apply IH].
Qed.

Lemma processedTeams_In (ms : list ProcessedMatch) (n : string) :
  In n (processedTeams ms)
  <-> exists m, In m ms /\ (homeTeam m = n \/ awayTeam m = n).
Proof.
  unfold processedTeams. rewrite in_flat_map. split.
  - intros [m [Hm Hn]]. exists m. simpl in Hn. tauto.
  - intros [m [Hm Hn]]. exists m. simpl. tauto.
Qed.

(** The teams with stats: the names of the data set that are no members of
    [Object.prototype]. *)
Lemma currentTeamStats_In (st : State) (s : string) :
  In s (map name (currentTeamStats st))
  <-> JS.inherited s = false
      /\ exists m, In m (backtestMatches st) /\ (homeTeam m = s \/ awayTeam m = s).
Proof.
  rewrite currentTeamStats_names. unfold enumerated.
  rewrite enumeration_In, firstSeen_In, ordinary_In, processedTeams_In.
  simpl. tauto.
Qed.

End SimulatorTeams.

(** X13.  In the simulator the stats of a team are found exactly when its
    normalised name is a string that is the home or away team of a match of
    the active data set, and the stats found carry that name.  So every team
    of the data set has stats unless its name is a member of
    [Object.prototype], which never has stats, or it is recorded as "LA
    Clippers": that name is looked up as "Los Angeles Clippers" and has no
    stats when the data set never uses the long name. *)
Theorem getTeamStats_available (st : BettingSimulator.State) (n : string) :
  (BettingSimulator.getTeamStats st n <> None
   <-> exists s m, Utils.normalizeTeamName n = Utils.Name s
                   /\ In m (BettingSimulator.backtestMatches st)
                   /\ (Types.homeTeam m = s \/ Types.awayTeam m = s))
  /\ (forall t, BettingSimulator.getTeamStats st n = Some t ->
                Utils.normalizeTeamName n = Utils.Name (Types.name t))
  /\ (JS.inherited n = false -> n <> "LA Clippers" ->
      (exists m, In m (BettingSimulator.backtestMatches st)
                 /\ (Types.homeTeam m = n \/ Types.awayTeam m = n)) ->
      BettingSimulator.getTeamStats st n <> None)
  /\ (JS.inherited n = true -> BettingSimulator.getTeamStats st n = None)
  /\ ((forall m, In m (BettingSimulator.backtestMatches st) ->
                 Types.homeTeam m <> "Los Angeles Clippers"
                 /\ Types.awayTeam m <> "Los Angeles Clippers") ->
      BettingSimulator.getTeamStats st "LA Clippers" = None).
Proof.
  assert (Hiff : forall k,
             BettingSimulator.getTeamStats st k <> None
             <-> exists s m, Utils.normalizeTeamName k = Utils.Name s
                             /\ In m (BettingSimulator.backtestMatches st)
                             /\ (Types.homeTeam m = s \/ Types.awayTeam m = s)).
  { intros k. unfold BettingSimulator.getTeamStats.
    destruct (Utils.normalizeTeamName k) as [s|j] eqn:E.
    - pose proof (normalized_ordinary k s E) as Hord.
      pose proof (find_by_name (BettingSimulator.currentTeamStats st) s) as F.
      destruct (find _ (BettingSimulator.currentTeamStats st)) as [t|].
      + destruct F as [Hname Hin]. split; [intros _|discriminate].
        assert (Hn : In (Types.name t)
                       (map Types.name (BettingSimulator.currentTeamStats st)))
          by now apply in_map.
        rewrite Hname in Hn. apply currentTeamStats_In in Hn.
        destruct Hn as [_ [m Hm]]. exists s, m. tauto.
      + split; [congruence|]. intros [s' [m [Es Hm]]]. exfalso. apply F.
        inversion Es; subst s'. apply currentTeamStats_In. split; [exact Hord|].
        now exists m.
    - split; [congruence|]. intros [s [m [Es _]]]. discriminate Es. }
  split; [apply Hiff|]. split; [|split; [|split]].
  - intros t Ht. unfold BettingSimulator.getTeamStats in Ht.
    destruct (Utils.normalizeTeamName n) as [s|j]; [|discriminate].
    pose proof (find_by_name (BettingSimulator.currentTeamStats st) s) as F.
    rewrite Ht in F. destruct F as [-> _]. reflexivity.
  - intros Hi Hne [m Hm]. apply Hiff. exists n, m. split; [|exact Hm].
    destruct (normalizeTeamName_cases n) as [[E _]|[[_ [_ E]]|[_ [Hi' _]]]];
      [contradiction|exact E|congruence].
  - intros Hi. unfold BettingSimulator.getTeamStats.
    destruct (normalizeTeamName_cases n) as [[-> _]|[[_ [Hi' _]]|[_ [_ E]]]];
      [discriminate Hi|congruence|now rewrite E].
  - intros Hno. destruct (BettingSimulator.getTeamStats st "LA Clippers") eqn:E;
      [exfalso|reflexivity].
    assert (Hsome : BettingSimulator.getTeamStats st "LA Clippers" <> None)
      by (rewrite E; discriminate).
    apply Hiff in Hsome. destruct Hsome as [s [m [Es [Hm Hteam]]]].
    destruct (Hno m Hm) as [H1 H2].
    change (Utils.normalizeTeamName "LA Clippers")
      with (Utils.Name "Los Angeles Clippers") in Es.
    inversion Es; subst s. tauto.
Qed.
(** ** More on the backtest *)

Section BacktestRun.
Import Types BettingSimulator Terms.
Context `{Host}.

Lemma filteredMatches_In (st : State) (m : ProcessedMatch) :
  In m (filteredMatches st)
  <-> In m (backtestMatches st)
      /\ (selectedTeam st = "ALL" \/ homeTeam m = selectedTeam st
          \/ awayTeam m = selectedTeam st)
      /\ (startDate st = "" \/ (Date_time (startDate st) <=? date m) = true)
      /\ (endDate st = "" \/ (date m <=? Date_time (endDate st)) = true).
Proof.
  unfold filteredMatches.
  rewrite sort_In, filter_In, !andb_true_iff, !orb_true_iff, !String.eqb_eq.
  tauto.
Qed.

Lemma filter_all {A : Type} (f : A -> bool) (l : list A) :
  (forall x, In x l -> f x = true) -> filter f l = l.
Proof.
  induction l as [|x l IH]; simpl; intros Hf; [reflexivity|].
  rewrite (Hf x (or_introl eq_refl)). f_equal. apply IH. intros y Hy. apply Hf. now right.
Qed.

End BacktestRun.

(** X14.  The filter of a backtest keeps a match exactly when it passes the
    team filter ("ALL" or one of its two teams) and both date bounds, each of
    which is inclusive and is not applied when left empty.  With "ALL" and no
    bound every match of the data set is evaluated; once a bound is set, a
    match whose date is invalid is left out. *)
Theorem filteredMatches_selection (H : Host) (st : BettingSimulator.State) :
  (forall m, In m (BettingSimulator.filteredMatches st)
     <-> In m (BettingSimulator.backtestMatches st)
         /\ (BettingSimulator.selectedTeam st = "ALL"
             \/ Types.homeTeam m = BettingSimulator.selectedTeam st
             \/ Types.awayTeam m = BettingSimulator.selectedTeam st)
         /\ (BettingSimulator.startDate st = ""
             \/ (Date_time (BettingSimulator.startDate st) <=? Types.date m) = true)
         /\ (BettingSimulator.endDate st = ""
             \/ (Types.date m <=? Date_time (BettingSimulator.endDate st)) = true))
  /\ (BettingSimulator.selectedTeam st = "ALL" ->
      BettingSimulator.startDate st = "" -> BettingSimulator.endDate st = "" ->
      Permutation (BettingSimulator.filteredMatches st)
        (BettingSimulator.backtestMatches st))
  /\ (forall m, In m (BettingSimulator.backtestMatches st) ->
        BettingSimulator.selectedTeam st = "ALL" ->
        BettingSimulator.endDate st = "" ->
        (Date_time (BettingSimulator.startDate st) =? Types.date m) = true ->
        In m (BettingSimulator.filteredMatches st))
  /\ (forall m, is_nan (Types.date m) = true ->
        BettingSimulator.startDate st <> "" \/ BettingSimulator.endDate st <> "" ->
        ~ In m (BettingSimulator.filteredMatches st)).
Proof.
  split; [intros m; apply filteredMatches_In|]. split; [|split].
  - intros Hall Hs He. unfold BettingSimulator.filteredMatches.
    eapply Permutation_trans; [apply sort_perm|].
    rewrite filter_all; [apply Permutation_refl|].
    intros m _. now rewrite Hall, Hs, He.
  - intros m Hin Hall He Heq. apply filteredMatches_In.
    split; [exact Hin|]. split; [now left|]. split; [|now left].
    right. now apply eqb_leb.
  - intros m Hnan Hbound Hin. apply filteredMatches_In in Hin.
    destruct Hin as [_ [_ [Hs He]]].
    destruct Hbound as [Hb|Hb].
    + destruct Hs as [Hs|Hs]; [contradiction|].
      rewrite leb_nan in Hs by (now right). discriminate.
    + destruct He as [He|He]; [contradiction|].
      rewrite leb_nan in He by (now left). discriminate.
Qed.

(** X15.  Under the team-model strategy a match is bet only when both teams
    have stats in the active data set.  The projection is the sum of both
    teams' average points for and against, divided by 4 and doubled; the bet
    is Over when the projection is above line plus margin, otherwise Under
    when it is below line minus margin, otherwise none. *)
Theorem team_model_signal (H : Host) (st : BettingSimulator.State)
    (t : BettingSimulator.Tally) (m : Types.ProcessedMatch) :
  BettingSimulator.strategy st = BettingSimulator.TEAM_MODEL ->
  (BettingSimulator.getTeamStats st (Types.homeTeam m) = None
   \/ BettingSimulator.getTeamStats st (Types.awayTeam m) = None ->
   BettingSimulator.evaluate st t m = t)
  /\ forall home away,
       BettingSimulator.getTeamStats st (Types.homeTeam m) = Some home ->
       BettingSimulator.getTeamStats st (Types.awayTeam m) = Some away ->
       let projectedTotal :=
         (Types.avgPointsFor home + Types.avgPointsAgainst home
          + (Types.avgPointsFor away + Types.avgPointsAgainst away)) / 4 * 2 in
       let over := Types.line m + BettingSimulator.valueMargin st <? projectedTotal in
       let under := projectedTotal <? Types.line m - BettingSimulator.valueMargin st in
       (over = true ->
        exists reason,
          BettingSimulator.evaluate st t m
          = BettingSimulator.settle st t m BettingSimulator.BetOver reason)
       /\ (over = false -> under = true ->
           exists reason,
             BettingSimulator.evaluate st t m
             = BettingSimulator.settle st t m BettingSimulator.BetUnder reason)
       /\ (over = false -> under = false -> BettingSimulator.evaluate st t m = t).
Proof.
  intros Hs. split.
  - intros Hnone. apply evaluate_no_bet. unfold BettingSimulator.signal. rewrite Hs.
    destruct Hnone as [E|E]; rewrite E; [reflexivity|].
    now destruct (BettingSimulator.getTeamStats st (Types.homeTeam m)).
  - intros home away Hh Ha projectedTotal over under.
    unfold BettingSimulator.evaluate, BettingSimulator.signal.
    rewrite Hs, Hh, Ha. fold projectedTotal. fold over. fold under.
    destruct over; [|destruct under].
    + split; [intros _; eexists; reflexivity|]. split; discriminate.
    + split; [discriminate|]. split; [intros _ _; eexists; reflexivity|discriminate].
    + split; [discriminate|]. split; [discriminate|reflexivity].
Qed.

Section AuditLog.
Import Types BettingSimulator Terms.

Lemma outcomes_snoc (o : Outcome) (logs : list LogEntry) (e : LogEntry) :
  outcomes o (logs ++ [e])
  = (outcomes o logs + (if sameOutcome (log_result e) o then 1 else 0))%nat.
Proof.
  unfold outcomes. rewrite filter_app, length_app. simpl.
  now destruct (sameOutcome (log_result e) o).
Qed.

Lemma outcomes_total (logs : list LogEntry) :
  List.length logs = (outcomes WIN logs + outcomes LOSS logs + outcomes PUSHED logs)%nat.
Proof.
  unfold outcomes. induction logs as [|e logs IH]; simpl; [reflexivity|].
  destruct (log_result e); simpl; lia.
Qed.

(** The tally agrees with its log. *)
Lemma tally_settle (st : State) (t : Tally) (m : ProcessedMatch) (b : BetType)
    (reason : string) :
  betsPlaced t = counted (List.length (historyLogs t)) ->
  wins t = counted (outcomes WIN (historyLogs t)) ->
  losses t = counted (outcomes LOSS (historyLogs t)) ->
  pushes t = counted (outcomes PUSHED (historyLogs t)) ->
  let t' := settle st t m b reason in
  betsPlaced t' = counted (List.length (historyLogs t'))
  /\ wins t' = counted (outcomes WIN (historyLogs t'))
  /\ losses t' = counted (outcomes LOSS (historyLogs t'))
  /\ pushes t' = counted (outcomes PUSHED (historyLogs t')).
Proof.
  intros Hb Hw Hl Hp. unfold settle.
  destruct (won b m); [|destruct (lost b m)]; simpl;
    rewrite length_app, !outcomes_snoc; simpl;
    rewrite !Nat.add_0_r, ?Nat.add_1_r, ?counted_S, <- Hb, <- Hw, <- Hl, <- Hp;
    repeat split.
Qed.

Lemma settle_entry (st : State) (t : Tally) (m : ProcessedMatch) (b : BetType)
    (reason : string) :
  exists e,
    historyLogs (settle st t m b reason) = (historyLogs t ++ [e])%list
    /\ log_id e = id m /\ log_date e = date m
    /\ log_home e = homeTeam m /\ log_away e = awayTeam m
    /\ log_score e = totalScore m /\ log_line e = line m
    /\ log_pick e = b /\ log_reason e = reason
    /\ (log_result e = WIN <-> won b m = true)
    /\ (log_result e = LOSS <-> lost b m = true)
    /\ (log_result e = WIN -> log_pnl e = wager st * (Vocabulary.pickedOdds b m - 1))
    /\ (log_result e = LOSS -> log_pnl e = - wager st)
    /\ (log_result e = PUSHED -> log_pnl e = 0).
Proof.
  unfold settle.
  destruct (won b m) eqn:Hw; [|destruct (lost b m) eqn:Hl]; eexists;
    (split; [reflexivity|]); simpl; repeat split;
    try reflexivity; try discriminate; try congruence.
  intros Hl. apply won_not_lost in Hw. congruence.
Qed.

End AuditLog.

Lemma placed_evaluate (H : Host) (st : BettingSimulator.State)
    (t : BettingSimulator.Tally) (m : Types.ProcessedMatch) :
  (Terms.placed st m = false /\ BettingSimulator.evaluate st t m = t)
  \/ (Terms.placed st m = true
      /\ exists b,
           BettingSimulator.betType (BettingSimulator.signal st m) = Some b
           /\ BettingSimulator.evaluate st t m
              = BettingSimulator.settle st t m b
                  (BettingSimulator.signalReason (BettingSimulator.signal st m))).
Proof.
  unfold Terms.placed, BettingSimulator.evaluate.
  destruct (BettingSimulator.shouldBet (BettingSimulator.signal st m));
    destruct (BettingSimulator.betType (BettingSimulator.signal st m)) as [b|];
    simpl; try (left; split; reflexivity).
  right. split; [reflexivity|]. exists b. split; reflexivity.
Qed.

Lemma fold_evaluate_tally (H : Host) (st : BettingSimulator.State)
    (l : list Types.ProcessedMatch) (t : BettingSimulator.Tally) :
  BettingSimulator.betsPlaced t
  = Terms.counted (List.length (BettingSimulator.historyLogs t)) ->
  BettingSimulator.wins t
  = Terms.counted (Terms.outcomes BettingSimulator.WIN (BettingSimulator.historyLogs t)) ->
  BettingSimulator.losses t
  = Terms.counted (Terms.outcomes BettingSimulator.LOSS (BettingSimulator.historyLogs t)) ->
  BettingSimulator.pushes t
  = Terms.counted (Terms.outcomes BettingSimulator.PUSHED (BettingSimulator.historyLogs t)) ->
  let t' := fold_left (BettingSimulator.evaluate st) l t in
  BettingSimulator.betsPlaced t'
  = Terms.counted (List.length (BettingSimulator.historyLogs t'))
  /\ BettingSimulator.wins t'
     = Terms.counted (Terms.outcomes BettingSimulator.WIN (BettingSimulator.historyLogs t'))
  /\ BettingSimulator.losses t'
     = Terms.counted (Terms.outcomes BettingSimulator.LOSS (BettingSimulator.historyLogs t'))
  /\ BettingSimulator.pushes t'
     = Terms.counted
         (Terms.outcomes BettingSimulator.PUSHED (BettingSimulator.historyLogs t')).
Proof.
  revert t. induction l as [|m l IH]; intros t Hb Hw Hl Hp; simpl.
  - repeat split; assumption.
  - destruct (placed_evaluate H st t m) as [[_ E]|[_ [b [_ E]]]]; rewrite E.
    + now apply IH.
    + destruct (tally_settle st t m b
                  (BettingSimulator.signalReason (BettingSimulator.signal st m))
                  Hb Hw Hl Hp) as [Hb' [Hw' [Hl' Hp']]].
      now apply IH.
Qed.

Lemma fold_evaluate_ids (H : Host) (st : BettingSimulator.State)
    (l : list Types.ProcessedMatch) (t : BettingSimulator.Tally) :
  map BettingSimulator.log_id
    (BettingSimulator.historyLogs (fold_left (BettingSimulator.evaluate st) l t))
  = (map BettingSimulator.log_id (BettingSimulator.historyLogs t)
     ++ map Types.id (filter (Terms.placed st) l))%list.
Proof.
  revert t. induction l as [|m l IH]; intros t; simpl.
  - now rewrite app_nil_r.
  - rewrite IH.
    destruct (placed_evaluate H st t m) as [[P E]|[P [b [_ E]]]]; rewrite E, P.
    + reflexivity.
    + destruct (settle_entry st t m b
                  (BettingSimulator.signalReason (BettingSimulator.signal st m)))
        as [e [Hlogs [Hid _]]].
      rewrite Hlogs, map_app, <- app_assoc. simpl. now rewrite Hid.
Qed.

(** X16.  The audit log of a backtest holds one entry for each filtered match
    the strategy bets on, in the order of the filtered matches (newest first),
    and the counters agree with it: the number of bets is the number of
    entries, and wins, losses and pushes are the numbers of entries with that
    result, which add up to the number of bets. *)
Theorem backtest_counters_match_log (H : Host) (st : BettingSimulator.State) :
  let r := BettingSimulator.calculateBacktestROI st in
  let logs := BettingSimulator.r_historyLogs r in
  map BettingSimulator.log_id logs
  = map Types.id (filter (Terms.placed st) (BettingSimulator.filteredMatches st))
  /\ List.length logs
     = (Terms.outcomes BettingSimulator.WIN logs
        + Terms.outcomes BettingSimulator.LOSS logs
        + Terms.outcomes BettingSimulator.PUSHED logs)%nat
  /\ ((List.length logs <= 4000)%nat ->
      BettingSimulator.r_totalBets r = JS.of_Z (Z.of_nat (List.length logs))
      /\ BettingSimulator.r_wins r
         = JS.of_Z (Z.of_nat (Terms.outcomes BettingSimulator.WIN logs))
      /\ BettingSimulator.r_losses r
         = JS.of_Z (Z.of_nat (Terms.outcomes BettingSimulator.LOSS logs))
      /\ BettingSimulator.r_pushes r
         = JS.of_Z (Z.of_nat (Terms.outcomes BettingSimulator.PUSHED logs))).
Proof.
  intros r logs. split; [|split].
  - exact (fold_evaluate_ids H st (BettingSimulator.filteredMatches st)
             BettingSimulator.emptyTally).
  - apply outcomes_total.
  - intros Hn. pose proof (outcomes_total logs) as Ht.
    destruct (fold_evaluate_tally H st (BettingSimulator.filteredMatches st)
                BettingSimulator.emptyTally eq_refl eq_refl eq_refl eq_refl)
      as [Hb [Hw [Hl Hp]]].
    subst r logs. simpl in *.
    rewrite Hb, Hw, Hl, Hp, !counted_exact by lia. repeat split.
Qed.

Lemma fold_evaluate_entries (H : Host) (st : BettingSimulator.State)
    (P : BettingSimulator.LogEntry -> Prop)
    (l : list Types.ProcessedMatch) (t : BettingSimulator.Tally) :
  (forall m t b, In m l -> Terms.placed st m = true ->
     BettingSimulator.betType (BettingSimulator.signal st m) = Some b ->
     forall e,
       BettingSimulator.historyLogs
         (BettingSimulator.settle st t m b
            (BettingSimulator.signalReason (BettingSimulator.signal st m)))
       = (BettingSimulator.historyLogs t ++ [e])%list -> P e) ->
  Forall P (BettingSimulator.historyLogs t) ->
  Forall P (BettingSimulator.historyLogs (fold_left (BettingSimulator.evaluate st) l t)).
Proof.
  revert t. induction l as [|m l IH]; intros t Hstep Ht; simpl; [exact Ht|].
  apply IH; [intros m' t' b Hin; apply Hstep; now right|].
  destruct (placed_evaluate H st t m) as [[_ E]|[Pm [b [Hb E]]]]; rewrite E; [exact Ht|].
  destruct (settle_entry st t m b
              (BettingSimulator.signalReason (BettingSimulator.signal st m)))
    as [e [Hlogs _]].
  rewrite Hlogs. apply Forall_app. split; [exact Ht|].
  constructor; [|constructor].
  exact (Hstep m t b (or_introl eq_refl) Pm Hb e Hlogs).
Qed.

(** X17.  Every entry of the audit log records a filtered match on which the
    strategy bets: its id, date, teams, score and line are those of the
    match, its pick and reason those of the signal.  The entry is a WIN
    exactly when the score is on the picked side of the line and a LOSS
    exactly when it is on the other side; its profit is the wager times
    (odds of the picked side - 1) for a WIN, minus the wager for a LOSS and 0
    for a PUSH. *)
Theorem backtest_log_entries (H : Host) (st : BettingSimulator.State) :
  Forall
    (fun e =>
       exists m,
         In m (BettingSimulator.filteredMatches st)
         /\ BettingSimulator.betType (BettingSimulator.signal st m)
            = Some (BettingSimulator.log_pick e)
         /\ BettingSimulator.log_reason e
            = BettingSimulator.signalReason (BettingSimulator.signal st m)
         /\ BettingSimulator.log_id e = Types.id m
         /\ BettingSimulator.log_date e = Types.date m
         /\ BettingSimulator.log_home e = Types.homeTeam m
         /\ BettingSimulator.log_away e = Types.awayTeam m
         /\ BettingSimulator.log_score e = Types.totalScore m
         /\ BettingSimulator.log_line e = Types.line m
         /\ (BettingSimulator.log_result e = BettingSimulator.WIN
             <-> (match BettingSimulator.log_pick e with
                  | BettingSimulator.BetOver => Types.line m <? Types.totalScore m
                  | BettingSimulator.BetUnder => Types.totalScore m <? Types.line m
                  end) = true)
         /\ (BettingSimulator.log_result e = BettingSimulator.LOSS
             <-> (match BettingSimulator.log_pick e with
                  | BettingSimulator.BetOver => Types.totalScore m <? Types.line m
                  | BettingSimulator.BetUnder => Types.line m <? Types.totalScore m
                  end) = true)
         /\ (BettingSimulator.log_result e = BettingSimulator.WIN ->
             BettingSimulator.log_pnl e
             = BettingSimulator.wager st
               * (Vocabulary.pickedOdds (BettingSimulator.log_pick e) m - 1))
         /\ (BettingSimulator.log_result e = BettingSimulator.LOSS ->
             BettingSimulator.log_pnl e = - BettingSimulator.wager st)
         /\ (BettingSimulator.log_result e = BettingSimulator.PUSHED ->
             BettingSimulator.log_pnl e = 0))
    (BettingSimulator.r_historyLogs (BettingSimulator.calculateBacktestROI st)).
Proof.
  simpl. apply fold_evaluate_entries; [|constructor].
  intros m t b Hin Pm Hb e He.
  destruct (settle_entry st t m b
              (BettingSimulator.signalReason (BettingSimulator.signal st m)))
    as [e' [Hlogs [Hid [Hdate [Hhome [Haway [Hscore [Hline [Hpick [Hreason
         [Hwin [Hloss [Pw [Pl Pp]]]]]]]]]]]]]].
  rewrite He in Hlogs. apply app_inv_head in Hlogs. injection Hlogs as <-.
  exists m. rewrite Hpick.
  destruct (won_lost_spec m) as [Wo [Lo [Wu Lu]]].
  assert (Hw : BettingSimulator.won b m
               = match b with
                 | BettingSimulator.BetOver => Types.line m <? Types.totalScore m
                 | BettingSimulator.BetUnder => Types.totalScore m <? Types.line m
                 end) by (now destruct b).
  assert (Hl : BettingSimulator.lost b m = true
               <-> match b with
                   | BettingSimulator.BetOver => Types.totalScore m <? Types.line m
                   | BettingSimulator.BetUnder => Types.line m <? Types.totalScore m
                   end = true) by (now destruct b).
  rewrite <- Hw, <- Hl.
  repeat split; try assumption; try apply Hwin; try apply Hloss.
Qed.

Lemma blind_fold (H : Host) (st : BettingSimulator.State)
    (l : list Types.ProcessedMatch) (t1 t2 : BettingSimulator.Tally) :
  BettingSimulator.betsPlaced t1 = BettingSimulator.betsPlaced t2 ->
  BettingSimulator.wins t1 = BettingSimulator.losses t2 ->
  BettingSimulator.losses t1 = BettingSimulator.wins t2 ->
  BettingSimulator.pushes t1 = BettingSimulator.pushes t2 ->
  let o := fold_left
             (BettingSimulator.evaluate (Terms.withStrategy st BettingSimulator.ALL_OVER))
             l t1 in
  let u := fold_left
             (BettingSimulator.evaluate (Terms.withStrategy st BettingSimulator.ALL_UNDER))
             l t2 in
  BettingSimulator.betsPlaced o = BettingSimulator.betsPlaced u
  /\ BettingSimulator.wins o = BettingSimulator.losses u
  /\ BettingSimulator.losses o = BettingSimulator.wins u
  /\ BettingSimulator.pushes o = BettingSimulator.pushes u.
Proof.
  revert t1 t2. induction l as [|m l IH]; intros t1 t2 Hb Hw Hl Hp; simpl.
  - repeat split; assumption.
  - destruct (won_lost_spec m) as [Wo [Lo [Wu Lu]]].
    apply IH; unfold BettingSimulator.evaluate, BettingSimulator.settle; simpl;
      unfold BettingSimulator.won, BettingSimulator.lost;
      destruct (Types.line m <? Types.totalScore m) eqn:Hgt;
      destruct (Types.totalScore m <? Types.line m) eqn:Hlt;
      try (apply ltb_asym in Hgt; congruence); simpl; congruence.
Qed.

(** X18.  Betting every filtered match blindly Over and blindly Under are
    mirror images: both place a bet on every filtered match, the wins of one
    are the losses of the other, and the pushes are the same. *)
Theorem blind_strategies_mirror (H : Host) (st : BettingSimulator.State) :
  let over :=
    BettingSimulator.calculateBacktestROI
      (Terms.withStrategy st BettingSimulator.ALL_OVER) in
  let under :=
    BettingSimulator.calculateBacktestROI
      (Terms.withStrategy st BettingSimulator.ALL_UNDER) in
  map BettingSimulator.log_id (BettingSimulator.r_historyLogs over)
  = map Types.id (BettingSimulator.filteredMatches st)
  /\ map BettingSimulator.log_id (BettingSimulator.r_historyLogs under)
     = map Types.id (BettingSimulator.filteredMatches st)
  /\ BettingSimulator.r_totalBets over = BettingSimulator.r_totalBets under
  /\ BettingSimulator.r_wins over = BettingSimulator.r_losses under
  /\ BettingSimulator.r_losses over = BettingSimulator.r_wins under
  /\ BettingSimulator.r_pushes over = BettingSimulator.r_pushes under.
Proof.
  intros over under.
  assert (Hall : forall s,
            s = BettingSimulator.ALL_OVER \/ s = BettingSimulator.ALL_UNDER ->
            filter (Terms.placed (Terms.withStrategy st s))
              (BettingSimulator.filteredMatches st)
            = BettingSimulator.filteredMatches st).
  { intros s Hs. apply filter_all. intros m _. now destruct Hs as [-> | ->]. }
  split; [|split].
  - eapply eq_trans;
      [exact (fold_evaluate_ids H (Terms.withStrategy st BettingSimulator.ALL_OVER)
                (BettingSimulator.filteredMatches st) BettingSimulator.emptyTally)|].
    rewrite Hall by (now left). reflexivity.
  - eapply eq_trans;
      [exact (fold_evaluate_ids H (Terms.withStrategy st BettingSimulator.ALL_UNDER)
                (BettingSimulator.filteredMatches st) BettingSimulator.emptyTally)|].
    rewrite Hall by (now right). reflexivity.
  - exact (blind_fold H st (BettingSimulator.filteredMatches st)
             BettingSimulator.emptyTally BettingSimulator.emptyTally
             eq_refl eq_refl eq_refl eq_refl).
Qed.

(** ** Live value bets *)

Section LiveBets.
Import LiveSignals.

Lemma In_dropNulls {A : Type} (x : A) (l : list (option A)) :
  In x (dropNulls l) <-> In (Some x) l.
Proof.
  induction l as [|[y|] l IH]; simpl.
  - tauto.
  - rewrite IH. split; intros [E|Hin]; auto; left; congruence.
  - rewrite IH. split; [auto|]. intros [E|Hin]; [discriminate|exact Hin].
Qed.

Lemma getLiveValueBets_In (s : Panel) (bet : ValueBet) :
  In bet (getLiveValueBets s)
  <-> (exists game, In game (liveGames s) /\ valueBet s game = Some bet)
      /\ shown (liveFilter s) bet = true.
Proof.
  unfold getLiveValueBets. rewrite filter_In, In_dropNulls, in_map_iff.
  split; intros [[game Hg] Hs]; (split; [exists game|exact Hs]); tauto.
Qed.

(** What a bet built from a game holds. *)
Lemma valueBet_Some (s : Panel) (game : Live.LiveGame) (bet : ValueBet) :
  valueBet s game = Some bet ->
  exists totals over under,
    totalsMarket game = Some totals
    /\ find (fun o => String.eqb (Live.name o) "Over") (Live.outcomes totals) = Some over
    /\ find (fun o => String.eqb (Live.name o) "Under") (Live.outcomes totals) = Some under
    /\ Live.point over = Some (line bet)
    /\ JS.truthy (line bet) = true
    /\ id bet = Live.id game /\ home bet = Live.home_team game
    /\ away bet = Live.away_team game
    /\ overPrice bet = Live.price over /\ underPrice bet = Live.price under
    /\ reversionPick bet = reversionOf s (line bet)
    /\ (isPicked (modelPick bet) || isPicked (reversionPick bet)
        || isPicked (efficiencyPick bet)) = true
    /\ match teamStats s (Live.home_team game), teamStats s (Live.away_team game) with
       | Some h, Some a =>
           projected bet = projectedTotal h a
           /\ modelEdge bet = abs (projectedTotal h a - line bet)
           /\ modelPick bet = pickOfEdge (valueMargin s) (projectedTotal h a - line bet)
           /\ combinedFG bet = (Types.avgFG_Pct h + Types.avgFG_Pct a) / 2
           /\ efficiencyPick bet
              = (if efficiencyThreshold s <? (Types.avgFG_Pct h + Types.avgFG_Pct a) / 2
                 then Some BettingSimulator.BetOver else None)
       | _, _ =>
           projected bet = 0 /\ modelEdge bet = 0 /\ modelPick bet = None
           /\ combinedFG bet = 0 /\ efficiencyPick bet = None
       end.
Proof.
  unfold valueBet.
  destruct (totalsMarket game) as [totals|] eqn:Et; [|discriminate].
  destruct (find (fun o => String.eqb (Live.name o) "Over") (Live.outcomes totals))
    as [over|] eqn:Eo; [|discriminate].
  destruct (find (fun o => String.eqb (Live.name o) "Under") (Live.outcomes totals))
    as [under|] eqn:Eu; [|discriminate].
  destruct (Live.point over) as [l|] eqn:Hp; [|discriminate].
  destruct (JS.truthy l) eqn:Ht; [|discriminate].
  intros Hb. exists totals, over, under.
  destruct (teamStats s (Live.home_team game)) as [h|];
    [destruct (teamStats s (Live.away_team game)) as [a|]|].
  - destruct (pickOfEdge (valueMargin s) (projectedTotal h a - l)) eqn:Em;
      destruct (reversionOf s l) eqn:Er;
      destruct (efficiencyThreshold s <? (Types.avgFG_Pct h + Types.avgFG_Pct a) / 2)
        eqn:Ee;
      try discriminate; injection Hb as <-; simpl; rewrite ?Em, ?Er, ?Ee;
      repeat split; try assumption; reflexivity.
  - destruct (reversionOf s l) eqn:Er; try discriminate; injection Hb as <-; simpl;
      rewrite ?Er; repeat split; try assumption; reflexivity.
  - destruct (reversionOf s l) eqn:Er; try discriminate; injection Hb as <-; simpl;
      rewrite ?Er; repeat split; try assumption; reflexivity.
Qed.

End LiveBets.

(** X19.  Every live value bet comes from a live game whose first bookmaker
    has a totals market with an Over and an Under outcome; its line is the
    point of the Over outcome and is a usable number (not 0, not NaN), its
    prices are those of the two outcomes, at least one of the three signals
    picks a side, and under a filter other than ALL the signal of that filter
    does. *)
Theorem getLiveValueBets_sound (s : LiveSignals.Panel) :
  Forall
    (fun bet =>
       (exists game totals over under,
          In game (LiveSignals.liveGames s)
          /\ LiveSignals.totalsMarket game = Some totals
          /\ find (fun o => String.eqb (Live.name o) "Over") (Live.outcomes totals)
             = Some over
          /\ find (fun o => String.eqb (Live.name o) "Under") (Live.outcomes totals)
             = Some under
          /\ LiveSignals.id bet = Live.id game
          /\ LiveSignals.home bet = Live.home_team game
          /\ LiveSignals.away bet = Live.away_team game
          /\ Live.point over = Some (LiveSignals.line bet)
          /\ LiveSignals.overPrice bet = Live.price over
          /\ LiveSignals.underPrice bet = Live.price under)
       /\ is_nan (LiveSignals.line bet) = false
       /\ (LiveSignals.line bet =? 0) = false
       /\ (LiveSignals.modelPick bet <> None \/ LiveSignals.reversionPick bet <> None
           \/ LiveSignals.efficiencyPick bet <> None)
       /\ match LiveSignals.liveFilter s with
          | LiveSignals.ALL => True
          | LiveSignals.MODEL => LiveSignals.modelPick bet <> None
          | LiveSignals.REVERSION => LiveSignals.reversionPick bet <> None
          | LiveSignals.HIGH_EFFICIENCY => LiveSignals.efficiencyPick bet <> None
          end)
    (LiveSignals.getLiveValueBets s).
Proof.
  apply Forall_forall. intros bet Hin.
  apply getLiveValueBets_In in Hin. destruct Hin as [[game [Hg Hb]] Hs].
  destruct (valueBet_Some s game bet Hb)
    as (totals & over & under & Ht & Ho & Hu & Hp & Htr & Hid & Hh & Ha & Pop & Pup & _ & Hany & _).
  split; [exists game, totals, over, under; repeat split; assumption|].
  unfold JS.truthy in Htr. apply negb_true_iff, orb_false_iff in Htr.
  destruct Htr as [Hn Hz]. split; [exact Hn|]. split; [exact Hz|]. split.
  - destruct (LiveSignals.modelPick bet); [left; discriminate|].
    destruct (LiveSignals.reversionPick bet); [right; left; discriminate|].
    destruct (LiveSignals.efficiencyPick bet); [right; right; discriminate|].
    discriminate.
  - unfold LiveSignals.shown in Hs. destruct (LiveSignals.liveFilter s); [exact I| | |].
    + destruct (LiveSignals.modelPick bet); discriminate.
    + destruct (LiveSignals.reversionPick bet); discriminate.
    + destruct (LiveSignals.efficiencyPick bet); discriminate.
Qed.

(** X20.  The reversion signal of a live value bet compares the line with the
    average total of the default season (230 when it has no match): Under when
    the line is more than 5 above it, Over when it is more than 5 below, none
    when the deviation is within 5 either way; exactly 5 gives none. *)
Theorem live_reversion_rule (s : LiveSignals.Panel) :
  Forall
    (fun bet =>
       let deviation := LiveSignals.line bet - LiveSignals.currentLeagueAvg s in
       (LiveSignals.reversionPick bet = Some BettingSimulator.BetUnder
        <-> (5 <? deviation) = true)
       /\ (LiveSignals.reversionPick bet = Some BettingSimulator.BetOver
           <-> (deviation <? -5) = true)
       /\ ((deviation =? 5) = true \/ (deviation =? -5) = true ->
           LiveSignals.reversionPick bet = None))
    (LiveSignals.getLiveValueBets s).
Proof.
  apply Forall_forall. intros bet Hin.
  apply getLiveValueBets_In in Hin. destruct Hin as [[game [Hg Hb]] _].
  destruct (valueBet_Some s game bet Hb)
    as (_ & _ & _ & _ & _ & _ & _ & _ & _ & _ & _ & _ & _ & Hr & _).
  intros deviation. rewrite Hr. unfold LiveSignals.reversionOf. fold deviation.
  assert (Hex : (5 <? deviation) = true -> (deviation <? -5) = true -> False).
  { intros H1 H2. pose proof (ltb_trans _ _ _ H1 H2) as H3.
    vm_compute in H3. discriminate. }
  assert (Hedge : (deviation =? 5) = true \/ (deviation =? -5) = true ->
                  (5 <? deviation) = false /\ (deviation <? -5) = false).
  { assert (H55 : PrimFloat.ltb (-5)%float 5%float = true) by (vm_compute; reflexivity).
    intros [E|E]; apply eqb_not_ltb in E; destruct E as [Ea Eb]; split;
      try assumption.
    - destruct (deviation <? -5) eqn:E2; [|reflexivity].
      rewrite (ltb_trans deviation (-5)%float 5%float E2 H55) in Ea. discriminate.
    - destruct (5 <? deviation) eqn:E1; [|reflexivity].
      rewrite (ltb_trans (-5)%float 5%float deviation H55 E1) in Eb. discriminate. }
  destruct (5 <? deviation) eqn:E1; destruct (deviation <? -5) eqn:E2;
    try (exfalso; now apply Hex);
    (split; [|split]); try (split; (discriminate || reflexivity));
    try (intros Hd; apply Hedge in Hd; destruct Hd; discriminate).
Qed.

(** X21.  The model and efficiency signals of a live value bet need the
    default-season stats of both teams, looked up under their normalised
    names.  When either is missing the bet has neither signal, a projection
    of 0 and an edge of 0, so it is listed for its reversion signal alone.
    When both are found, the edge is the distance between the projection and
    the line; the model picks Under when projection minus line is below minus
    the margin, Over when it is above the margin and not below minus the
    margin; efficiency picks Over exactly when the mean of the two teams'
    field-goal percentages is above the threshold. *)
Theorem live_team_signals (s : LiveSignals.Panel) :
  Forall
    (fun bet =>
       (LiveSignals.teamStats s (LiveSignals.home bet) = None
        \/ LiveSignals.teamStats s (LiveSignals.away bet) = None ->
        LiveSignals.modelPick bet = None /\ LiveSignals.efficiencyPick bet = None
        /\ LiveSignals.projected bet = 0 /\ LiveSignals.modelEdge bet = 0
        /\ LiveSignals.reversionPick bet <> None)
       /\ forall h a,
            LiveSignals.teamStats s (LiveSignals.home bet) = Some h ->
            LiveSignals.teamStats s (LiveSignals.away bet) = Some a ->
            let projected :=
              (Types.avgPointsFor h + Types.avgPointsAgainst h
               + (Types.avgPointsFor a + Types.avgPointsAgainst a)) / 4 * 2 in
            let edge := projected - LiveSignals.line bet in
            LiveSignals.projected bet = projected
            /\ LiveSignals.modelEdge bet = abs edge
            /\ (LiveSignals.modelPick bet = Some BettingSimulator.BetUnder
                <-> (edge <? - LiveSignals.valueMargin s) = true)
            /\ (LiveSignals.modelPick bet = Some BettingSimulator.BetOver
                <-> (LiveSignals.valueMargin s <? edge) = true
                    /\ (edge <? - LiveSignals.valueMargin s) = false)
            /\ (LiveSignals.efficiencyPick bet = Some BettingSimulator.BetOver
                <-> (LiveSignals.efficiencyThreshold s
                     <? (Types.avgFG_Pct h + Types.avgFG_Pct a) / 2) = true))
    (LiveSignals.getLiveValueBets s).
Proof.
  apply Forall_forall. intros bet Hin.
  apply getLiveValueBets_In in Hin. destruct Hin as [[game [Hg Hb]] _].
  destruct (valueBet_Some s game bet Hb)
    as (_ & _ & _ & _ & _ & _ & _ & _ & _ & Hh & Ha & _ & _ & _ & Hany & Hteams).
  rewrite Hh, Ha. split.
  - intros Hnone.
    assert (Hm : LiveSignals.projected bet = 0 /\ LiveSignals.modelEdge bet = 0
                 /\ LiveSignals.modelPick bet = None
                 /\ LiveSignals.combinedFG bet = 0
                 /\ LiveSignals.efficiencyPick bet = None).
    { destruct Hnone as [E|E]; rewrite E in Hteams; [exact Hteams|].
      now destruct (LiveSignals.teamStats s (Live.home_team game)). }
    destruct Hm as [Hp [He [Hm [_ Hf]]]]. rewrite Hm, Hf in Hany |- *.
    repeat split; try assumption.
    destruct (LiveSignals.reversionPick bet); discriminate.
  - intros h a Eh Ea projected edge. rewrite Eh, Ea in Hteams.
    destruct Hteams as [Hp [He [Hm [_ Hf]]]].
    change (LiveSignals.projectedTotal h a) with projected in Hp, He, Hm.
    fold edge in He, Hm. rewrite Hm, Hf. unfold LiveSignals.pickOfEdge.
    split; [exact Hp|]. split; [exact He|].
    destruct (edge <? - LiveSignals.valueMargin s);
      destruct (LiveSignals.valueMargin s <? edge);
      destruct (LiveSignals.efficiencyThreshold s
                <? (Types.avgFG_Pct h + Types.avgFG_Pct a) / 2);
      repeat split; try discriminate; try reflexivity;
      try (intros [? ?]; discriminate).
Qed.

(** ** Line movements *)

Section Movements.
Import LineMovements.

Lemma getLineFromGame_usable (game : Live.LiveGame) (x : float) :
  getLineFromGame game = Some x -> JS.truthy x = true.
Proof.
  unfold getLineFromGame.
  destruct (LiveSignals.totalsMarket game) as [market|]; [|discriminate].
  destruct (Live.outcomes market) as [|o outcomes]; [discriminate|].
  destruct (Live.point o) as [y|]; [|discriminate].
  destruct (JS.truthy y) eqn:E; [|discriminate].
  now intros [= <-].
Qed.

(** One new game either leaves the movements alone or records its own. *)
Lemma trackGame_cases (oldGames : list Live.LiveGame) (now : float)
    (movements : JS.object Live.LineMovement) (newGame : Live.LiveGame) :
  trackGame oldGames now movements newGame = movements
  \/ exists oldGame newLine oldLine,
       In oldGame oldGames /\ Live.id oldGame = Live.id newGame
       /\ getLineFromGame newGame = Some newLine
       /\ getLineFromGame oldGame = Some oldLine
       /\ (newLine =? oldLine) = false
       /\ trackGame oldGames now movements newGame
          = JS.set movements (Live.id newGame)
              {| Live.gameId := Live.id newGame;
                 Live.oldLine := oldLine;
                 Live.newLine := newLine;
                 Live.timestamp := now;
                 Live.direction := if oldLine <? newLine then Live.UP else Live.DOWN |}.
Proof.
  unfold trackGame, oldGameOf.
  destruct (find _ (rev oldGames)) as [oldGame|] eqn:Ef; [|now left].
  apply find_some in Ef. destruct Ef as [Hin Hid].
  apply in_rev in Hin. apply String.eqb_eq in Hid.
  destruct (getLineFromGame newGame) as [newLine|] eqn:En; [|now left].
  destruct (getLineFromGame oldGame) as [oldLine|] eqn:Eo; [|now left].
  destruct (newLine =? oldLine) eqn:E; [now left|].
  right. exists oldGame, newLine, oldLine. repeat split; assumption.
Qed.

End Movements.

(** X22.  After a refresh of the odds, the movement stored for a game id is
    either the one stored before or a new one, recorded between an old and a
    new snapshot of that game whose totals lines are both usable numbers and
    differ: it keeps both lines and the time of the refresh, and its
    direction is UP exactly when the new line is above the old one.  No
    stored movement is removed, and without old games nothing changes. *)
Theorem trackMovements_entries (oldGames newGames : list Live.LiveGame) (now : float)
    (lineMovements : JS.object Live.LineMovement) :
  let result := LineMovements.trackMovements oldGames newGames now lineMovements in
  (forall i,
     JS.get result i = JS.get lineMovements i
     \/ exists oldGame newGame oldLine newLine,
          In oldGame oldGames /\ In newGame newGames
          /\ Live.id oldGame = i /\ Live.id newGame = i
          /\ LineMovements.getLineFromGame oldGame = Some oldLine
          /\ LineMovements.getLineFromGame newGame = Some newLine
          /\ JS.truthy oldLine = true /\ JS.truthy newLine = true
          /\ (newLine =? oldLine) = false
          /\ JS.get result i
             = Some {| Live.gameId := i;
                       Live.oldLine := oldLine;
                       Live.newLine := newLine;
                       Live.timestamp := now;
                       Live.direction :=
                         if oldLine <? newLine then Live.UP else Live.DOWN |})
  /\ (forall i, JS.get lineMovements i <> None -> JS.get result i <> None)
  /\ (oldGames = [] -> result = lineMovements).
Proof.
  unfold LineMovements.trackMovements.
  induction newGames as [|g newGames IH] using rev_ind; simpl.
  - split; [now left|]. split; [auto|reflexivity].
  - rewrite fold_left_app. simpl.
    destruct IH as [IHget [IHkeep IHnone]].
    set (before := fold_left (LineMovements.trackGame oldGames now) newGames lineMovements)
      in *.
    destruct (trackGame_cases oldGames now before g)
      as [E|(oldGame & newLine & oldLine & Hin & Hid & Hn & Ho & Hne & E)]; rewrite E.
    + split; [|split; assumption].
      intros i. destruct (IHget i)
        as [Hi|(o & n & ol & nl & H1 & H2 & H3)]; [now left|].
      right. exists o, n, ol, nl. split; [exact H1|]. split; [|exact H3].
      apply in_or_app. now left.
    + split; [|split].
      * intros i. destruct (String.eqb_spec (Live.id g) i) as [<-|Hi].
        -- right. exists oldGame, g, oldLine, newLine.
           rewrite get_set_same.
           repeat split; try assumption.
           ++ apply in_or_app. right. now left.
           ++ now apply getLineFromGame_usable in Ho.
           ++ now apply getLineFromGame_usable in Hn.
        -- rewrite get_set_other by exact Hi.
           destruct (IHget i)
             as [Hg|(o & n & ol & nl & H1 & H2 & H3)]; [now left|].
           right. exists o, n, ol, nl. split; [exact H1|]. split; [|exact H3].
           apply in_or_app. now left.
      * intros i Hi. destruct (String.eqb_spec (Live.id g) i) as [<-|Hne'].
        -- rewrite get_set_same. discriminate.
        -- rewrite get_set_other by exact Hne'. now apply IHkeep.
      * intros ->. destruct Hin.
Qed.

(** X23.  The line whose movement is tracked is the point of the first
    outcome of the totals market, while a live value bet uses the point of
    the outcome named Over.  When the first outcome is the Over outcome the
    two agree: the tracked line of the game is the line of its value bet. *)
Theorem tracked_line_is_bet_line (s : LiveSignals.Panel) (game : Live.LiveGame)
    (bet : LiveSignals.ValueBet) (totals : Live.Market) (first : Live.Outcome) :
  LiveSignals.valueBet s game = Some bet ->
  LiveSignals.totalsMarket game = Some totals ->
  hd_error (Live.outcomes totals) = Some first ->
  Live.name first = "Over" ->
  LineMovements.getLineFromGame game = Some (LiveSignals.line bet).
Proof.
  intros Hb Ht Hf Hname.
  destruct (valueBet_Some s game bet Hb)
    as (totals' & over & under & Ht' & Ho & _ & Hp & Htr & _).
  rewrite Ht in Ht'. injection Ht' as <-.
  unfold LineMovements.getLineFromGame. rewrite Ht.
  destruct (Live.outcomes totals) as [|o outcomes]; [discriminate|].
  injection Hf as ->. simpl in Ho. rewrite Hname in Ho. simpl in Ho.
  injection Ho as <-. now rewrite Hp, Htr.
Qed.

(** ** The team dashboard *)

Section QuarterAverages.
Import Types Dashboard.

Lemma addAt_length (i : nat) (s : float) (sums : list float) :
  List.length (addAt i s sums) = List.length sums.
Proof.
  revert i. induction sums as [|x sums IH]; intros i; [now destruct i|].
  destruct i; simpl; [reflexivity|now rewrite IH].
Qed.

Lemma addScores_length (scores : list float) (i : nat) (sums : list float) :
  List.length (addScores i scores sums) = List.length sums.
Proof.
  revert i sums. induction scores as [|s scores IH]; intros i sums; simpl; [reflexivity|].
  rewrite IH. destruct (Nat.ltb i 4); [apply addAt_length|reflexivity].
Qed.

End QuarterAverages.

(** X24.  The quarter averages of a team are always four numbers, whatever
    the lengths of the quarter-score arrays of its games; a team without a
    game gets four zeros (no division by the zero game count takes place). *)
Theorem calculateQuarterAvgs_four (matches : list Types.ProcessedMatch)
    (teamName : string) :
  List.length (Dashboard.calculateQuarterAvgs matches teamName) = 4%nat
  /\ (filter (Dashboard.playsIn teamName) matches = [] ->
      Dashboard.calculateQuarterAvgs matches teamName = [0; 0; 0; 0]%float).
Proof.
  unfold Dashboard.calculateQuarterAvgs. split.
  - destruct (Nat.eqb _ 0); [reflexivity|].
    rewrite length_map.
    assert (Hlen : forall l sums',
              List.length
                (fold_left
                   (fun sums m =>
                      Dashboard.addScores 0
                        (if String.eqb (Types.homeTeam m) teamName
                         then Types.homeQScores m else Types.awayQScores m) sums)
                   l sums') = List.length sums').
    { induction l as [|m l IH]; intros sums'; simpl; [reflexivity|].
      rewrite IH. apply addScores_length. }
    now rewrite Hlen.
  - intros ->. reflexivity.
Qed.

(** X25.  The recent form of a team lists at most five games, all of them
    games of that team in the data set.  Each entry carries the
    id, date, line and result against the line of its game, names the other
    team as opponent, and is a W exactly when the team scored strictly more
    than the opponent (a tie is an L).  The list is shorter than five only
    when the team has fewer games.  When no game of the team has an invalid
    date, the list is ordered newest first, every entry standing before all
    entries that are no newer, and it holds the most recent games: the games
    of the team split into those listed and the rest, and no game of the rest
    is newer than a listed one.  (With an invalid date the comparator is no
    order, and both the choice and the arrangement are left to the engine.) *)
Theorem getLast5Games_recent (H : Host) (matches : list Types.ProcessedMatch)
    (teamName : string) :
  let games := Dashboard.getLast5Games matches teamName in
  let played := filter (Dashboard.playsIn teamName) matches in
  List.length games = Nat.min 5 (List.length played)
  /\ (Forall (fun m => is_nan (Types.date m) = false) played ->
      StronglySorted (fun a b => (Dashboard.g_date b <=? Dashboard.g_date a) = true) games
      /\ exists listed rest,
           Permutation played (listed ++ rest)
           /\ map Dashboard.g_id games = map Types.id listed
           /\ map Dashboard.g_date games = map Types.date listed
           /\ forall a b, In a listed -> In b rest ->
                          (Types.date b <=? Types.date a) = true)
  /\ Forall
       (fun g =>
          exists m,
            In m matches
            /\ Dashboard.g_id g = Types.id m /\ Dashboard.g_date g = Types.date m
            /\ Dashboard.g_line g = Types.line m
            /\ Dashboard.totalResult g = Types.result m
            /\ ((Types.homeTeam m = teamName
                 /\ Dashboard.opponent g = Types.awayTeam m
                 /\ (Dashboard.g_result g = Dashboard.W
                     <-> (Types.awayScore m <? Types.homeScore m) = true))
                \/ (Types.homeTeam m <> teamName /\ Types.awayTeam m = teamName
                    /\ Dashboard.opponent g = Types.homeTeam m
                    /\ (Dashboard.g_result g = Dashboard.W
                        <-> (Types.homeScore m <? Types.awayScore m) = true))))
       games.
Proof.
  intros games played. subst games played. unfold Dashboard.getLast5Games, JS.slice0.
  split; [|split].
  - rewrite length_map, length_firstn.
    now rewrite (Permutation_length (sort_perm Utils.byDateDesc _)).
  - intros Hvalid.
    pose proof (byDateDesc_sorted _ Hvalid) as Hs.
    set (sorted := JS.sort Utils.byDateDesc
                     (filter (Dashboard.playsIn teamName) matches)) in *.
    split.
    + apply (StronglySorted_map Terms.noNewer); [auto|].
      now apply StronglySorted_firstn.
    + exists (firstn 5 sorted), (skipn 5 sorted). repeat split.
      * rewrite firstn_skipn. symmetry. apply sort_perm.
      * rewrite map_map. reflexivity.
      * rewrite map_map. reflexivity.
      * intros a b Ha Hb. exact (StronglySorted_split Terms.noNewer 5 sorted Hs a b Ha Hb).
  - apply Forall_forall. intros g Hg. apply in_map_iff in Hg.
    destruct Hg as [m [<- Hm]]. exists m.
    apply slice0_In, sort_In, filter_In in Hm. destruct Hm as [Hin Hp].
    split; [exact Hin|]. simpl. repeat split.
    unfold Dashboard.playsIn in Hp.
    destruct (String.eqb_spec (Types.homeTeam m) teamName) as [Eh|Eh].
    + left. repeat split; try assumption.
      * destruct (Types.awayScore m <? Types.homeScore m); [reflexivity|discriminate].
      * intros ->. reflexivity.
    + right. simpl in Hp. apply String.eqb_eq in Hp. repeat split; try assumption.
      * destruct (Types.homeScore m <? Types.awayScore m); [reflexivity|discriminate].
      * intros ->. reflexivity.
Qed.

(** ** Spread and symmetry *)

Section Spread.

Lemma binary_round_aux_sign (s : bool) (m e : Z) (l : location) :
  match binary_round_aux prec emax s m e l with
  | S754_zero s' | S754_infinity s' | S754_finite s' _ _ => s' = s
  | S754_nan => True
  end.
Proof.
  unfold binary_round_aux.
  destruct (shr_fexp prec emax m e l) as [mrs' e'].
  destruct (shr_fexp prec emax _ e' loc_Exact) as [mrs'' e''].
  destruct (shr_m mrs''); [reflexivity| |exact I].
  destruct (e'' <=? emax - prec)%Z; reflexivity.
Qed.

(** A square root is never below zero. *)
Lemma sqrt_not_negative (x : float) : (sqrt x <? 0) = false.
Proof.
  destruct (sqrt x <? 0) eqn:E; [exfalso|reflexivity].
  apply ltb_SFcompare in E. rewrite sqrt_spec in E.
  change (Prim2SF 0) with (S754_zero false) in E.
  unfold SF64sqrt, SFsqrt in E.
  destruct (Prim2SF x) as [s|s| |s m e]; try destruct s; simpl in E; try discriminate.
  destruct (SFsqrt_core_binary prec emax (Z.pos m) e) as [[mz ez] lz].
  pose proof (binary_round_aux_sign false mz ez lz) as S.
  destruct (binary_round_aux prec emax false mz ez lz) as [s|s| |s m' e'];
    try subst s; simpl in E; discriminate.
Qed.

Lemma float_add_comm (x y : float) : x + y = y + x.
Proof.
  apply Prim2SF_inj. rewrite !add_spec. unfold SF64add, SFadd.
  destruct (Prim2SF x) as [sx|sx| |sx mx ex], (Prim2SF y) as [sy|sy| |sy my ey];
    try reflexivity; try (destruct sx, sy; reflexivity).
  now rewrite Z.min_comm, Z.add_comm.
Qed.

End Spread.

(** X26.  The spread [sd15] of the insights of a match is never negative,
    whatever the history holds: it is 0 without a history and a square root
    otherwise (which may be [NaN] or infinite, but not below zero). *)
Theorem sd15_never_negative (target : Types.ProcessedMatch)
    (allMatches : list Types.ProcessedMatch) :
  (Utils.sd15 (Utils.generateMatchInsights target allMatches) <? 0) = false.
Proof.
  unfold Utils.generateMatchInsights. simpl.
  destruct (0 <? JS.length_number _); [|reflexivity].
  unfold Utils.getSD. apply sqrt_not_negative.
Qed.

(** X27.  The kinds of insight of a matchup do not depend on the order in
    which the two teams are given: swapping the teams yields the same
    sequence of insight types. *)
Theorem analyzeMatchup_symmetric (H : Host) (t1 t2 : Types.TeamStats) :
  map Types.type (Utils.analyzeMatchup t1 t2)
  = map Types.type (Utils.analyzeMatchup t2 t1).
Proof.
  rewrite !analyzeMatchup_types.
  unfold Vocabulary.paceClash, Vocabulary.shootingDrought, Vocabulary.foulHeavy,
    Vocabulary.defensiveGrind.
  rewrite (float_add_comm (Types.avgFGA t2)), (float_add_comm (Types.avgFouls t2)),
    (float_add_comm (Types.avgFTM t2)),
    (andb_comm (Types.avg3P_Pct t2 <? 33)),
    (andb_comm (Types.avgPointsAgainst t2 <? 108)).
  do 3 f_equal.
  unfold Vocabulary.fired.
  destruct (Vocabulary.mismatch t1 t2), (Vocabulary.mismatch t2 t1); reflexivity.
Qed.

(** ** Worked instances *)

Lemma aggregateTeamStats_gamesPlayed_witness :
  let teams := Aggregator.aggregateTeamStats [] (Some Fixtures.rawSeason) in
  let t := nth 0 teams (Aggregator.newTeam "") in
  In t teams /\ Types.name t = "Boston Celtics" /\ Types.gamesPlayed t = Some 2.
Proof.
  assert (Hin : In (nth 0 (Aggregator.aggregateTeamStats [] (Some Fixtures.rawSeason))
                      (Aggregator.newTeam ""))
                  (Aggregator.aggregateTeamStats [] (Some Fixtures.rawSeason)))
    by (vm_compute; left; reflexivity).
  split; [exact Hin|]. split; [reflexivity|].
  destruct (aggregateTeamStats_gamesPlayed [] Fixtures.rawSeason _ Hin) as [_ [_ W]].
  rewrite W by (vm_compute; lia). vm_compute. reflexivity.
Defined.

Lemma calculateMarketInsights_teams_witness :
  let r := Aggregator.calculateMarketInsights Samples.season in
  Aggregator.nightmares r <> None /\ Aggregator.sharps r <> None
  /\ Aggregator.nightmares (Aggregator.calculateMarketInsights []) = None
  /\ (forall row top,
        In row (Aggregator.marketRows Samples.season) ->
        Aggregator.nightmares r = Some top ->
        (Aggregator.avgDiff row <=? Aggregator.avgDiff top) = true).
Proof.
  destruct (calculateMarketInsights_teams Samples.season) as [_ [_ [W [_ [R _]]]]].
  destruct (calculateMarketInsights_teams []) as [_ [E _]].
  assert (Hex : exists m, In m Samples.season
                          /\ (JS.inherited (Types.homeTeam m) = false
                              \/ JS.inherited (Types.awayTeam m) = false)).
  { exists (nth 0 Samples.season Samples.target).
    split; [vm_compute; left; reflexivity|left; vm_compute; reflexivity]. }
  pose proof (proj1 (Forall_forall _ _) (W Hex)) as W'.
  pose proof (proj1 (Forall_forall _ _) (E (fun m (Hm : In m []) => match Hm with end)))
    as E'.
  split; [apply W'; left; reflexivity|].
  split; [apply W'; right; left; reflexivity|].
  split; [apply E'; left; reflexivity|].
  intros row top Hrow Htop.
  assert (Hvalid : Forall (fun row => is_nan (Aggregator.avgDiff row) = false)
                     (Aggregator.marketRows Samples.season)).
  { apply Forall_forall. intros x Hx. vm_compute in Hx.
    repeat (destruct Hx as [<-|Hx]; [vm_compute; reflexivity|]). contradiction. }
  exact (proj1 (R Hvalid row Hrow) top Htop).
Defined.

Lemma processMatches_odds_usable_witness :
  let m := @Utils.processMatch Samples.host Samples.game2 in
  In m (@Utils.processMatches Samples.host [Samples.game2])
  /\ Types.over_odds (Types.line_odds Samples.game2) = 0
  /\ JS.truthy (Types.overOdds m) = true /\ JS.truthy (Types.underOdds m) = true.
Proof.
  assert (Hin : In (@Utils.processMatch Samples.host Samples.game2)
                  (@Utils.processMatches Samples.host [Samples.game2]))
    by (left; reflexivity).
  split; [exact Hin|]. split; [reflexivity|].
  exact (proj1 (processMatches_odds_usable Samples.host [Samples.game2] _ Hin)).
Defined.

Lemma processMatches_periods_agree_witness :
  let m := @Utils.processMatch Samples.host Samples.game1 in
  In m (@Utils.processMatches Samples.host [Samples.game1])
  /\ JS.index (Types.quarterlyTotals m) 3
     = JS.index (Types.homeQScores m) 3 + JS.index (Types.awayQScores m) 3
  /\ Types.regulationTotal m = 220.
Proof.
  assert (Hin : In (@Utils.processMatch Samples.host Samples.game1)
                  (@Utils.processMatches Samples.host [Samples.game1]))
    by (left; reflexivity).
  destruct (processMatches_periods_agree Samples.host [Samples.game1] _ Hin) as [Wq Wr].
  split; [exact Hin|]. split; [apply Wq; lia|].
  rewrite Wr. vm_compute. reflexivity.
Defined.

Lemma generateMatchInsights_no_history_witness :
  Utils.mean15 (Utils.generateMatchInsights Samples.target [Samples.target]) = 0
  /\ Utils.q4Trend (Utils.generateMatchInsights Samples.target [Samples.target])
     = "Neutral".
Proof.
  assert (W : forall m, In m [Samples.target] ->
                (Types.date m <? Types.date Samples.target) = false
                \/ ~ Vocabulary.involvesTeamOf Samples.target m).
  { intros m [<-|[]]. left. vm_compute. reflexivity. }
  rewrite (generateMatchInsights_no_history Samples.target [Samples.target] W).
  split; reflexivity.
Defined.

Lemma normalizeTeamName_idempotent_witness :
  Utils.normalizeTeamName "Boston Celtics" = Utils.Name "Boston Celtics"
  /\ Utils.normalizeTeamName "Los Angeles Clippers" = Utils.Name "Los Angeles Clippers"
  /\ Utils.normalizeTeamName "constructor" = Utils.Member "constructor".
Proof.
  split; [|split].
  - apply (normalizeTeamName_idempotent "Boston Celtics"); [reflexivity|discriminate].
  - destruct (normalizeTeamName_idempotent "LA Clippers") as [W _].
    apply W. reflexivity.
  - apply (normalizeTeamName_idempotent "constructor"). reflexivity.
Defined.

Lemma getTeamStats_available_witness :
  BettingSimulator.getTeamStats Fixtures.teamModel "Boston Celtics" <> None
  /\ BettingSimulator.getTeamStats Fixtures.teamModel "LA Clippers" = None
  /\ In "LA Clippers"
       (map Types.awayTeam (BettingSimulator.backtestMatches Fixtures.teamModel))
  /\ BettingSimulator.getTeamStats Fixtures.teamModel "constructor" = None.
Proof.
  destruct (getTeamStats_available Fixtures.teamModel "Boston Celtics") as [_ [_ [W _]]].
  destruct (getTeamStats_available Fixtures.teamModel "LA Clippers")
    as [_ [_ [_ [_ V]]]].
  destruct (getTeamStats_available Fixtures.teamModel "constructor")
    as [_ [_ [_ [M _]]]].
  split; [|split; [|split]].
  - apply W; [reflexivity|discriminate|].
    exists Fixtures.knicksGame. split; [vm_compute; tauto|right; reflexivity].
  - apply V. intros m Hm. vm_compute in Hm.
    destruct Hm as [<-|[<-|[<-|[]]]]; split; discriminate.
  - vm_compute. tauto.
  - apply M. reflexivity.
Defined.

Lemma filteredMatches_selection_witness :
  Permutation (@BettingSimulator.filteredMatches Samples.host Samples.blindOver)
    (BettingSimulator.backtestMatches Samples.blindOver)
  /\ In (@Utils.processMatch Samples.host Samples.game5)
        (@BettingSimulator.filteredMatches Samples.host
           {| BettingSimulator.backtestMatches :=
                @Utils.processMatches Samples.host [Samples.game1; Samples.game5];
              BettingSimulator.wager := 100;
              BettingSimulator.strategy := BettingSimulator.ALL_OVER;
              BettingSimulator.valueMargin := 5;
              BettingSimulator.selectedTeam := "ALL";
              BettingSimulator.startDate := "2025-01-05";
              BettingSimulator.endDate := "";
              BettingSimulator.efficiencyThreshold := 46.5 |}).
Proof.
  split.
  - apply (filteredMatches_selection Samples.host Samples.blindOver); reflexivity.
  - apply filteredMatches_selection; try reflexivity. vm_compute. tauto.
Defined.

Lemma team_model_signal_witness :
  BettingSimulator.strategy Fixtures.teamModel = BettingSimulator.TEAM_MODEL
  /\ (exists reason,
        @BettingSimulator.evaluate Samples.host Fixtures.teamModel
          BettingSimulator.emptyTally Fixtures.knicksGame
        = BettingSimulator.settle Fixtures.teamModel BettingSimulator.emptyTally
            Fixtures.knicksGame BettingSimulator.BetUnder reason)
  /\ @BettingSimulator.evaluate Samples.host Fixtures.teamModel
       BettingSimulator.emptyTally Samples.target
     = BettingSimulator.emptyTally.
Proof.
  split; [reflexivity|].
  destruct (team_model_signal Samples.host Fixtures.teamModel BettingSimulator.emptyTally
              Fixtures.knicksGame eq_refl) as [_ W].
  destruct (team_model_signal Samples.host Fixtures.teamModel BettingSimulator.emptyTally
              Samples.target eq_refl) as [V _].
  split.
  - eapply W; vm_compute; reflexivity.
  - apply V. right. vm_compute. reflexivity.
Defined.

Lemma backtest_counters_match_log_witness :
  let r := @BettingSimulator.calculateBacktestROI Samples.host Samples.blindOver in
  BettingSimulator.r_totalBets r = 2 /\ BettingSimulator.r_wins r = 1
  /\ BettingSimulator.r_losses r = 1 /\ BettingSimulator.r_pushes r = 0.
Proof.
  apply (backtest_counters_match_log Samples.host Samples.blindOver).
  vm_compute. lia.
Defined.

Lemma live_reversion_rule_witness :
  exists bet,
    In bet (LiveSignals.getLiveValueBets Fixtures.panel)
    /\ LiveSignals.line bet = 240
    /\ LiveSignals.currentLeagueAvg Fixtures.panel = 190.25
    /\ LiveSignals.reversionPick bet = Some BettingSimulator.BetUnder.
Proof.
  pose proof (proj1 (Forall_forall _ _) (live_reversion_rule Fixtures.panel)) as W.
  eexists. split; [vm_compute; left; reflexivity|].
  split; [reflexivity|]. split; [vm_compute; reflexivity|].
  match goal with
  | |- LiveSignals.reversionPick ?b = _ =>
      destruct (W b) as [V _]; [vm_compute; left; reflexivity|]
  end.
  apply V. vm_compute. reflexivity.
Defined.

Lemma live_team_signals_witness :
  exists bet,
    In bet (LiveSignals.getLiveValueBets Fixtures.panel)
    /\ LiveSignals.home bet = "Utah Jazz"
    /\ LiveSignals.modelPick bet = None /\ LiveSignals.efficiencyPick bet = None
    /\ LiveSignals.reversionPick bet <> None.
Proof.
  pose proof (proj1 (Forall_forall _ _) (live_team_signals Fixtures.panel)) as W.
  eexists. split; [vm_compute; right; left; reflexivity|].
  split; [reflexivity|].
  match goal with
  | |- LiveSignals.modelPick ?b = None /\ _ =>
      destruct (W b) as [V _]; [vm_compute; right; left; reflexivity|]
  end.
  destruct V as (V1 & V2 & _ & _ & V3); [left; vm_compute; reflexivity|].
  repeat split; assumption.
Defined.

Lemma trackMovements_entries_witness :
  exists oldLine newLine,
    LineMovements.getLineFromGame Fixtures.pacersGame = Some oldLine
    /\ LineMovements.getLineFromGame Fixtures.pacersGameLater = Some newLine
    /\ JS.get (LineMovements.trackMovements [Fixtures.pacersGame]
                 [Fixtures.pacersGameLater] 1000 []) "n1"
       = Some {| Live.gameId := "n1"; Live.oldLine := oldLine; Live.newLine := newLine;
                 Live.timestamp := 1000; Live.direction := Live.DOWN |}.
Proof.
  destruct (proj1 (trackMovements_entries [Fixtures.pacersGame]
                     [Fixtures.pacersGameLater] 1000 []) "n1")
    as [E|(o & n & ol & nl & Ho & Hn & _ & _ & Lo & Ln & _ & _ & _ & E)].
  - vm_compute in E. discriminate.
  - destruct Ho as [<-|[]]. destruct Hn as [<-|[]].
    exists ol, nl. split; [exact Lo|]. split; [exact Ln|].
    rewrite E. vm_compute in Lo, Ln. injection Lo as <-. injection Ln as <-.
    reflexivity.
Defined.

Lemma tracked_line_is_bet_line_witness :
  exists bet,
    LiveSignals.valueBet Fixtures.panel Fixtures.pacersGame = Some bet
    /\ LineMovements.getLineFromGame Fixtures.pacersGame = Some (LiveSignals.line bet)
    /\ LiveSignals.line bet = 240.
Proof.
  eexists. split; [vm_compute; reflexivity|]. split; [|reflexivity].
  eapply (tracked_line_is_bet_line Fixtures.panel Fixtures.pacersGame);
    [vm_compute; reflexivity|vm_compute; reflexivity|reflexivity|reflexivity].
Defined.

Lemma calculateQuarterAvgs_four_witness :
  Dashboard.calculateQuarterAvgs Samples.season "Utah Jazz" = [0; 0; 0; 0].
Proof.
  apply (calculateQuarterAvgs_four Samples.season "Utah Jazz"). reflexivity.
Defined.

Lemma aggregateTeamStats_names_witness :
  map Types.name (Aggregator.aggregateTeamStats [] (Some Fixtures.rawSeason))
  = ["Boston Celtics"; "New York Knicks"; "Miami Heat"]
  /\ map Types.name (Aggregator.aggregateTeamStats [] (Some Fixtures.rawOddNames))
     = ["10"; "76"; "Boston Celtics"].
Proof.
  destruct (aggregateTeamStats_names [] Fixtures.rawSeason) as [_ [_ [W _]]].
  destruct (aggregateTeamStats_names [] Fixtures.rawOddNames) as [V _].
  split.
  - rewrite W; [reflexivity|].
    intros n Hn. vm_compute in Hn.
    repeat (destruct Hn as [<-|Hn]; [reflexivity|]). contradiction.
  - rewrite V. reflexivity.
Defined.

Lemma sorted_newest_first_witness :
  StronglySorted Terms.noNewer Samples.season
  /\ map Types.id Samples.season = ["g1"; "g4"; "g3"; "g5"].
Proof.
  destruct (sorted_newest_first Samples.host) as [W _].
  split; [|vm_compute; reflexivity].
  apply W. repeat (apply Forall_cons; [vm_compute; reflexivity|]). apply Forall_nil.
Defined.

Lemma getLast5Games_recent_witness :
  let games := @Dashboard.getLast5Games Samples.host Samples.season "Boston Celtics" in
  StronglySorted (fun a b => (Dashboard.g_date b <=? Dashboard.g_date a) = true) games
  /\ map Dashboard.g_id games = ["g1"; "g4"; "g5"].
Proof.
  destruct (getLast5Games_recent Samples.host Samples.season "Boston Celtics")
    as [_ [W _]].
  split; [|vm_compute; reflexivity].
  apply W. apply Forall_forall. intros m Hm. vm_compute in Hm.
  repeat (destruct Hm as [<-|Hm]; [vm_compute; reflexivity|]). contradiction.
Defined.

Lemma getTeamLogo_address_witness :
  @Aggregator.getTeamLogo Fixtures.sampleCase "Boston Celtics"
  = Some "https://loodibee.com/wp-content/uploads/nba-boston-celtics-logo.png"
  /\ @Aggregator.getTeamLogo Fixtures.sampleCase "constructor" = None.
Proof.
  destruct (getTeamLogo_address Fixtures.sampleCase "Boston Celtics") as [_ [W _]].
  destruct (getTeamLogo_address Fixtures.sampleCase "constructor") as [V _].
  split.
  - destruct (W eq_refl) as [address [E _]]. rewrite E.
    vm_compute in E. symmetry. exact E.
  - apply V. reflexivity.
Defined.
